(** * opencode-debug-helper: instrumentation markers and log correlation

    A shallow embedding of
      - src/utils/instrumentation-patterns.ts  (pattern registry, marker codec,
        block scan and removal),
      - src/utils/log-patterns.ts              (log classification),
      - src/utils/persistence.ts               (session store),
      - src/tools/instrumentation.ts           (add / remove tools),
      - src/tools/log-parser.ts                (correlation tool),
    followed by the properties of the marker life cycle.

    JavaScript strings are modelled by [string]: sequences of code units below
    256.  The built-ins the code relies on ([split], [join], [replace],
    [substring], [lastIndexOf], the regular expressions) are written out as
    functions on [string]. *)

From Stdlib Require Import ZArith Lia Bool Ascii DecimalString.
From stdpp Require Import base option list gmap strings.

Local Open Scope Z_scope.

(** ** JavaScript string primitives *)

Module JS.

Definition nl : ascii := "010"%char.
Definition dq : string := String "034"%char EmptyString.
Definition backslash : string := String "092"%char EmptyString.

(** A string is truthy when it is not empty. *)
Definition truthy (s : string) : bool :=
  match s with EmptyString => false | String _ _ => true end.

Definition strlen (s : string) : nat := String.length s.

(** [s.split("\n")] *)
Fixpoint split (s : string) : list string :=
  match s with
  | EmptyString => [EmptyString]
  | String c s' =>
      if Ascii.eqb c nl then EmptyString :: split s'
      else match split s' with
           | l :: ls => String c l :: ls
           | [] => [String c EmptyString]
           end
  end.

(** [ls.join("\n")] *)
Fixpoint join (ls : list string) : string :=
  match ls with
  | [] => EmptyString
  | [l] => l
  | l :: ls' => l +:+ String nl (join ls')
  end.

(** [s.startsWith(p)], returning what follows the prefix. *)
Fixpoint strip_prefix (p s : string) : option string :=
  match p, s with
  | EmptyString, _ => Some s
  | String a p', String b s' =>
      if Ascii.eqb a b then strip_prefix p' s' else None
  | String _ _, EmptyString => None
  end.

(** The first occurrence of [pat] in [s]: the text before it and after it. *)
Fixpoint find_first (pat s : string) : option (string * string) :=
  match strip_prefix pat s with
  | Some rest => Some (EmptyString, rest)
  | None =>
      match s with
      | EmptyString => None
      | String c s' =>
          match find_first pat s' with
          | Some (before, after) => Some (String c before, after)
          | None => None
          end
      end
  end.

(** GetSubstitution of ECMAScript for a string pattern (no capture groups):
    [$$], [$&], [$`] and [$'] are expanded in the replacement text, every
    other [$] stands for itself. *)
Fixpoint get_substitution (matched before after repl : string) : string :=
  match repl with
  | EmptyString => EmptyString
  | String c r =>
      if Ascii.eqb c "$" then
        match r with
        | String d r' =>
            if Ascii.eqb d "$" then
              String "$" (get_substitution matched before after r')
            else if Ascii.eqb d "&" then
              matched +:+ get_substitution matched before after r'
            else if Ascii.eqb d "`" then
              before +:+ get_substitution matched before after r'
            else if Ascii.eqb d "'" then
              after +:+ get_substitution matched before after r'
            else String c (get_substitution matched before after r)
        | EmptyString => String c (get_substitution matched before after r)
        end
      else String c (get_substitution matched before after r)
  end.

(** [s.replace(pat, repl)] with a string pattern: the first occurrence only. *)
Definition replace (pat repl s : string) : string :=
  match find_first pat s with
  | Some (before, after) =>
      before +:+ get_substitution pat before after repl +:+ after
  | None => s
  end.

Fixpoint drop (n : nat) (s : string) : string :=
  match n, s with
  | O, _ => s
  | S n', String _ s' => drop n' s'
  | S _, EmptyString => EmptyString
  end.

Fixpoint take (n : nat) (s : string) : string :=
  match n, s with
  | O, _ => EmptyString
  | S n', String c s' => String c (take n' s')
  | S _, EmptyString => EmptyString
  end.

(** [s.substring(a, b)]: negative indices count as 0, indices beyond the
    end as the length, and the two are swapped when [b < a]. *)
Definition substring (a b : Z) (s : string) : string :=
  let clamp i := Z.to_nat (Z.min (Z.max 0 i) (Z.of_nat (strlen s))) in
  let lo := Nat.min (clamp a) (clamp b) in
  let hi := Nat.max (clamp a) (clamp b) in
  take (hi - lo) (drop lo s).

(** [s.substring(a)] *)
Definition substring_from (a : Z) (s : string) : string :=
  substring a (Z.of_nat (strlen s)) s.

(** [s.lastIndexOf(c)] for a one-character [c]; [-1] when absent. *)
Fixpoint lastIndexOf (c : ascii) (s : string) : Z :=
  match s with
  | EmptyString => -1
  | String d s' =>
      let r := lastIndexOf c s' in
      if 0 <=? r then r + 1
      else if Ascii.eqb c d then 0 else -1
  end.

(** The class [\s] on code units below 256. *)
Definition is_space (c : ascii) : bool :=
  match c with
  | "009" | "010" | "011" | "012" | "013" | " " | "160" => true
  | _ => false
  end%char.

(** The class [\d]. *)
Definition is_digit (c : ascii) : bool :=
  let n := nat_of_ascii c in (48 <=? n)%nat && (n <=? 57)%nat.

(** The class [[a-z0-9]]. *)
Definition is_id_char (c : ascii) : bool :=
  let n := nat_of_ascii c in
  ((97 <=? n)%nat && (n <=? 122)%nat) || is_digit c.

(** The longest prefix of characters in a class, and what follows it. *)
Fixpoint span (p : ascii -> bool) (s : string) : string * string :=
  match s with
  | EmptyString => (EmptyString, EmptyString)
  | String c s' =>
      if p c then let '(a, b) := span p s' in (String c a, b)
      else (EmptyString, s)
  end.

Fixpoint all_chars (p : ascii -> bool) (s : string) : bool :=
  match s with
  | EmptyString => true
  | String c s' => p c && all_chars p s'
  end.

End JS.

(** ** Pattern registry (instrumentation-patterns.ts) *)

Record CommentSyntax := {
  single : string;
  multi_start : option string;
  multi_end : option string;
}.

Record InstrumentationPattern := {
  log_template : string;
  start_marker : string -> string;
  end_marker : string -> string;
  extensions : list string;
  comment : CommentSyntax;
}.

Definition slash_comment : CommentSyntax :=
  {| single := "//"; multi_start := Some "/*"; multi_end := Some "*/" |}.

Definition JS_TS_PATTERN : InstrumentationPattern := {|
  log_template :=
    "console.log(" +:+ JS.dq +:+ "[{marker_id}] {label}:" +:+ JS.dq
      +:+ ", {expression});";
  start_marker := fun id => "// [DEBUG-HELPER:" +:+ id +:+ "] START";
  end_marker := fun id => "// [DEBUG-HELPER:" +:+ id +:+ "] END";
  extensions := [".js"; ".jsx"; ".ts"; ".tsx"; ".mjs"; ".cjs"; ".mts"; ".cts"];
  comment := slash_comment;
|}.

Definition PYTHON_PATTERN : InstrumentationPattern := {|
  log_template :=
    "print(f" +:+ JS.dq +:+ "[{marker_id}] {label}: {{expression}}" +:+ JS.dq
      +:+ ")";
  start_marker := fun id => "# [DEBUG-HELPER:" +:+ id +:+ "] START";
  end_marker := fun id => "# [DEBUG-HELPER:" +:+ id +:+ "] END";
  extensions := [".py"];
  comment := {| single := "#"; multi_start := None; multi_end := None |};
|}.

Definition RUST_PATTERN : InstrumentationPattern := {|
  log_template :=
    "eprintln!(" +:+ JS.dq +:+ "[{marker_id}] {label}: {:?}" +:+ JS.dq
      +:+ ", {expression});";
  start_marker := fun id => "// [DEBUG-HELPER:" +:+ id +:+ "] START";
  end_marker := fun id => "// [DEBUG-HELPER:" +:+ id +:+ "] END";
  extensions := [".rs"];
  comment := slash_comment;
|}.

(** The template ends its format string with a backslash followed by [n]
    (two characters), which Go reads as a newline escape. *)
Definition GO_PATTERN : InstrumentationPattern := {|
  log_template :=
    "fmt.Printf(" +:+ JS.dq +:+ "[{marker_id}] {label}: %+v" +:+ JS.backslash
      +:+ "n" +:+ JS.dq +:+ ", {expression})";
  start_marker := fun id => "// [DEBUG-HELPER:" +:+ id +:+ "] START";
  end_marker := fun id => "// [DEBUG-HELPER:" +:+ id +:+ "] END";
  extensions := [".go"];
  comment := slash_comment;
|}.

Definition ALL_PATTERNS : list InstrumentationPattern :=
  [JS_TS_PATTERN; PYTHON_PATTERN; RUST_PATTERN; GO_PATTERN].

(** The table filled by the two nested loops at module load. *)
Definition PATTERNS_BY_EXTENSION : gmap string InstrumentationPattern :=
  foldl (fun table pattern =>
           foldl (fun table ext => <[ext := pattern]> table)
                 table (extensions pattern))
        ∅ ALL_PATTERNS.

(** What a property of the table object holds: a pattern that the loops
    stored, or a value that the object inherits from [Object.prototype],
    which is no pattern. *)
Inductive TableValue :=
| own_pattern (pattern : InstrumentationPattern)
| inherited (property : string).

(** The string-keyed properties of [Object.prototype].  Each holds a
    function, and [__proto__] the prototype object itself: all are truthy,
    and none has a [start_marker]. *)
Definition OBJECT_PROTOTYPE : list string :=
  [ "constructor"; "__defineGetter__"; "__defineSetter__"; "hasOwnProperty";
    "__lookupGetter__"; "__lookupSetter__"; "isPrototypeOf";
    "propertyIsEnumerable"; "toString"; "valueOf"; "__proto__";
    "toLocaleString" ].

(** [PATTERNS_BY_EXTENSION[key]]: the table is a plain object, so a key it
    does not hold itself is looked up in its prototype; [None] is
    [undefined]. *)
Definition table_get (key : string) : option TableValue :=
  match PATTERNS_BY_EXTENSION !! key with
  | Some pattern => Some (own_pattern pattern)
  | None =>
      if bool_decide (key ∈ OBJECT_PROTOTYPE) then Some (inherited key) else None
  end.

(** [filePath.substring(filePath.lastIndexOf("."))]: without a dot the index
    is [-1] and the extension is the whole path.  Every value of the table
    is truthy, so [|| null] replaces [undefined] only.  A path without a dot
    that is the name of an inherited property (a relative path such as
    [constructor]) gets that property's value. *)
Definition getPatternForFile (filePath : string) : option TableValue :=
  let ext := JS.substring_from (JS.lastIndexOf "." filePath) filePath in
  table_get ext.

(** ** Marker codec *)

(** [Math.random().toString(36).substring(2, 10)].  Which digits
    [toString(36)] prints for a double is the engine's choice (it stops when
    the digits identify the double and rounds the last one), so the text is
    taken as it comes: [random36] is what [Math.random().toString(36)]
    evaluates to. *)
Definition generateMarkerId (random36 : string) : string :=
  JS.substring 2 10 random36.

(** The print statement of a block; [expression] is absent or empty for a
    checkpoint. *)
Definition renderLogLine (pattern : InstrumentationPattern)
    (markerId label : string) (expression : option string) : string :=
  match expression with
  | Some expression =>
      if JS.truthy expression then
        JS.replace "{{expression}}" ("{" +:+ expression +:+ "}")
          (JS.replace "{expression}" expression
            (JS.replace "{label}" label
              (JS.replace "{marker_id}" markerId (log_template pattern))))
      else
        JS.replace (": %+v" +:+ JS.backslash +:+ "n" +:+ JS.dq +:+ ", {expression}")
                   (JS.backslash +:+ "n" +:+ JS.dq)
          (JS.replace (": {:?}" +:+ JS.dq +:+ ", {expression}") JS.dq
            (JS.replace ": {{expression}}" EmptyString
              (JS.replace ": {expression}" EmptyString
                (JS.replace ", {expression}" EmptyString
                  (JS.replace "{label}" label
                    (JS.replace "{marker_id}" markerId (log_template pattern)))))))
  | None =>
      JS.replace (": %+v" +:+ JS.backslash +:+ "n" +:+ JS.dq +:+ ", {expression}")
                 (JS.backslash +:+ "n" +:+ JS.dq)
        (JS.replace (": {:?}" +:+ JS.dq +:+ ", {expression}") JS.dq
          (JS.replace ": {{expression}}" EmptyString
            (JS.replace ": {expression}" EmptyString
              (JS.replace ", {expression}" EmptyString
                (JS.replace "{label}" label
                  (JS.replace "{marker_id}" markerId (log_template pattern)))))))
  end.

Definition buildInstrumentationBlock (pattern : InstrumentationPattern)
    (markerId label : string) (expression : option string) (indent : string)
    : string :=
  JS.join [ indent +:+ start_marker pattern markerId;
            indent +:+ renderLogLine pattern markerId label expression;
            indent +:+ end_marker pattern markerId ].

(** *** Recognising marker lines

    [\[DEBUG-HELPER:([a-z0-9]+)\]] anchored at the start of [s]: the id and
    the text after the closing bracket.  The class excludes the bracket, so
    the greedy run is the only candidate for the group. *)
Definition match_tag (s : string) : option (string * string) :=
  match JS.strip_prefix "[DEBUG-HELPER:" s with
  | Some rest =>
      match JS.span JS.is_id_char rest with
      | (String c id, String "]" after) => Some (String c id, after)
      | _ => None
      end
  | None => None
  end.

(** [line.match(/\[DEBUG-HELPER:([a-z0-9]+)\]/)]: group 1 of the leftmost
    match. *)
Fixpoint extractMarkerId (line : string) : option string :=
  match match_tag line with
  | Some (id, _) => Some id
  | None =>
      match line with
      | EmptyString => None
      | String _ line' => extractMarkerId line'
      end
  end.

(** [/\[DEBUG-HELPER:[a-z0-9]+\]<suffix>/.test(line)] *)
Fixpoint test_tag_then (suffix line : string) : bool :=
  match match_tag line with
  | Some (_, after) => bool_decide (is_Some (JS.strip_prefix suffix after))
  | None => false
  end
  || match line with
     | EmptyString => false
     | String _ line' => test_tag_then suffix line'
     end.

Definition isStartMarker (line : string) : bool := test_tag_then " START" line.
Definition isEndMarker (line : string) : bool := test_tag_then " END" line.

(** *** Scanning for blocks *)

Record Block := {
  markerId : string;
  startLine : nat;
  endLine : nat;
  content : string;
}.

Record OpenBlock := {
  open_markerId : string;
  open_startLine : nat;
  open_lines : list string;
}.

(** One turn of the loop of [findInstrumentationBlocks] at index [i]. *)
Definition scan_step (i : nat) (line : string)
    (st : option OpenBlock * list Block) : option OpenBlock * list Block :=
  let '(currentBlock, blocks) := st in
  if isStartMarker line then
    match extractMarkerId line with
    | Some id =>
        if JS.truthy id then
          (Some {| open_markerId := id; open_startLine := i + 1;
                   open_lines := [line] |}, blocks)
        else st
    | None => st
    end
  else if isEndMarker line && bool_decide (is_Some currentBlock) then
    match currentBlock with
    | Some cur =>
        if bool_decide (extractMarkerId line = Some (open_markerId cur)) then
          (None,
           blocks ++ [ {| markerId := open_markerId cur;
                          startLine := open_startLine cur;
                          endLine := i + 1;
                          content := JS.join (open_lines cur ++ [line]) |} ])
        else st
    | None => st
    end
  else
    match currentBlock with
    | Some cur =>
        (Some {| open_markerId := open_markerId cur;
                 open_startLine := open_startLine cur;
                 open_lines := open_lines cur ++ [line] |}, blocks)
    | None => st
    end.

Fixpoint scan_loop (i : nat) (lines : list string)
    (st : option OpenBlock * list Block) : option OpenBlock * list Block :=
  match lines with
  | [] => st
  | line :: rest => scan_loop (S i) rest (scan_step i line st)
  end.

Definition findInstrumentationBlocks (content : string) (_filePath : string)
    : list Block :=
  snd (scan_loop 0 (JS.split content) (None, [])).

(** *** Removing blocks *)

Fixpoint removeAll_loop (inBlock : bool) (lines : list string) : list string :=
  match lines with
  | [] => []
  | line :: rest =>
      if isStartMarker line then removeAll_loop true rest
      else if isEndMarker line then removeAll_loop false rest
      else if inBlock then removeAll_loop inBlock rest
      else line :: removeAll_loop inBlock rest
  end.

Definition removeAllInstrumentationBlocks (content : string) : string :=
  JS.join (removeAll_loop false (JS.split content)).

(** A start (end) marker line whose leftmost tag carries [id]. *)
Definition starts (id line : string) : bool :=
  isStartMarker line && bool_decide (extractMarkerId line = Some id).
Definition ends (id line : string) : bool :=
  isEndMarker line && bool_decide (extractMarkerId line = Some id).

Fixpoint remove_loop (markerId : string) (inTargetBlock : bool)
    (lines : list string) : list string :=
  match lines with
  | [] => []
  | line :: rest =>
      if starts markerId line then remove_loop markerId true rest
      else if ends markerId line then remove_loop markerId false rest
      else if inTargetBlock then remove_loop markerId inTargetBlock rest
      else line :: remove_loop markerId inTargetBlock rest
  end.

Definition removeInstrumentationBlock (content markerId : string) : string :=
  JS.join (remove_loop markerId false (JS.split content)).

(** ** Log classification (log-patterns.ts) *)

Inductive LogType := error | warning | info | debug | debug_helper.

Global Instance LogType_eq_dec : EqDecision LogType.
Proof. solve_decision. Defined.

Module LogMatch.
Record t := {
  type : LogType;
  line : nat;
  content : string;
  marker_id : option string;
  details : option string;
}.
End LogMatch.

(** [^\s+] : what follows the leading run of white space, when there is one. *)
Definition leading_spaces (s : string) : option string :=
  match JS.span JS.is_space s with
  | (String _ _, rest) => Some rest
  | _ => None
  end.

(** [/^\s+at\s+/] *)
Definition is_js_frame (s : string) : bool :=
  match leading_spaces s with
  | Some rest =>
      match JS.strip_prefix "at" rest with
      | Some rest' => bool_decide (is_Some (leading_spaces rest'))
      | None => false
      end
  | None => false
  end.

(** [/^\s+File\s+/] followed by a double quote *)
Definition is_python_frame (s : string) : bool :=
  match leading_spaces s with
  | Some rest =>
      match JS.strip_prefix "File" rest with
      | Some rest' =>
          match leading_spaces rest' with
          | Some rest'' => bool_decide (is_Some (JS.strip_prefix JS.dq rest''))
          | None => false
          end
      | None => false
      end
  | None => false
  end.

(** [/^\s+\d+:\s+/] *)
Definition is_rust_frame (s : string) : bool :=
  match leading_spaces s with
  | Some rest =>
      match JS.span JS.is_digit rest with
      | (String _ _, String ":" rest') =>
          bool_decide (is_Some (leading_spaces rest'))
      | _ => false
      end
  | None => false
  end.

(** [/^\s+/] *)
Definition is_indented (s : string) : bool :=
  bool_decide (is_Some (leading_spaces s)).

(** The test of the loop of [extractErrorContext]. *)
Definition is_continuation (line : string) : bool :=
  is_js_frame line || is_python_frame line || is_rust_frame line
  || is_indented line.

Definition maxContext : nat := 10.

(** The loop of [extractErrorContext], [steps] turns from index [i]. *)
Fixpoint context_loop (lines : list string) (i steps : nat) : list string :=
  match steps with
  | O => []
  | S steps' =>
      match lines !! i with
      | Some line =>
          if is_continuation line
          then line :: context_loop lines (S i) steps'
          else []
      | None => []
      end
  end.

(** [for (i = errorIndex + 1; i < Math.min(lines.length, errorIndex + maxContext); i++)] *)
Definition extractErrorContext (lines : list string) (errorIndex : nat) : string :=
  let bound := Nat.min (length lines) (errorIndex + maxContext) in
  JS.join (context_loop lines (errorIndex + 1) (bound - (errorIndex + 1))).

Section LogPatterns.

(** The two tables of regular expressions, each expression standing for its
    [test].  What follows holds whatever the tables contain. *)
Variable ERROR_PATTERNS : list (string -> bool).
Variable WARNING_PATTERNS : list (string -> bool).

(** The loop of [parseLogContent] from index [i], over the lines left. *)
Fixpoint parse_loop (lines : list string) (i : nat) (rest : list string)
    : list LogMatch.t :=
  match rest with
  | [] => []
  | l :: rest' =>
      let lineNum := S i in
      match extractMarkerId l with
      | Some id =>
          {| LogMatch.type := debug_helper; LogMatch.line := lineNum;
             LogMatch.content := l; LogMatch.marker_id := Some id;
             LogMatch.details := None |}
            :: parse_loop lines (S i) rest'
      | None =>
          if existsb (fun pattern => pattern l) ERROR_PATTERNS then
            {| LogMatch.type := error; LogMatch.line := lineNum;
               LogMatch.content := l; LogMatch.marker_id := None;
               LogMatch.details := Some (extractErrorContext lines i) |}
              :: parse_loop lines (S i) rest'
          else if existsb (fun pattern => pattern l) WARNING_PATTERNS then
            {| LogMatch.type := warning; LogMatch.line := lineNum;
               LogMatch.content := l; LogMatch.marker_id := None;
               LogMatch.details := None |}
              :: parse_loop lines (S i) rest'
          else parse_loop lines (S i) rest'
      end
  end.

Definition parseLogContent (content : string) : list LogMatch.t :=
  let lines := JS.split content in
  parse_loop lines 0 lines.

End LogPatterns.

Definition filterDebugHelperOutput (matches : list LogMatch.t) : list LogMatch.t :=
  filter (fun m => LogMatch.type m = debug_helper) matches.

Definition filterErrors (matches : list LogMatch.t) : list LogMatch.t :=
  filter (fun m => LogMatch.type m = error) matches.

(** ** Session store (persistence.ts)

    A session is persisted as one JSON document per session id; the store is
    modelled by the map from session ids to the documents that parse.  The
    files the tools instrument are a second map, from paths to file text. *)

Module Marker.
Record t := {
  id : string;
  file_path : string;
  line_start : Z;
  line_end : Z;
  label : string;
  expression : option string;
  created_at : string;
}.
End Marker.

Module LogEntry.
Record t := {
  timestamp : string;
  marker_id : option string;
  level : LogType;
  message : string;
  source : option string;
}.
End LogEntry.

Module RCAEntry.
Inductive Outcome := confirmed | rejected | inconclusive.
Record t := {
  timestamp : string;
  hypothesis : string;
  evidence : list string;
  outcome : Outcome;
}.
End RCAEntry.

Module ProcessEntry.
Record t := { name : string; pid : Z; startedAt : string }.
End ProcessEntry.

Record SessionData := {
  session_id : string;
  project_dir : string;
  directory : string;
  created_at : string;
  markers : list Marker.t;
  logs : list LogEntry.t;
  rca_history : list RCAEntry.t;
  processes : option (list ProcessEntry.t);
}.

(** The file system, as far as the tools see it.  [files] holds the project
    files by path: each as the text that [readFile(path, "utf-8")] gives and
    [writeFile] takes, not as bytes.  [sessions] holds the parsed session
    documents of the store by session id: the document of an id is the file
    [join(BASE_DIR, id, "session.json")], so the map stands for the store
    when every id is the name of one directory entry (see [entry_name]).
    The project files lie outside [BASE_DIR]. *)
Record World := {
  files : gmap string string;
  sessions : gmap string SessionData;
}.

Definition existsSync (path : string) (w : World) : bool :=
  bool_decide (is_Some (files w !! path)).

Definition writeFile (path text : string) (w : World) : World :=
  {| files := <[path := text]> (files w); sessions := sessions w |}.

(** The store (persistence.ts).  A document is written to and read from
    the directory of its id, [join(BASE_DIR, id)]: the operations are those
    of the code for ids that name one directory entry, for which that
    directory is [BASE_DIR/id]. *)
Definition saveSession (data : SessionData) (w : World) : World :=
  {| files := files w; sessions := <[session_id data := data]> (sessions w) |}.

Definition createSession (sessionId projectDir now : string) (w : World)
    : SessionData * World :=
  let data := {| session_id := sessionId; project_dir := projectDir;
                 directory := projectDir; created_at := now;
                 markers := []; logs := []; rca_history := [];
                 processes := Some [] |} in
  (data, saveSession data w).

Definition loadSession (sessionId : string) (w : World) : option SessionData :=
  sessions w !! sessionId.

Definition set_markers (data : SessionData) (ms : list Marker.t) : SessionData :=
  {| session_id := session_id data; project_dir := project_dir data;
     directory := directory data; created_at := created_at data;
     markers := ms; logs := logs data; rca_history := rca_history data;
     processes := processes data |}.

(** [addMarker], [removeMarker] and [clearMarkers] throw when the session is
    missing: [None]. *)
Definition addMarker (sessionId : string) (marker : Marker.t) (w : World)
    : option World :=
  match loadSession sessionId w with
  | None => None
  | Some data => Some (saveSession (set_markers data (markers data ++ [marker])) w)
  end.

Definition removeMarker (sessionId markerId : string) (w : World) : option World :=
  match loadSession sessionId w with
  | None => None
  | Some data =>
      Some (saveSession
              (set_markers data
                 (filter (fun m => Marker.id m ≠ markerId) (markers data))) w)
  end.

Definition getMarkers (sessionId : string) (w : World) : list Marker.t :=
  match loadSession sessionId w with
  | Some data => markers data
  | None => []
  end.

Definition clearMarkers (sessionId : string) (w : World) : option World :=
  match loadSession sessionId w with
  | None => None
  | Some data => Some (saveSession (set_markers data []) w)
  end.

(** ** Instrumentation tools (tools/instrumentation.ts) *)

(** What a call reads from its process: the working directory, the text of
    the next [Math.random().toString(36)] and the clock. *)
Record Env := {
  cwd : string;
  random36 : string;
  now : string;
}.

Definition show_Z (z : Z) : string :=
  DecimalString.NilZero.string_of_int (Z.to_int z).

(** [lines.splice(index, 0, item)] *)
Definition splice {A} (index : nat) (item : A) (l : list A) : list A :=
  take index l ++ item :: drop index l.

(** The leading white space of the target line: group 1 of [^(\s* )]. *)
Definition indentOf (targetLine : string) : string :=
  fst (JS.span JS.is_space targetLine).

(** What a call comes to: one of the three error texts, the text of a
    success, or an error thrown: [AddThrew] by the session store,
    [AddTypeError] by [buildInstrumentationBlock], which calls
    [pattern.start_marker] on a table value that is no pattern. *)
Inductive AddResult :=
| AddFileNotFound (file_path : string)
| AddUnsupportedFileType
| AddLineOutOfRange (line : Z) (lineCount : nat)
| Added (markerId file_path : string) (line : Z) (block : string)
| AddThrew (message : string)
| AddTypeError.

(** The text a call returns, or the message of the error it throws; the
    engine words the message of the TypeError, [not_a_function]. *)
Definition add_message (not_a_function : string) (r : AddResult) : string :=
  match r with
  | AddFileNotFound file_path => "Error: File not found: " +:+ file_path
  | AddUnsupportedFileType =>
      "Error: Unsupported file type. Supported: "
        +:+ ".js, .jsx, .ts, .tsx, .py, .rs, .go"
  | AddLineOutOfRange line lineCount =>
      "Error: Line " +:+ show_Z line +:+ " out of range (file has "
        +:+ show_Z (Z.of_nat lineCount) +:+ " lines)"
  | Added markerId file_path line block =>
      "Added instrumentation marker `" +:+ markerId +:+ "` at " +:+ file_path
        +:+ ":" +:+ show_Z (line + 1) +:+ String JS.nl (String JS.nl "Inserted:")
        +:+ String JS.nl "```" +:+ String JS.nl block +:+ String JS.nl "```"
  | AddThrew message => message
  | AddTypeError => not_a_function
  end.

Definition addInstrumentationTool (env : Env) (session_id file_path : string)
    (line : Z) (label : string) (expression : option string) (w : World)
    : AddResult * World :=
  if negb (existsSync file_path w) then (AddFileNotFound file_path, w)
  else
    match getPatternForFile file_path with
    | None => (AddUnsupportedFileType, w)
    | Some value =>
        let w :=
          match loadSession session_id w with
          | Some _ => w
          | None => snd (createSession session_id (cwd env) (now env) w)
          end in
        let content := default EmptyString (files w !! file_path) in
        let lines := JS.split content in
        if (line <? 1) || (Z.of_nat (length lines) <? line) then
          (AddLineOutOfRange line (length lines), w)
        else
          let targetLine := default EmptyString (lines !! Z.to_nat (line - 1)) in
          let indent := indentOf targetLine in
          let markerId := generateMarkerId (random36 env) in
          match value with
          | inherited _ => (AddTypeError, w)
          | own_pattern pattern =>
              let block :=
                buildInstrumentationBlock pattern markerId label expression
                  indent in
              let lines := splice (Z.to_nat line) block lines in
              let w := writeFile file_path (JS.join lines) w in
              let marker :=
                {| Marker.id := markerId; Marker.file_path := file_path;
                   Marker.line_start := line + 1; Marker.line_end := line + 3;
                   Marker.label := label; Marker.expression := expression;
                   Marker.created_at := now env |} in
              match addMarker session_id marker w with
              | Some w => (Added markerId file_path line block, w)
              | None => (AddThrew ("Session not found: " +:+ session_id), w)
              end
          end
    end.

Inductive RemoveResult :=
| RemoveMarkerNotFound (marker_id session_id : string)
| RemoveFileGone (file_path : string)
| RemoveAlreadyGone (marker_id : string)
| Removed (marker_id file_path : string)
| RemoveThrew (message : string).

Definition remove_message (r : RemoveResult) : string :=
  match r with
  | RemoveMarkerNotFound marker_id session_id =>
      "Error: Marker `" +:+ marker_id +:+ "` not found in session `"
        +:+ session_id +:+ "`"
  | RemoveFileGone file_path =>
      "Warning: File " +:+ file_path
        +:+ " no longer exists. Removed marker from session."
  | RemoveAlreadyGone marker_id =>
      "Warning: Marker `" +:+ marker_id
        +:+ "` not found in file (may have been manually removed). Cleaned up session."
  | Removed marker_id file_path =>
      "Removed marker `" +:+ marker_id +:+ "` from " +:+ file_path
  | RemoveThrew message => message
  end.

(** The end of every branch that found the record: drop it from the session. *)
Definition drop_record (session_id marker_id : string) (r : RemoveResult)
    (w : World) : RemoveResult * World :=
  match removeMarker session_id marker_id w with
  | Some w' => (r, w')
  | None => (RemoveThrew ("Session not found: " +:+ session_id), w)
  end.

Definition removeInstrumentationTool (session_id marker_id : string) (w : World)
    : RemoveResult * World :=
  let markers := getMarkers session_id w in
  match List.find (fun m => bool_decide (Marker.id m = marker_id)) markers with
  | None => (RemoveMarkerNotFound marker_id session_id, w)
  | Some marker =>
      match files w !! Marker.file_path marker with
      | None =>
          drop_record session_id marker_id
            (RemoveFileGone (Marker.file_path marker)) w
      | Some content =>
          let newContent := removeInstrumentationBlock content marker_id in
          if bool_decide (content = newContent) then
            drop_record session_id marker_id (RemoveAlreadyGone marker_id) w
          else
            drop_record session_id marker_id
              (Removed marker_id (Marker.file_path marker))
              (writeFile (Marker.file_path marker) newContent w)
      end
  end.

Inductive ScanResult :=
| ScanFileNotFound (file_path : string)
| ScanNothing (file_path : string)
| ScanFound (file_path : string) (blocks : list Block).

Definition scanFileInstrumentationTool (file_path : string) (w : World)
    : ScanResult :=
  match files w !! file_path with
  | None => ScanFileNotFound file_path
  | Some content =>
      let blocks := findInstrumentationBlocks content file_path in
      if bool_decide (length blocks = 0%nat) then ScanNothing file_path
      else ScanFound file_path blocks
  end.

(** ** Correlation tool (tools/log-parser.ts) *)

Record Report := {
  (** the rows of the status table, one per session marker: HIT or NOT HIT *)
  status : list (Marker.t * bool);
  (** the execution order: marker id and line of its first tag *)
  markerOrder : list (string * nat);
  errorMatches : list LogMatch.t;
  (** the markers listed as NOT hit *)
  missedMarkers : list Marker.t;
}.


(** The loop that fills [hitMarkers] and [markerOrder]. *)
Fixpoint hit_loop (debugMatches : list LogMatch.t)
    (acc : gset string * list (string * nat)) : gset string * list (string * nat) :=
  match debugMatches with
  | [] => acc
  | m :: rest =>
      let '(hitMarkers, markerOrder) := acc in
      match LogMatch.marker_id m with
      | Some id =>
          if JS.truthy id then
            let markerOrder :=
              if bool_decide (id ∈ hitMarkers) then markerOrder
              else markerOrder ++ [(id, LogMatch.line m)] in
            hit_loop rest ({[id]} ∪ hitMarkers, markerOrder)
          else hit_loop rest acc
      | None => hit_loop rest acc
      end
  end.


Section Correlate.

Variable ERROR_PATTERNS : list (string -> bool).
Variable WARNING_PATTERNS : list (string -> bool).

Definition correlate (markers : list Marker.t) (logContent : string) : Report :=
  let allMatches := parseLogContent ERROR_PATTERNS WARNING_PATTERNS logContent in
  let debugMatches := filterDebugHelperOutput allMatches in
  let errorMatches := filterErrors allMatches in
  let '(hitMarkers, markerOrder) := hit_loop debugMatches (∅, []) in
  {| status := map (fun m => (m, bool_decide (Marker.id m ∈ hitMarkers))) markers;
     markerOrder := markerOrder;
     errorMatches := errorMatches;
     missedMarkers := filter (fun m => Marker.id m ∉ hitMarkers) markers |}.


End Correlate.

(** ** Vocabulary of the properties *)

(** A line: a string without a newline. *)
Definition single_line (s : string) : bool :=
  JS.all_chars (fun c => negb (Ascii.eqb c JS.nl)) s.

(** A marker id as the tag grammar reads it: [[a-z0-9]+]. *)
Definition well_formed_id (id : string) : bool :=
  JS.truthy id && JS.all_chars JS.is_id_char id.

(** The line is a start or an end marker line carrying [id]. *)
Definition carries (id line : string) : bool := starts id line || ends id line.

(** The first half of [addInstrumentationTool]'s edit, on the file text:
    the block spliced in after line [line]. *)
Definition insertBlock (pattern : InstrumentationPattern)
    (markerId label : string) (expression : option string) (line : nat)
    (content : string) : string :=
  let lines := JS.split content in
  let indent := indentOf (default EmptyString (lines !! (line - 1)%nat)) in
  JS.join (splice line
             (buildInstrumentationBlock pattern markerId label expression indent)
             lines).

(** The text of [x.toString(36)] for [0 <= x < 1], whatever the digits an
    engine settles on: ["0"], or ["0."] followed by digits. *)
Definition radix36_text (text : string) : bool :=
  match text with
  | String "0" EmptyString => true
  | String "0" (String "." digits) => JS.all_chars JS.is_id_char digits
  | _ => false
  end.

(** A text without an opening bracket holds no marker tag. *)
Definition no_bracket (s : string) : bool :=
  JS.all_chars (fun c => negb (Ascii.eqb c "[")) s.

(** Some line of the statement before its last one is an end marker line
    carrying [id] (never so for a one-line statement). *)
Definition ends_early (id statement : string) : bool :=
  existsb (ends id) (removelast (JS.split statement)).

(** Every stored session document carries the id it is stored under, as
    [createSession] and [updateSession] write it. *)
Definition store_consistent (w : World) : Prop :=
  forall sid data, sessions w !! sid = Some data -> session_id data = sid.

(** The ids of a list of tags in first-seen order, those already [seen]
    apart. *)
Fixpoint first_seen (seen : gset string) (tags : list string) : list string :=
  match tags with
  | [] => []
  | t :: tags' =>
      if bool_decide (t ∈ seen) then first_seen seen tags'
      else t :: first_seen ({[t]} ∪ seen) tags'
  end.

(** The three lines of a block whose statement is one line. *)
Definition blockLines (pattern : InstrumentationPattern)
    (markerId label : string) (expression : option string) (indent : string)
    : list string :=
  [ indent +:+ start_marker pattern markerId;
    indent +:+ renderLogLine pattern markerId label expression;
    indent +:+ end_marker pattern markerId ].

(** [s.includes(pat)] *)
Definition includes (pat s : string) : bool :=
  bool_decide (is_Some (JS.find_first pat s)).

(** The longest prefix of a list whose elements pass a test. *)
Fixpoint take_while {A} (p : A -> bool) (l : list A) : list A :=
  match l with
  | [] => []
  | x :: l' => if p x then x :: take_while p l' else []
  end.

(** ** Sample inputs *)

Definition sample_env (random36 : string) : Env :=
  {| cwd := "/p"; random36 := random36; now := "t" |}.

(** Two texts of the random source, as V8 prints the doubles
    6305039478318694 / 2^53 and 900719925474099 / 2^53; their ids are
    p7777777 and 3lllllll. *)
Definition random_A : string := "0.p777777777".
Definition random_B : string := "0.3lllllllllj".

Definition sample_world (text : string) : World :=
  {| files := {[ "/p/a.js" := text ]}; sessions := ∅ |}.

Definition sample_marker (id : string) : Marker.t :=
  {| Marker.id := id; Marker.file_path := "/p/a.js";
     Marker.line_start := 2; Marker.line_end := 4;
     Marker.label := "checkpoint"; Marker.expression := None;
     Marker.created_at := "t" |}.

Definition sample_session (ms : list Marker.t) : SessionData :=
  {| session_id := "s"; project_dir := "/p"; directory := "/p";
     created_at := "t"; markers := ms; logs := []; rca_history := [];
     processes := Some [] |}.

Definition stack_frame : string := "    at f (a.js:1:1)".

(** a.js with the block of [id] after its second line, and the session that
    records it. *)
Definition instrumented_world (id : string) : World :=
  {| files :=
       {[ "/p/a.js" :=
            insertBlock JS_TS_PATTERN id "checkpoint" None 2
              (JS.join ["l1"; "  l2"; "l3"]) ]};
     sessions := {[ "s" := sample_session [sample_marker id] ]} |}.

(** A session with three markers and no file. *)
Definition three_marker_world : World :=
  {| files := ∅;
     sessions :=
       {[ "s" := sample_session [ sample_marker "p7777777";
                                  sample_marker "3lllllll";
                                  sample_marker "k2j5xq0a" ] ]} |}.


(** * Further code of the same files *)

(** ** Vocabulary of the further properties *)

(** A text without the characters that [replace] and the templates give a
    meaning to: the dollar sign and the opening brace. *)
Definition plain (s : string) : bool :=
  JS.all_chars (fun c => negb (Ascii.eqb c "$") && negb (Ascii.eqb c "{")) s.

(** What a scan reports as a block, read in the lines of the file: a start
    marker line of the id, then lines that are no start marker line and no
    end marker line of the id, then an end marker line of the id. *)
Definition is_block_of (lines : list string) (b : Block) : Prop :=
  exists pre s body e post,
    lines = pre ++ s :: body ++ e :: post
    /\ startLine b = (length pre + 1)%nat
    /\ endLine b = (length pre + length body + 2)%nat
    /\ starts (markerId b) s = true
    /\ Forall (fun l => isStartMarker l = false /\ ends (markerId b) l = false) body
    /\ isStartMarker e = false /\ ends (markerId b) e = true
    /\ content b
       = JS.join (s :: filter (fun l => isEndMarker l = false) body ++ [e]).

(** The block left open after the lines [done]. *)
Definition is_open_in (done : list string) (c : OpenBlock) : Prop :=
  exists pre s body,
    done = pre ++ s :: body
    /\ open_startLine c = (length pre + 1)%nat
    /\ starts (open_markerId c) s = true
    /\ Forall (fun l => isStartMarker l = false /\ ends (open_markerId c) l = false)
              body
    /\ open_lines c = s :: filter (fun l => isEndMarker l = false) body.

(** Blocks in the order of the file, each ending before the next starts. *)
Fixpoint in_file_order (bs : list Block) : Prop :=
  match bs with
  | [] => True
  | b :: bs' =>
      Forall (fun b' => (endLine b < startLine b')%nat) bs' /\ in_file_order bs'
  end.

(** The state of the scan after the lines [done]. *)
Definition scan_inv (done : list string) (st : option OpenBlock * list Block)
    : Prop :=
  Forall (is_block_of done) (snd st)
  /\ in_file_order (snd st)
  /\ match fst st with
     | Some c => is_open_in done c
                 /\ Forall (fun b => (endLine b < open_startLine c)%nat) (snd st)
     | None => True
     end.

(** ** A [Map] with string keys

    A JavaScript [Map] keeps its keys in the order of their first
    insertion: an association list with one entry per key. *)

Definition map_get {A} (key : string) (m : list (string * A)) : option A :=
  snd <$> List.find (fun entry => bool_decide (fst entry = key)) m.

Fixpoint map_set {A} (key : string) (value : A) (m : list (string * A))
    : list (string * A) :=
  match m with
  | [] => [(key, value)]
  | (k, v) :: rest =>
      if bool_decide (k = key) then (k, value) :: rest
      else (k, v) :: map_set key value rest
  end.

(** [const existing = m.get(key) || []; existing.push(item);
    m.set(key, existing)] *)
Definition map_push {A} (key : string) (item : A) (m : list (string * list A))
    : list (string * list A) :=
  let existing := default [] (map_get key m) in
  map_set key (existing ++ [item]) m.

(** ** Removing every block of a session (tools/instrumentation.ts) *)

(** The loop that fills [fileMap], from a file path to the markers of that
    file. *)
Definition group_by_file (markers : list Marker.t)
    : list (string * list Marker.t) :=
  foldl (fun fileMap m => map_push (Marker.file_path m) m fileMap) [] markers.

(** What can go wrong in the [try] of the loop, on a file that exists:
    [readFile] rejects, and the file is left as it was; or [writeFile]
    rejects, and the file holds what the failed write left of it,
    [remains].  [err] is the error as the template string prints it. *)
Inductive CleanFault :=
| ReadFailed (err : string)
| WriteFailed (err remains : string).

(** One turn of the loop over [fileMap].  [fault] tells what, if anything,
    goes wrong when the file of a path is read and written. *)
Definition clean_step (fault : string -> option CleanFault)
    (st : World * nat * list string) (entry : string * list Marker.t)
    : World * nat * list string :=
  let '(w, removed, errors) := st in
  let '(filePath, fileMarkers) := entry in
  if negb (existsSync filePath w) then
    (w, removed, errors ++ ["File not found: " +:+ filePath])
  else
    let failed err :=
      errors ++ ["Failed to clean " +:+ filePath +:+ ": " +:+ err] in
    match fault filePath with
    | Some (ReadFailed err) => (w, removed, failed err)
    | Some (WriteFailed err remains) => (writeFile filePath remains w, removed, failed err)
    | None =>
        let content := default EmptyString (files w !! filePath) in
        let newContent := removeAllInstrumentationBlocks content in
        (writeFile filePath newContent w, (removed + length fileMarkers)%nat,
         errors)
    end.

Inductive RemoveAllResult :=
| RemoveAllNothing (session_id : string)
| RemovedAll (removed fileCount : nat) (errors : list string)
| RemoveAllThrew (message : string).

Definition removeAll_message (r : RemoveAllResult) : string :=
  match r with
  | RemoveAllNothing session_id =>
      "No markers to remove in session `" +:+ session_id +:+ "`"
  | RemovedAll removed fileCount errors =>
      let output :=
        "Removed " +:+ show_Z (Z.of_nat removed) +:+ " markers from "
          +:+ show_Z (Z.of_nat fileCount) +:+ " file(s)" in
      if bool_decide (0 < length errors)%nat then
        output +:+ String JS.nl (String JS.nl "Warnings:") +:+ String JS.nl
          (JS.join (map (fun e => "- " +:+ e) errors))
      else output
  | RemoveAllThrew message => message
  end.

Definition removeAllInstrumentationTool (fault : string -> option CleanFault)
    (session_id : string) (w : World) : RemoveAllResult * World :=
  let markers := getMarkers session_id w in
  if bool_decide (length markers = 0%nat) then (RemoveAllNothing session_id, w)
  else
    let fileMap := group_by_file markers in
    let '(w, removed, errors) :=
      foldl (clean_step fault) (w, 0%nat, []) fileMap in
    match clearMarkers session_id w with
    | Some w' => (RemovedAll removed (length fileMap) errors, w')
    | None => (RemoveAllThrew ("Session not found: " +:+ session_id), w)
    end.

(** The file is read and written without a fault. *)
Definition no_fault (fault : string -> option CleanFault) (path : string) : bool :=
  match fault path with
  | None => true
  | Some _ => false
  end.

(** The text the loop leaves in a file that exists and held [content]. *)
Definition cleaned_text (fault : string -> option CleanFault)
    (path content : string) : string :=
  match fault path with
  | None => removeAllInstrumentationBlocks content
  | Some (ReadFailed _) => content
  | Some (WriteFailed _ remains) => remains
  end.

(** The warning of the loop about a file, if it has one. *)
Definition clean_warning (fault : string -> option CleanFault) (w : World)
    (path : string) : option string :=
  if negb (existsSync path w) then Some ("File not found: " +:+ path)
  else
    match fault path with
    | Some (ReadFailed err) | Some (WriteFailed err _) =>
        Some ("Failed to clean " +:+ path +:+ ": " +:+ err)
    | None => None
    end.

(** The number of markers the map holds for the files that pass [present]. *)
Definition recorded_in (present : string -> bool)
    (fileMap : list (string * list Marker.t)) : nat :=
  foldr (fun entry n => if present (fst entry) then (length (snd entry) + n)%nat else n)
        0%nat fileMap.

(** ** Grouping and counting matches (log-patterns.ts) *)

Definition groupByMarker (matches : list LogMatch.t)
    : list (string * list LogMatch.t) :=
  foldl (fun groups m =>
           match LogMatch.marker_id m with
           | Some id => if JS.truthy id then map_push id m groups else groups
           | None => groups
           end)
        [] matches.

(** [set.add(x)] on a [Set], which keeps its elements in the order of their
    first insertion. *)
Definition set_add (x : string) (s : list string) : list string :=
  if bool_decide (x ∈ s) then s else s ++ [x].

Module Summary.
Record t := {
  total : nat;
  errors : nat;
  warnings : nat;
  debug_markers : nat;
  marker_ids : list string;
}.
End Summary.

(** One turn of the loop of [summarizeLogAnalysis], on the set and the three
    counters. *)
Definition summarize_step (acc : list string * nat * nat * nat)
    (m : LogMatch.t) : list string * nat * nat * nat :=
  let '(markerIds, errors, warnings, debugMarkers) := acc in
  match LogMatch.type m with
  | error => (markerIds, S errors, warnings, debugMarkers)
  | warning => (markerIds, errors, S warnings, debugMarkers)
  | debug_helper =>
      (match LogMatch.marker_id m with
       | Some id => if JS.truthy id then set_add id markerIds else markerIds
       | None => markerIds
       end,
       errors, warnings, S debugMarkers)
  | info | debug => acc
  end.

Definition summarizeLogAnalysis (matches : list LogMatch.t) : Summary.t :=
  let '(markerIds, errors, warnings, debugMarkers) :=
    foldl summarize_step ([], 0%nat, 0%nat, 0%nat) matches in
  {| Summary.total := length matches;
     Summary.errors := errors;
     Summary.warnings := warnings;
     Summary.debug_markers := debugMarkers;
     Summary.marker_ids := markerIds |}.

(** The lines [parseLogContent] reports: those with a marker tag or a match
    in one of the two tables. *)
Definition notable (ERROR_PATTERNS WARNING_PATTERNS : list (string -> bool))
    (l : string) : bool :=
  bool_decide (is_Some (extractMarkerId l))
  || existsb (fun pattern => pattern l) ERROR_PATTERNS
  || existsb (fun pattern => pattern l) WARNING_PATTERNS.

(** What [parseLogContent] makes of a notable line. *)
Definition classify (ERROR_PATTERNS WARNING_PATTERNS : list (string -> bool))
    (l : string) : LogType :=
  if bool_decide (is_Some (extractMarkerId l)) then debug_helper
  else if existsb (fun pattern => pattern l) ERROR_PATTERNS then error
  else warning.

(** ** More sample inputs *)

Definition gone_marker : Marker.t :=
  {| Marker.id := "3lllllll"; Marker.file_path := "/p/gone.js";
     Marker.line_start := 2; Marker.line_end := 4;
     Marker.label := "checkpoint"; Marker.expression := None;
     Marker.created_at := "t" |}.

(** a.js with a block that no session records, and a session whose records
    name a.js and a file that is gone. *)
Definition cleanup_world : World :=
  {| files :=
       {[ "/p/a.js" :=
            insertBlock JS_TS_PATTERN "zz9" "other" None 1 (JS.join ["l1"; "l2"]) ]};
     sessions :=
       {[ "s" := sample_session [sample_marker "p7777777"; gone_marker] ]} |}.

Definition locked_marker : Marker.t :=
  {| Marker.id := "k2k2k2k2"; Marker.file_path := "/p/locked.js";
     Marker.line_start := 1; Marker.line_end := 3;
     Marker.label := "checkpoint"; Marker.expression := None;
     Marker.created_at := "t" |}.

(** [cleanup_world] with a third record, for a file that exists and holds a
    block. *)
Definition locked_world : World :=
  {| files :=
       {[ "/p/a.js" :=
            insertBlock JS_TS_PATTERN "zz9" "other" None 1 (JS.join ["l1"; "l2"]);
          "/p/locked.js" :=
            insertBlock JS_TS_PATTERN "k2k2k2k2" "checkpoint" None 0 "l1" ]};
     sessions :=
       {[ "s" := sample_session
                   [sample_marker "p7777777"; gone_marker; locked_marker;
                    sample_marker "zz9"] ]} |}.

(** Reading locked.js is refused; every other file is read and written. *)
Definition locked_fault (path : string) : option CleanFault :=
  if bool_decide (path = "/p/locked.js")
  then Some (ReadFailed "Error: EACCES: permission denied, open '/p/locked.js'")
  else None.

(** Numbers in strictly increasing order. *)
Fixpoint increasing (ns : list nat) : Prop :=
  match ns with
  | [] => True
  | n :: ns' => Forall (fun k => (n < k)%nat) ns' /\ increasing ns'
  end.

(** ** More of the session store (persistence.ts) *)

(** The store keeps the document of a session in the file
    [join(BASE_DIR, id, "session.json")].  The map [sessions] stands for the
    store as long as every id is the name of one directory entry: not empty,
    of at most 255 characters, all among [a-z], [0-9], [-] and [_].  [join]
    leaves such an id as it is, so that different ids are different
    directories of a POSIX file system, none inside another, whether or not
    the file system tells upper case from lower.  Other ids are joined to
    paths that meet: [s/] and [x/../s] are the directory of [s], and the
    empty id is [BASE_DIR] itself. *)
Definition is_name_char (c : ascii) : bool :=
  JS.is_id_char c || Ascii.eqb c "-" || Ascii.eqb c "_".

Definition entry_name (id : string) : bool :=
  JS.truthy id && (JS.strlen id <=? 255)%nat && JS.all_chars is_name_char id.

(** [Partial<SessionData>]: the fields an update gives. *)
Record SessionUpdates := {
  u_session_id : option string;
  u_project_dir : option string;
  u_directory : option string;
  u_created_at : option string;
  u_markers : option (list Marker.t);
  u_logs : option (list LogEntry.t);
  u_rca_history : option (list RCAEntry.t);
  u_processes : option (list ProcessEntry.t);
}.

(** [{ ...data, ...updates, session_id: sessionId }] *)
Definition apply_updates (data : SessionData) (updates : SessionUpdates)
    (sessionId : string) : SessionData :=
  {| session_id := sessionId;
     project_dir := default (project_dir data) (u_project_dir updates);
     directory := default (directory data) (u_directory updates);
     created_at := default (created_at data) (u_created_at updates);
     markers := default (markers data) (u_markers updates);
     logs := default (logs data) (u_logs updates);
     rca_history := default (rca_history data) (u_rca_history updates);
     processes := match u_processes updates with
                  | Some ps => Some ps
                  | None => processes data
                  end |}.

(** [updateSession] throws when the session is missing: [None]. *)
Definition updateSession (sessionId : string) (updates : SessionUpdates)
    (w : World) : option World :=
  match loadSession sessionId w with
  | None => None
  | Some data => Some (saveSession (apply_updates data updates sessionId) w)
  end.

(** [deleteSession] removes the directory of the session, with its
    document: for an id naming a directory entry, the directory of that
    session and of no other. *)
Definition deleteSession (sessionId : string) (w : World) : World :=
  {| files := files w; sessions := delete sessionId (sessions w) |}.

Definition set_logs (data : SessionData) (ls : list LogEntry.t) : SessionData :=
  {| session_id := session_id data; project_dir := project_dir data;
     directory := directory data; created_at := created_at data;
     markers := markers data; logs := ls; rca_history := rca_history data;
     processes := processes data |}.

Definition set_rca_history (data : SessionData) (rs : list RCAEntry.t)
    : SessionData :=
  {| session_id := session_id data; project_dir := project_dir data;
     directory := directory data; created_at := created_at data;
     markers := markers data; logs := logs data; rca_history := rs;
     processes := processes data |}.

Definition addLog (sessionId : string) (entry : LogEntry.t) (w : World)
    : option World :=
  match loadSession sessionId w with
  | None => None
  | Some data => Some (saveSession (set_logs data (logs data ++ [entry])) w)
  end.

Definition getLogs (sessionId : string) (w : World) : list LogEntry.t :=
  match loadSession sessionId w with
  | Some data => logs data
  | None => []
  end.

Definition clearLogs (sessionId : string) (w : World) : option World :=
  match loadSession sessionId w with
  | None => None
  | Some data => Some (saveSession (set_logs data []) w)
  end.

Definition addRCAEntry (sessionId : string) (entry : RCAEntry.t) (w : World)
    : option World :=
  match loadSession sessionId w with
  | None => None
  | Some data =>
      Some (saveSession (set_rca_history data (rca_history data ++ [entry])) w)
  end.

Definition getRCAHistory (sessionId : string) (w : World) : list RCAEntry.t :=
  match loadSession sessionId w with
  | Some data => rca_history data
  | None => []
  end.

(** The three lists of a session, as their accessors return them. *)
Definition lists_of (sessionId : string) (w : World)
    : list Marker.t * list LogEntry.t * list RCAEntry.t :=
  (getMarkers sessionId w, getLogs sessionId w, getRCAHistory sessionId w).

(** A step leaves the files and every session but [sessionId] as they were;
    the sessions are those of the ids naming a directory entry. *)
Definition only_touches (sessionId : string) (w w' : World) : Prop :=
  files w' = files w
  /\ forall other, entry_name other = true -> other <> sessionId ->
       loadSession other w' = loadSession other w.

(** ** Process runner (tools/process-runner.ts) *)

Definition MAX_OUTPUT_LINES : nat := 500.

Definition getProcessKey (sessionId name : string) : string :=
  sessionId +:+ ":" +:+ name.

(** [s.startsWith(p)] *)
Definition startsWith (p s : string) : bool :=
  bool_decide (is_Some (JS.strip_prefix p s)).

Inductive Stream := stdout | stderr.

Definition stream_name (stream : Stream) : string :=
  match stream with stdout => "stdout" | stderr => "stderr" end.

(** [buffer.push(entry); if (buffer.length > MAX_OUTPUT_LINES) buffer.shift()] *)
Definition push_capped (buffer : list string) (entry : string) : list string :=
  let buffer := buffer ++ [entry] in
  if (MAX_OUTPUT_LINES <? length buffer)%nat then tail buffer else buffer.

(** The handler of the two output streams, on the text of a chunk. *)
Definition appendOutput (data : string) (stream : Stream) (buffer : list string)
    : list string :=
  let lines := filter (fun l => (0 < JS.strlen l)%nat) (JS.split data) in
  foldl (fun buffer line =>
           push_capped buffer ("[" +:+ stream_name stream +:+ "] " +:+ line))
        buffer lines.

(** [s.toLowerCase()] on code units below 256: the letters A to Z and the
    capital letters of Latin-1. *)
Definition lower_char (c : ascii) : ascii :=
  let n := nat_of_ascii c in
  if ((65 <=? n) && (n <=? 90) || (192 <=? n) && (n <=? 214)
      || (216 <=? n) && (n <=? 222))%nat
  then ascii_of_nat (n + 32) else c.

Fixpoint toLowerCase (s : string) : string :=
  match s with
  | EmptyString => EmptyString
  | String c s' => String (lower_char c) (toLowerCase s')
  end.

(** [array.slice(start)] for an integer [start]: a negative start counts
    from the end. *)
Definition slice_from {A} (start : Z) (l : list A) : list A :=
  let len := Z.of_nat (length l) in
  let k := if start <? 0 then Z.max (len + start) 0 else Z.min start len in
  drop (Z.to_nat k) l.

(** The lines [captureOutputTool] shows: [lines] is 50 when not given. *)
Definition recentLines (buffer : list string) (lines : option Z)
    (filter_text : option string) : list string :=
  let lines := default 50 lines in
  let output :=
    match filter_text with
    | Some f =>
        if JS.truthy f then
          filter (fun line => includes (toLowerCase f) (toLowerCase line) = true)
                 buffer
        else buffer
    | None => buffer
    end in
  let requestedLines := Z.min lines (Z.of_nat MAX_OUTPUT_LINES) in
  slice_from (- requestedLines) output.

(** The last [n] elements of a list. *)
Definition last_n {A} (n : nat) (l : list A) : list A :=
  drop (length l - n) l.

Definition no_colon (s : string) : bool :=
  JS.all_chars (fun c => negb (Ascii.eqb c ":")) s.

Module ProcessInfo.
Record t := {
  name : string;
  command : string;
  args : list string;
  cwd : string;
  pid : Z;
  startedAt : string;
  outputBuffer : list string;
}.
End ProcessInfo.

(** The state of the module: the [info] objects of the children spawned so
    far, each under a handle (its index), and [runningProcesses], the map
    from a key to the handle of the child registered under it.  The
    handlers of a child hold on to its [info] and its key whether or not the
    child is still registered. *)
Record Runner := {
  infos : list ProcessInfo.t;
  running : list (string * nat);
}.

(** [m.delete(key)] *)
Definition map_delete {A} (key : string) (m : list (string * A))
    : list (string * A) :=
  filter (fun entry => fst entry ≠ key) m.

Definition no_info : ProcessInfo.t :=
  {| ProcessInfo.name := EmptyString; ProcessInfo.command := EmptyString;
     ProcessInfo.args := []; ProcessInfo.cwd := EmptyString;
     ProcessInfo.pid := 0; ProcessInfo.startedAt := EmptyString;
     ProcessInfo.outputBuffer := [] |}.

Definition info_of (r : Runner) (handle : nat) : ProcessInfo.t :=
  default no_info (infos r !! handle).

Definition set_buffer (info : ProcessInfo.t) (buffer : list string)
    : ProcessInfo.t :=
  {| ProcessInfo.name := ProcessInfo.name info;
     ProcessInfo.command := ProcessInfo.command info;
     ProcessInfo.args := ProcessInfo.args info;
     ProcessInfo.cwd := ProcessInfo.cwd info;
     ProcessInfo.pid := ProcessInfo.pid info;
     ProcessInfo.startedAt := ProcessInfo.startedAt info;
     ProcessInfo.outputBuffer := buffer |}.

(** A chunk of output of the child [handle]. *)
Definition on_output (handle : nat) (data : string) (stream : Stream)
    (r : Runner) : Runner :=
  {| infos :=
       alter (fun info =>
                set_buffer info
                  (appendOutput data stream (ProcessInfo.outputBuffer info)))
             handle (infos r);
     running := running r |}.

(** The text of [${x}] for a value that is a number or null, and for one that
    is a string or null. *)
Definition show_code (code : option Z) : string :=
  match code with Some n => show_Z n | None => "null" end.
Definition show_signal (signal : option string) : string :=
  default "null" signal.

(** The exit of the child [handle], whose handler was made for [key]. *)
Definition on_exit (handle : nat) (key : string) (code : option Z)
    (signal : option string) (r : Runner) : Runner :=
  {| infos :=
       alter (fun info =>
                set_buffer info
                  (ProcessInfo.outputBuffer info
                     ++ ["[system] Process exited with code " +:+ show_code code
                           +:+ ", signal " +:+ show_signal signal]))
             handle (infos r);
     running := map_delete key (running r) |}.

(** An error of the child [handle]. *)
Definition on_error (handle : nat) (key : string) (message : string)
    (r : Runner) : Runner :=
  {| infos :=
       alter (fun info =>
                set_buffer info
                  (ProcessInfo.outputBuffer info
                     ++ ["[system] Process error: " +:+ message]))
             handle (infos r);
     running := map_delete key (running r) |}.

(** [a || b] on an optional string and a string. *)
Definition or_else (a : option string) (b : string) : string :=
  match a with
  | Some s => if JS.truthy s then s else b
  | None => b
  end.

(** [{ ...session, processes }] as an update. *)
Definition with_processes (session : SessionData) (ps : list ProcessEntry.t)
    : SessionUpdates :=
  {| u_session_id := Some (session_id session);
     u_project_dir := Some (project_dir session);
     u_directory := Some (directory session);
     u_created_at := Some (created_at session);
     u_markers := Some (markers session);
     u_logs := Some (logs session);
     u_rca_history := Some (rca_history session);
     u_processes := Some ps |}.

(** [process.cwd()] *)
Definition process_cwd (env : Env) : string := cwd env.

Inductive StartResult :=
| StartAlreadyRunning (name : string) (pid : Z)
| StartFailed (name command : string) (args : list string)
| Started (name : string) (pid : Z) (command : string) (args : list string)
    (workDir : string)
| StartThrew (message : string).

(** [spawned] is the [pid] of the child that [spawn] returns, if any. *)
Definition startProcessTool (env : Env) (spawned : option Z)
    (session_id name command : string) (args : option (list string))
    (cwd : option string) (st : World * Runner) : StartResult * (World * Runner) :=
  let '(w, r) := st in
  let args := default [] args in
  let key := getProcessKey session_id name in
  match map_get key (running r) with
  | Some existing =>
      (StartAlreadyRunning name (ProcessInfo.pid (info_of r existing)), st)
  | None =>
      let '(session, w) :=
        match loadSession session_id w with
        | Some session => (session, w)
        | None => createSession session_id (or_else cwd (process_cwd env)) (now env) w
        end in
      let workDir := or_else cwd (directory session) in
      match spawned with
      | Some pid =>
          if pid =? 0 then (StartFailed name command args, (w, r))
          else
            let info :=
              {| ProcessInfo.name := name; ProcessInfo.command := command;
                 ProcessInfo.args := args; ProcessInfo.cwd := workDir;
                 ProcessInfo.pid := pid; ProcessInfo.startedAt := now env;
                 ProcessInfo.outputBuffer := [] |} in
            let r := {| infos := infos r ++ [info];
                        running := map_set key (length (infos r)) (running r) |} in
            let entry := {| ProcessEntry.name := name; ProcessEntry.pid := pid;
                            ProcessEntry.startedAt := now env |} in
            match updateSession session_id
                    (with_processes session
                       (default [] (processes session) ++ [entry])) w with
            | Some w => (Started name pid command args workDir, (w, r))
            | None => (StartThrew ("Session not found: " +:+ session_id), (w, r))
            end
      | None => (StartFailed name command args, (w, r))
      end
  end.

Inductive StopResult :=
| StopNoProcess (name session_id : string)
| StopMayHaveExited (name : string) (pid : Z)
| Stopped (name : string) (pid : Z) (signal : string)
| StopThrew (message : string).

(** [killed] is what [child.kill(signal)] returns. *)
Definition stopProcessTool (killed : bool) (session_id name : string)
    (signal : option string) (st : World * Runner) : StopResult * (World * Runner) :=
  let '(w, r) := st in
  let signal := default "SIGTERM" signal in
  let key := getProcessKey session_id name in
  match map_get key (running r) with
  | None => (StopNoProcess name session_id, st)
  | Some handle =>
      let pid := ProcessInfo.pid (info_of r handle) in
      if negb killed then (StopMayHaveExited name pid, st)
      else
        let r := {| infos := infos r; running := map_delete key (running r) |} in
        match loadSession session_id w with
        | Some session =>
            match updateSession session_id
                    (with_processes session
                       (filter (fun p => ProcessEntry.name p ≠ name)
                               (default [] (processes session)))) w with
            | Some w => (Stopped name pid signal, (w, r))
            | None =>
                (StopThrew ("Error stopping process '" +:+ name
                              +:+ "': Error: Session not found: " +:+ session_id),
                 (w, r))
            end
        | None => (Stopped name pid signal, (w, r))
        end
  end.

Inductive CaptureResult :=
| CaptureNoProcess (name session_id : string)
| CaptureNothing (filter_text : option string) (name : string)
| Captured (name : string) (pid : Z) (shown : list string)
    (filter_text : option string).

Definition captureOutputTool (session_id name : string) (lines : option Z)
    (filter_text : option string) (r : Runner) : CaptureResult :=
  let key := getProcessKey session_id name in
  match map_get key (running r) with
  | None => CaptureNoProcess name session_id
  | Some handle =>
      let info := info_of r handle in
      let shown := recentLines (ProcessInfo.outputBuffer info) lines filter_text in
      if bool_decide (length shown = 0%nat) then CaptureNothing filter_text name
      else Captured name (ProcessInfo.pid info) shown filter_text
  end.

(** A runner with nothing spawned. *)
Definition idle : Runner := {| infos := []; running := [] |}.

(** The processes a session lists. *)
Definition process_list (sessionId : string) (w : World) : list ProcessEntry.t :=
  match loadSession sessionId w with
  | Some data => default [] (processes data)
  | None => []
  end.

(** ** Reading a value from a line (log-patterns.ts)

    [extractDebugValue] matches a tag, white space, a label [[^:]+], a colon,
    white space and a value [.+].  The class of the label cannot cross a
    colon, so the colon of the pattern is the first one after the tag; the
    two greedy runs of white space give characters back only when the group
    after them would otherwise be empty. *)

(** The text before the first colon, and the text after it. *)
Fixpoint split_colon (s : string) : option (string * string) :=
  match s with
  | EmptyString => None
  | String c s' =>
      if Ascii.eqb c ":" then Some (EmptyString, s')
      else match split_colon s' with
           | Some (before, after) => Some (String c before, after)
           | None => None
           end
  end.

(** What the dot of a regular expression does not match, on code units
    below 256: line feed and carriage return. *)
Definition is_line_terminator (c : ascii) : bool :=
  Ascii.eqb c "010" || Ascii.eqb c "013".

(** The last character of a string that passes a test. *)
Fixpoint last_where (p : ascii -> bool) (s : string) : option ascii :=
  match s with
  | EmptyString => None
  | String c s' =>
      match last_where p s' with
      | Some d => Some d
      | None => if p c then Some c else None
      end
  end.

(** Group 2, in the text between the tag and the colon: what follows the
    leading white space; when nothing does, the white space gives back its
    last character. *)
Definition label_group (before : string) : option string :=
  match JS.span JS.is_space before with
  | (_, String c rest) => Some (String c rest)
  | (spaces, EmptyString) =>
      match last_where (fun _ => true) spaces with
      | Some c => Some (String c EmptyString)
      | None => None
      end
  end.

(** Group 3, in the text after the colon: from the first character that is
    no white space to the end of its line; when there is none, the white
    space gives back characters down to its last one that the dot
    matches. *)
Definition value_group (rest : string) : option string :=
  match JS.span JS.is_space rest with
  | (_, String c more) =>
      Some (fst (JS.span (fun d => negb (is_line_terminator d)) (String c more)))
  | (spaces, EmptyString) =>
      match last_where (fun d => negb (is_line_terminator d)) spaces with
      | Some c => Some (String c EmptyString)
      | None => None
      end
  end.

(** [s.trim()] *)
Fixpoint trim_end (s : string) : string :=
  match s with
  | EmptyString => EmptyString
  | String c s' =>
      match trim_end s' with
      | EmptyString => if JS.is_space c then EmptyString else String c EmptyString
      | t => String c t
      end
  end.

Definition trim (s : string) : string :=
  trim_end (snd (JS.span JS.is_space s)).

Module DebugValue.
Record t := { markerId : string; label : string; value : string }.
End DebugValue.

(** The rest of the pattern, after a tag. *)
Definition debug_value_after (id after : string) : option DebugValue.t :=
  match split_colon after with
  | Some (before, rest) =>
      match label_group before, value_group rest with
      | Some group2, Some group3 =>
          Some {| DebugValue.markerId := id; DebugValue.label := trim group2;
                  DebugValue.value := trim group3 |}
      | _, _ => None
      end
  | None => None
  end.

(** The leftmost position at which the whole pattern matches. *)
Fixpoint extractDebugValue (line : string) : option DebugValue.t :=
  match match match_tag line with
        | Some (id, after) => debug_value_after id after
        | None => None
        end with
  | Some found => Some found
  | None =>
      match line with
      | EmptyString => None
      | String _ line' => extractDebugValue line'
      end
  end.

(** A text that starts and ends with a character that is no white space. *)
Definition trimmed (s : string) : bool :=
  match s with
  | EmptyString => false
  | String c _ =>
      negb (JS.is_space c)
      && match last_where (fun _ => true) s with
         | Some d => negb (JS.is_space d)
         | None => false
         end
  end.

(** The line a statement of the four patterns prints for a value. *)
Definition printed_line (id label value : string) : string :=
  "[" +:+ id +:+ "] " +:+ label +:+ ": " +:+ value.


(** * Properties *)

Local Arguments String.append !_ _ / : simpl nomatch.

(** ** Strings, lines and joins *)

Lemma str_app_nil_r s : s +:+ EmptyString = s.
Proof. induction s; simpl; congruence. Qed.

Lemma str_app_assoc s t u : (s +:+ t) +:+ u = s +:+ (t +:+ u).
Proof. induction s; simpl; congruence. Qed.

Lemma strlen_app s t :
  JS.strlen (s +:+ t) = (JS.strlen s + JS.strlen t)%nat.
Proof. unfold JS.strlen. induction s; simpl; congruence. Qed.

Lemma all_chars_app p s t :
  JS.all_chars p (s +:+ t) = JS.all_chars p s && JS.all_chars p t.
Proof. induction s; simpl; [done|]. rewrite IHs. by rewrite andb_assoc. Qed.

Lemma all_chars_impl (p q : ascii -> bool) s :
  (forall c, p c = true -> q c = true) ->
  JS.all_chars p s = true -> JS.all_chars q s = true.
Proof.
  intros Hpq. induction s; simpl; [done|].
  rewrite !andb_true_iff. intros [? ?]. split; auto.
Qed.

Lemma split_not_nil s : JS.split s <> [].
Proof.
  induction s as [|c s IH]; simpl; [done|].
  destruct (Ascii.eqb c JS.nl); [done|]. by destruct (JS.split s).
Qed.

Lemma split_single_line s : single_line s = true -> JS.split s = [s].
Proof.
  unfold single_line. induction s as [|c s IH]; simpl; [done|].
  rewrite andb_true_iff, negb_true_iff. intros [-> Hs]. by rewrite IH.
Qed.

Lemma split_app_nl a b :
  JS.split (a +:+ String JS.nl b) = JS.split a ++ JS.split b.
Proof.
  induction a as [|c a IH]; simpl.
  - done.
  - rewrite IH. destruct (Ascii.eqb c JS.nl); [done|].
    pose proof (split_not_nil a). by destruct (JS.split a).
Qed.

Lemma split_lines_single s : Forall (fun l => single_line l = true) (JS.split s).
Proof.
  unfold single_line. induction s as [|c s IH]; simpl.
  - by repeat constructor.
  - destruct (Ascii.eqb c JS.nl) eqn:Hc.
    + by constructor.
    + destruct (JS.split s) as [|l ls]; [by repeat constructor; simpl; rewrite Hc|].
      inversion IH; subst. constructor; [|done]. simpl. by rewrite Hc.
Qed.

Lemma join_cons l ls :
  ls <> [] -> JS.join (l :: ls) = l +:+ String JS.nl (JS.join ls).
Proof. by destruct ls. Qed.

Lemma join_split s : JS.join (JS.split s) = s.
Proof.
  induction s as [|c s IH]; simpl; [done|].
  destruct (Ascii.eqb c JS.nl) eqn:Hc.
  - apply Ascii.eqb_eq in Hc as ->.
    rewrite join_cons by apply split_not_nil. simpl. by rewrite IH.
  - pose proof (split_not_nil s).
    destruct (JS.split s) as [|l ls]; [done|].
    destruct ls; simpl in *; by rewrite <- IH.
Qed.

(** Splitting a join flattens the lines of every element. *)
Lemma split_join ls :
  ls <> [] -> JS.split (JS.join ls) = concat (map JS.split ls).
Proof.
  induction ls as [|l ls IH]; [done|]. intros _.
  destruct ls as [|l' ls].
  - simpl. by rewrite List.app_nil_r.
  - rewrite join_cons by done. rewrite split_app_nl, IH by done. done.
Qed.

Lemma concat_split_lines ls :
  Forall (fun l => single_line l = true) ls -> concat (map JS.split ls) = ls.
Proof.
  induction 1 as [|l ls Hl _ IH]; simpl; [done|].
  by rewrite split_single_line, IH.
Qed.

Lemma split_join_lines ls :
  ls <> [] -> Forall (fun l => single_line l = true) ls ->
  JS.split (JS.join ls) = ls.
Proof. intros. by rewrite split_join, concat_split_lines. Qed.

(** ** Marker lines *)

Lemma match_tag_no_bracket c s :
  Ascii.eqb c "[" = false -> match_tag (String c s) = None.
Proof.
  intros Hc. unfold match_tag. cbn [JS.strip_prefix].
  by rewrite (Ascii.eqb_sym "[" c), Hc.
Qed.

Lemma extract_skip p t :
  no_bracket p = true -> extractMarkerId (p +:+ t) = extractMarkerId t.
Proof.
  unfold no_bracket. induction p as [|c p IH]; [done|].
  simpl JS.all_chars. rewrite andb_true_iff, negb_true_iff. intros [Hc Hp].
  change (String c p +:+ t) with (String c (p +:+ t)).
  cbn [extractMarkerId]. rewrite match_tag_no_bracket by done. auto.
Qed.

Lemma test_tag_skip suffix p t :
  no_bracket p = true -> test_tag_then suffix (p +:+ t) = test_tag_then suffix t.
Proof.
  unfold no_bracket. induction p as [|c p IH]; [done|].
  simpl JS.all_chars. rewrite andb_true_iff, negb_true_iff. intros [Hc Hp].
  change (String c p +:+ t) with (String c (p +:+ t)).
  cbn [test_tag_then]. rewrite match_tag_no_bracket by done. simpl. auto.
Qed.

Lemma extract_no_bracket s : no_bracket s = true -> extractMarkerId s = None.
Proof.
  intros H. rewrite <- (str_app_nil_r s). rewrite extract_skip by done. done.
Qed.

Lemma test_tag_no_bracket suffix s :
  no_bracket s = true -> test_tag_then suffix s = false.
Proof.
  intros H. rewrite <- (str_app_nil_r s). rewrite test_tag_skip by done. done.
Qed.

Lemma span_id_chars id rest :
  JS.all_chars JS.is_id_char id = true ->
  JS.span JS.is_id_char (id +:+ String "]" rest) = (id, String "]" rest).
Proof.
  induction id as [|c id IH]; simpl; [done|].
  rewrite andb_true_iff. intros [-> Hid]. by rewrite IH.
Qed.

Lemma match_tag_here id rest :
  well_formed_id id = true ->
  match_tag ("[DEBUG-HELPER:" +:+ id +:+ String "]" rest) = Some (id, rest).
Proof.
  unfold well_formed_id. rewrite andb_true_iff. intros [Hne Hid].
  unfold match_tag. simpl. rewrite span_id_chars by done.
  by destruct id.
Qed.

Lemma id_chars_no_bracket id :
  JS.all_chars JS.is_id_char id = true -> no_bracket id = true.
Proof.
  apply all_chars_impl. intros c Hc.
  destruct (Ascii.eqb_spec c "[") as [->|]; [by vm_compute in Hc|done].
Qed.

Lemma id_chars_single_line id :
  JS.all_chars JS.is_id_char id = true -> single_line id = true.
Proof.
  apply all_chars_impl. intros c Hc.
  destruct (Ascii.eqb_spec c JS.nl) as [->|]; [by vm_compute in Hc|done].
Qed.

(** A tag line: [prefix], the tag of [id], [suffix]; neither the prefix nor
    the suffix holds a bracket. *)
Lemma tag_line_extract prefix id suffix :
  no_bracket prefix = true -> well_formed_id id = true ->
  extractMarkerId (prefix +:+ "[DEBUG-HELPER:" +:+ id +:+ String "]" suffix)
  = Some id.
Proof.
  intros Hp Hid. rewrite extract_skip by done.
  destruct ("[DEBUG-HELPER:" +:+ id +:+ String "]" suffix) eqn:E;
    cbn [extractMarkerId]; rewrite <- E, match_tag_here by done; done.
Qed.

Lemma tag_line_test want prefix id suffix :
  no_bracket prefix = true -> well_formed_id id = true ->
  no_bracket suffix = true ->
  test_tag_then want (prefix +:+ "[DEBUG-HELPER:" +:+ id +:+ String "]" suffix)
  = bool_decide (is_Some (JS.strip_prefix want suffix)).
Proof.
  intros Hp Hid Hs. rewrite test_tag_skip by done.
  change ("[DEBUG-HELPER:" +:+ id +:+ String "]" suffix)
    with (String "[" ("DEBUG-HELPER:" +:+ id +:+ String "]" suffix)).
  cbn [test_tag_then].
  change (String "[" ("DEBUG-HELPER:" +:+ id +:+ String "]" suffix))
    with ("[DEBUG-HELPER:" +:+ id +:+ String "]" suffix).
  rewrite match_tag_here by done.
  rewrite test_tag_no_bracket; [by rewrite orb_false_r|].
  unfold no_bracket in *. rewrite !all_chars_app. simpl.
  unfold well_formed_id in Hid. apply andb_true_iff in Hid as [_ Hid].
  apply id_chars_no_bracket in Hid. unfold no_bracket in Hid.
  by rewrite Hid, Hs.
Qed.

Lemma tagged_line want indent c id suffix :
  no_bracket indent = true -> no_bracket c = true ->
  well_formed_id id = true -> no_bracket suffix = true ->
  extractMarkerId (indent +:+ c +:+ "[DEBUG-HELPER:" +:+ id +:+ String "]" suffix)
    = Some id
  /\ test_tag_then want
       (indent +:+ c +:+ "[DEBUG-HELPER:" +:+ id +:+ String "]" suffix)
     = bool_decide (is_Some (JS.strip_prefix want suffix)).
Proof.
  intros Hi Hc Hid Hs. rewrite <- str_app_assoc.
  assert (no_bracket (indent +:+ c) = true) as Hp.
  { unfold no_bracket in *. by rewrite all_chars_app, Hi, Hc. }
  split; [by apply tag_line_extract | by apply tag_line_test].
Qed.

(** The four patterns share the shape of their marker lines. *)
Lemma pattern_marker_shape pattern :
  pattern ∈ ALL_PATTERNS ->
  exists c, no_bracket c = true /\ single_line c = true /\
    (forall id, start_marker pattern id
                = c +:+ "[DEBUG-HELPER:" +:+ id +:+ String "]" " START") /\
    (forall id, end_marker pattern id
                = c +:+ "[DEBUG-HELPER:" +:+ id +:+ String "]" " END").
Proof.
  unfold ALL_PATTERNS. rewrite !elem_of_cons, elem_of_nil.
  intros [->|[->|[->|[->|[]]]]];
    [exists "// " | exists "# " | exists "// " | exists "// "]; by repeat split.
Qed.

Lemma table_get_own key (pattern : InstrumentationPattern) :
  table_get key = Some (own_pattern pattern) <->
  PATTERNS_BY_EXTENSION !! key = Some pattern.
Proof.
  unfold table_get.
  destruct (PATTERNS_BY_EXTENSION !! key) as [p|]; [split; congruence|].
  case_bool_decide; split; congruence.
Qed.

Lemma getPatternForFile_known filePath (pattern : InstrumentationPattern) :
  getPatternForFile filePath = Some (own_pattern pattern) -> pattern ∈ ALL_PATTERNS.
Proof.
  unfold getPatternForFile. rewrite table_get_own.
  unfold PATTERNS_BY_EXTENSION, ALL_PATTERNS. cbn [foldl extensions JS_TS_PATTERN PYTHON_PATTERN RUST_PATTERN GO_PATTERN].
  generalize (JS.substring_from (JS.lastIndexOf "." filePath) filePath) as ext.
  intros ext H.
  repeat (apply lookup_insert_Some in H as [[_ <-]|[_ H]]; [set_solver|]).
  by rewrite lookup_empty in H.
Qed.

Lemma start_line_facts pattern indent id :
  pattern ∈ ALL_PATTERNS -> no_bracket indent = true ->
  well_formed_id id = true ->
  isStartMarker (indent +:+ start_marker pattern id) = true
  /\ isEndMarker (indent +:+ start_marker pattern id) = false
  /\ extractMarkerId (indent +:+ start_marker pattern id) = Some id.
Proof.
  intros (c & Hc & _ & -> & _)%pattern_marker_shape Hi Hid.
  unfold isStartMarker, isEndMarker.
  destruct (tagged_line " START" indent c id " START") as [-> ->]; try done.
  destruct (tagged_line " END" indent c id " START") as [_ ->]; done.
Qed.

Lemma end_line_facts pattern indent id :
  pattern ∈ ALL_PATTERNS -> no_bracket indent = true ->
  well_formed_id id = true ->
  isStartMarker (indent +:+ end_marker pattern id) = false
  /\ isEndMarker (indent +:+ end_marker pattern id) = true
  /\ extractMarkerId (indent +:+ end_marker pattern id) = Some id.
Proof.
  intros (c & Hc & _ & _ & ->)%pattern_marker_shape Hi Hid.
  unfold isStartMarker, isEndMarker.
  destruct (tagged_line " START" indent c id " END") as [-> ->]; try done.
  destruct (tagged_line " END" indent c id " END") as [_ ->]; done.
Qed.

Lemma marker_lines_single pattern indent id :
  pattern ∈ ALL_PATTERNS -> single_line indent = true ->
  well_formed_id id = true ->
  single_line (indent +:+ start_marker pattern id) = true
  /\ single_line (indent +:+ end_marker pattern id) = true.
Proof.
  intros (c & _ & Hc & -> & ->)%pattern_marker_shape Hi Hid.
  unfold well_formed_id in Hid. apply andb_true_iff in Hid as [_ Hid].
  apply id_chars_single_line in Hid.
  unfold single_line in *. rewrite !all_chars_app, Hi, Hc, Hid. done.
Qed.

(** ** Removing one block *)

Lemma remove_loop_keep id xs rest :
  Forall (fun l => carries id l = false) xs ->
  remove_loop id false (xs ++ rest) = xs ++ remove_loop id false rest.
Proof.
  induction 1 as [|l xs Hl _ IH]; [done|].
  unfold carries in Hl. apply orb_false_iff in Hl as [Hs He].
  simpl. by rewrite Hs, He, IH.
Qed.

Lemma remove_loop_inside id xs rest :
  Forall (fun l => ends id l = false) xs ->
  remove_loop id true (xs ++ rest) = remove_loop id true rest.
Proof.
  induction 1 as [|l xs Hl _ IH]; [done|].
  simpl. rewrite Hl, IH. by destruct (starts id l).
Qed.

Lemma remove_loop_start id l rest b :
  starts id l = true -> remove_loop id b (l :: rest) = remove_loop id true rest.
Proof. intros H. simpl. by rewrite H. Qed.

Lemma remove_loop_end id l rest b :
  starts id l = false -> ends id l = true ->
  remove_loop id b (l :: rest) = remove_loop id false rest.
Proof. intros Hs He. simpl. by rewrite Hs, He. Qed.

(** Inside the target block a line is dropped, whatever it is. *)
Lemma remove_loop_drop id l rest :
  exists b, remove_loop id true (l :: rest) = remove_loop id b rest.
Proof.
  simpl. destruct (starts id l); [by exists true|].
  destruct (ends id l); [by exists false | by exists true].
Qed.

(** A block whose statement lines, the last one apart, are no end marker of
    the id is removed whole. *)
Lemma remove_loop_block id pre s body e post :
  Forall (fun l => carries id l = false) pre ->
  starts id s = true ->
  Forall (fun l => ends id l = false) (removelast body) ->
  starts id e = false -> ends id e = true ->
  Forall (fun l => carries id l = false) post ->
  remove_loop id false (pre ++ s :: body ++ e :: post) = pre ++ post.
Proof.
  intros Hpre Hs Hbody He1 He2 Hpost.
  rewrite remove_loop_keep by done. f_equal.
  rewrite (remove_loop_start _ _ _ _ Hs).
  assert (exists b, remove_loop id true (body ++ e :: post)
                    = remove_loop id b (e :: post)) as [b ->].
  { destruct (decide (body = [])) as [->|Hne]; [by exists true|].
    destruct (exists_last Hne) as (xs & x & ->).
    rewrite removelast_last in Hbody.
    rewrite <- app_assoc, remove_loop_inside by done.
    apply remove_loop_drop. }
  rewrite (remove_loop_end _ _ _ _ He1 He2).
  rewrite <- (app_nil_r post) at 1. rewrite remove_loop_keep by done.
  simpl. by rewrite app_nil_r.
Qed.

(** ** Indentation and the lines of a block *)

Lemma span_fst_all p s : JS.all_chars p (fst (JS.span p s)) = true.
Proof.
  induction s as [|c s IH]; simpl; [done|].
  destruct (p c) eqn:Hc; [|done].
  destruct (JS.span p s). simpl in *. by rewrite Hc.
Qed.

Lemma span_fst_keeps q p s :
  JS.all_chars q s = true -> JS.all_chars q (fst (JS.span p s)) = true.
Proof.
  induction s as [|c s IH]; simpl; [done|].
  rewrite andb_true_iff. intros [Hc Hs].
  destruct (p c); [|done]. specialize (IH Hs).
  destruct (JS.span p s). simpl in *. by rewrite Hc.
Qed.

Lemma indentOf_no_bracket l : no_bracket (indentOf l) = true.
Proof.
  unfold indentOf, no_bracket.
  eapply all_chars_impl; [|apply span_fst_all].
  intros c Hc. destruct (Ascii.eqb_spec c "[") as [->|]; [by vm_compute in Hc|done].
Qed.

Lemma indentOf_single_line l :
  single_line l = true -> single_line (indentOf l) = true.
Proof. apply span_fst_keeps. Qed.

Lemma lookup_line_single (lines : list string) i :
  Forall (fun l => single_line l = true) lines ->
  single_line (default EmptyString (lines !! i)) = true.
Proof.
  intros H. destruct (lines !! i) as [l|] eqn:E; [|done].
  simpl. by eapply (Forall_lookup_1 _ _ _ _ H E).
Qed.

Lemma split_app_single p s :
  single_line p = true ->
  JS.split (p +:+ s)
  = match JS.split s with
    | hd :: tl => (p +:+ hd) :: tl
    | [] => []
    end.
Proof.
  unfold single_line. induction p as [|c p IH]; simpl.
  - intros _. by destruct (JS.split s).
  - rewrite andb_true_iff, negb_true_iff. intros [-> Hp].
    rewrite IH by done. pose proof (split_not_nil s). by destruct (JS.split s).
Qed.

Lemma ends_skip id p l : no_bracket p = true -> ends id (p +:+ l) = ends id l.
Proof.
  intros Hp. unfold ends, isEndMarker.
  by rewrite test_tag_skip, extract_skip.
Qed.

Lemma starts_skip id p l : no_bracket p = true -> starts id (p +:+ l) = starts id l.
Proof.
  intros Hp. unfold starts, isStartMarker.
  by rewrite test_tag_skip, extract_skip.
Qed.

Lemma existsb_false_Forall {A} (f : A -> bool) xs :
  existsb f xs = false -> Forall (fun x => f x = false) xs.
Proof.
  induction xs as [|x xs IH]; simpl; [constructor|].
  rewrite orb_false_iff. intros [? ?]. constructor; auto.
Qed.

Lemma ends_early_indent id indent statement :
  no_bracket indent = true -> single_line indent = true ->
  ends_early id statement = false ->
  Forall (fun l => ends id l = false)
         (removelast (JS.split (indent +:+ statement))).
Proof.
  intros Hb Hs. unfold ends_early. rewrite split_app_single by done.
  destruct (JS.split statement) as [|hd tl]; [constructor|].
  destruct tl as [|l tl]; [constructor|].
  change (removelast ((indent +:+ hd) :: l :: tl))
    with ((indent +:+ hd) :: removelast (l :: tl)).
  change (removelast (hd :: l :: tl)) with (hd :: removelast (l :: tl)).
  intros [Hhd Htl]%existsb_false_Forall%Forall_cons.
  constructor; [by rewrite ends_skip | done].
Qed.

Lemma split_block pattern id label expression indent :
  pattern ∈ ALL_PATTERNS -> single_line indent = true ->
  well_formed_id id = true ->
  JS.split (buildInstrumentationBlock pattern id label expression indent)
  = (indent +:+ start_marker pattern id)
      :: JS.split (indent +:+ renderLogLine pattern id label expression)
      ++ [indent +:+ end_marker pattern id].
Proof.
  intros Hp Hi Hid.
  destruct (marker_lines_single pattern indent id) as [Hs He]; try done.
  unfold buildInstrumentationBlock. cbn [JS.join].
  rewrite !split_app_nl.
  by rewrite (split_single_line _ Hs), (split_single_line _ He).
Qed.

(** The lines of the file once the block is spliced in. *)
Lemma split_insertBlock pattern id label expression n content :
  pattern ∈ ALL_PATTERNS -> well_formed_id id = true ->
  let lines := JS.split content in
  let indent := indentOf (default EmptyString (lines !! (n - 1)%nat)) in
  JS.split (insertBlock pattern id label expression n content)
  = take n lines
      ++ (indent +:+ start_marker pattern id)
         :: JS.split (indent +:+ renderLogLine pattern id label expression)
      ++ (indent +:+ end_marker pattern id) :: drop n lines.
Proof.
  intros Hp Hid lines indent. unfold insertBlock, splice. fold lines. fold indent.
  pose proof (split_lines_single content) as Hl. fold lines in Hl.
  assert (single_line indent = true) as Hi
    by (apply indentOf_single_line, lookup_line_single, Hl).
  rewrite split_join by (by destruct (take n lines)).
  rewrite map_app, concat_app. cbn [map concat].
  rewrite !concat_split_lines by (by apply Forall_take || by apply Forall_drop).
  rewrite split_block by done.
  f_equal. cbn [app]. f_equal. by rewrite <- app_assoc.
Qed.

(** ** Insert, then remove *)

Lemma insert_then_remove pattern id label expression n content :
  pattern ∈ ALL_PATTERNS -> well_formed_id id = true ->
  Forall (fun l => carries id l = false) (JS.split content) ->
  ends_early id (renderLogLine pattern id label expression) = false ->
  removeInstrumentationBlock
    (insertBlock pattern id label expression n content) id = content.
Proof.
  intros Hp Hid Hfresh Hstmt. unfold removeInstrumentationBlock.
  rewrite split_insertBlock by done.
  set (lines := JS.split content) in *.
  set (indent := indentOf (default EmptyString (lines !! (n - 1)%nat))).
  pose proof (indentOf_no_bracket (default EmptyString (lines !! (n - 1)%nat))) as Hib.
  pose proof (split_lines_single content) as Hl. fold lines in Hl.
  assert (single_line indent = true) as Hi
    by (apply indentOf_single_line, lookup_line_single, Hl).
  destruct (start_line_facts pattern indent id) as (Hs1 & _ & Hs3); try done.
  destruct (end_line_facts pattern indent id) as (He1 & He2 & He3); try done.
  rewrite remove_loop_block.
  - rewrite take_drop. apply join_split.
  - by apply Forall_take.
  - unfold starts. by rewrite Hs1, Hs3, bool_decide_eq_true_2.
  - by apply ends_early_indent.
  - unfold starts. by rewrite He1.
  - unfold ends. by rewrite He2, He3, bool_decide_eq_true_2.
  - by apply Forall_drop.
Qed.

(** C10. When the only start marker line of id X has no end marker line of
    X anywhere in the text, removing X keeps the lines before the start
    marker and deletes it with every line after it, to the end of the text. *)
Theorem unterminated_block_is_removed_to_eof content X pre s post :
  JS.split content = pre ++ s :: post ->
  starts X s = true ->
  Forall (fun l => starts X l = false) (pre ++ post) ->
  Forall (fun l => ends X l = false) (pre ++ s :: post) ->
  removeInstrumentationBlock content X = JS.join pre.
Proof.
  intros Hsplit Hs Hstart Hend. unfold removeInstrumentationBlock.
  rewrite Hsplit.
  apply Forall_app in Hstart as [Hstart_pre _].
  apply Forall_app in Hend as [Hend_pre Hend_post].
  apply Forall_cons in Hend_post as [_ Hend_post].
  rewrite remove_loop_keep.
  - rewrite (remove_loop_start _ _ _ _ Hs).
    rewrite <- (app_nil_r post), remove_loop_inside by done.
    simpl. by rewrite app_nil_r.
  - apply Forall_forall. intros l Hl. unfold carries.
    rewrite (proj1 (Forall_forall _ _) Hstart_pre l Hl).
    by rewrite (proj1 (Forall_forall _ _) Hend_pre l Hl).
Qed.

(** ** Marker ids *)

Lemma take_all_chars p n s :
  JS.all_chars p s = true -> JS.all_chars p (JS.take n s) = true.
Proof.
  revert s. induction n as [|n IH]; intros [|c s]; simpl; try done.
  rewrite !andb_true_iff. intros [? ?]. auto.
Qed.

Lemma strlen_take n s : JS.strlen (JS.take n s) = Nat.min n (JS.strlen s).
Proof.
  unfold JS.strlen. revert s.
  induction n as [|n IH]; intros [|c s]; simpl; auto.
Qed.

Lemma strlen_drop n s : JS.strlen (JS.drop n s) = (JS.strlen s - n)%nat.
Proof.
  unfold JS.strlen. revert s.
  induction n as [|n IH]; intros [|c s]; simpl; auto.
Qed.

Lemma take_min n s : JS.take (Nat.min n (JS.strlen s)) s = JS.take n s.
Proof.
  unfold JS.strlen. revert s.
  induction n as [|n IH]; intros [|c s]; simpl; try done.
  by rewrite IH.
Qed.

Lemma drop_all s : JS.drop (JS.strlen s) s = EmptyString.
Proof. unfold JS.strlen. induction s; simpl; auto. Qed.

(** [text.substring(2, 10)] is the eight characters from index 2, or as many
    as there are. *)
Lemma substring_2_10 text :
  JS.substring 2 10 text = JS.take 8 (JS.drop 2 text).
Proof.
  unfold JS.substring.
  destruct text as [|a [|b s]]; try done.
  set (n := JS.strlen (String a (String b s))).
  assert (n = S (S (JS.strlen s))) as Hn by done.
  replace (Z.to_nat (Z.min (Z.max 0 2) (Z.of_nat n))) with 2%nat by lia.
  replace (Z.to_nat (Z.min (Z.max 0 10) (Z.of_nat n))) with (Nat.min 10 n) by lia.
  replace (Nat.min 2 (Nat.min 10 n)) with 2%nat by lia.
  replace (Nat.max 2 (Nat.min 10 n) - 2)%nat
    with (Nat.min 8 (JS.strlen s)) by lia.
  cbn [JS.drop]. apply take_min.
Qed.

(** The id cut out of any text of the form ["0"] or ["0." digits]. *)
Lemma generateMarkerId_shape text :
  radix36_text text = true ->
  JS.strlen (generateMarkerId text) = Nat.min 8 (JS.strlen text - 2)
  /\ JS.all_chars JS.is_id_char (generateMarkerId text) = true.
Proof.
  intros Htext. unfold generateMarkerId. rewrite substring_2_10.
  rewrite strlen_take, strlen_drop. split; [done|].
  apply take_all_chars.
  destruct text as [|a [|b digits]]; try done.
  simpl in Htext. cbn [JS.drop].
  destruct a as [[] [] [] [] [] [] [] []]; try done.
  destruct b as [[] [] [] [] [] [] [] []]; done.
Qed.




Lemma generateMarkerId_well_formed text :
  radix36_text text = true ->
  JS.truthy (generateMarkerId text) = true ->
  well_formed_id (generateMarkerId text) = true.
Proof.
  intros Htext H. unfold well_formed_id. rewrite H.
  by apply generateMarkerId_shape.
Qed.

(** ** One-line statements *)

Lemma strip_prefix_spec p s rest :
  JS.strip_prefix p s = Some rest -> s = p +:+ rest.
Proof.
  revert s. induction p as [|a p IH]; intros s; simpl.
  - by intros [= ->].
  - destruct s as [|b s]; [done|].
    destruct (Ascii.eqb_spec a b) as [->|]; [|done].
    intros H. by rewrite (IH _ H).
Qed.

Lemma find_first_spec pat s before after :
  JS.find_first pat s = Some (before, after) ->
  s = before +:+ pat +:+ after.
Proof.
  revert before. induction s as [|c s IH]; intros before; cbn [JS.find_first].
  - destruct (JS.strip_prefix pat EmptyString) as [rest|] eqn:E; [|done].
    intros [= <- <-]. simpl. by apply strip_prefix_spec.
  - destruct (JS.strip_prefix pat (String c s)) as [rest|] eqn:E.
    + intros [= <- <-]. simpl. by apply strip_prefix_spec.
    + destruct (JS.find_first pat s) as [[b a]|]; [|done].
      intros [= <- <-]. simpl. by rewrite <- (IH b).
Qed.

Lemma get_substitution_chars p matched before after repl :
  JS.all_chars p matched = true -> JS.all_chars p before = true ->
  JS.all_chars p after = true -> JS.all_chars p repl = true ->
  JS.all_chars p (JS.get_substitution matched before after repl) = true.
Proof.
  intros Hm Hb Ha.
  assert (forall n repl, (JS.strlen repl <= n)%nat ->
            JS.all_chars p repl = true ->
            JS.all_chars p (JS.get_substitution matched before after repl) = true)
    as Hall; [|by eauto].
  unfold JS.strlen.
  induction n as [|n IH]; intros [|c r] Hlen Hr; try done.
  - cbn in Hlen. lia.
  - cbn in Hlen. cbn [JS.all_chars] in Hr.
    apply andb_true_iff in Hr as [Hc Hr].
    assert (JS.all_chars p
              (String c (JS.get_substitution matched before after r)) = true)
      as Hplain by (cbn [JS.all_chars]; rewrite Hc, IH; [done | lia | done]).
    cbn [JS.get_substitution].
    destruct (Ascii.eqb c "$") eqn:Ec; [|done].
    destruct r as [|d r']; [done|].
    cbn in Hlen. cbn [JS.all_chars] in Hr.
    apply andb_true_iff in Hr as [Hd Hr'].
    assert (JS.all_chars p (JS.get_substitution matched before after r') = true)
      as Hrest by (apply IH; [lia | done]).
    apply Ascii.eqb_eq in Ec as ->.
    destruct (Ascii.eqb d "$"); [by cbn [JS.all_chars]; rewrite Hc, Hrest|].
    destruct (Ascii.eqb d "&"); [by rewrite all_chars_app, Hm, Hrest|].
    destruct (Ascii.eqb d "`"); [by rewrite all_chars_app, Hb, Hrest|].
    destruct (Ascii.eqb d "'"); [by rewrite all_chars_app, Ha, Hrest|].
    done.
Qed.

Lemma replace_chars p pat repl s :
  JS.all_chars p s = true -> JS.all_chars p repl = true ->
  JS.all_chars p (JS.replace pat repl s) = true.
Proof.
  intros Hs Hrepl. unfold JS.replace.
  destruct (JS.find_first pat s) as [[before after]|] eqn:E; [|done].
  apply find_first_spec in E. rewrite E in Hs.
  rewrite !all_chars_app in Hs.
  apply andb_true_iff in Hs as [Hb [Hp Ha]%andb_true_iff].
  rewrite !all_chars_app, Hb, Ha, get_substitution_chars; done.
Qed.

(** A one-line label and expression give a one-line statement. *)
Lemma renderLogLine_single_line pattern id label expression :
  pattern ∈ ALL_PATTERNS -> single_line id = true ->
  single_line label = true ->
  from_option single_line true expression = true ->
  single_line (renderLogLine pattern id label expression) = true.
Proof.
  intros Hp Hid Hlabel Hexpr.
  assert (single_line (log_template pattern) = true) as Htemplate.
  { revert Hp. unfold ALL_PATTERNS. rewrite !elem_of_cons, elem_of_nil.
    by intros [->|[->|[->|[->|[]]]]]. }
  unfold single_line in *. unfold renderLogLine.
  destruct expression as [expression|]; cbn [from_option] in Hexpr;
    [destruct (JS.truthy expression)|];
    repeat (apply replace_chars; [|done || by rewrite !all_chars_app, Hexpr]);
    done.
Qed.

(** A one-line statement never ends early. *)
Lemma single_line_never_ends_early id statement :
  single_line statement = true -> ends_early id statement = false.
Proof. intros H. unfold ends_early. by rewrite split_single_line. Qed.

(** ** The add and remove tools *)

Lemma existsSync_true path w content :
  files w !! path = Some content -> existsSync path w = true.
Proof. intros H. unfold existsSync. rewrite H. by apply bool_decide_eq_true_2. Qed.

Lemma existsSync_false path w :
  files w !! path = None -> existsSync path w = false.
Proof.
  intros H. unfold existsSync. rewrite H.
  apply bool_decide_eq_false_2. by intros [? ?].
Qed.

(** The session the add tool works on: the stored one, or a fresh one. *)
Lemma ensure_session env session_id w :
  store_consistent w ->
  let w1 := match loadSession session_id w with
            | Some _ => w
            | None => snd (createSession session_id (cwd env) (now env) w)
            end in
  files w1 = files w
  /\ store_consistent w1
  /\ exists data, loadSession session_id w1 = Some data
                  /\ markers data = getMarkers session_id w.
Proof.
  intros Hw. unfold getMarkers.
  destruct (loadSession session_id w) as [data|] eqn:E; cbn zeta.
  - repeat split; [done|]. by exists data.
  - unfold createSession, saveSession, loadSession in *. cbn.
    repeat split.
    + unfold store_consistent. cbn.
      intros sid data [[<- <-]|[_ H]]%lookup_insert_Some; [done | by apply Hw].
    + eexists. by rewrite lookup_insert_eq.
Qed.

Lemma find_fresh_last (p : Marker.t -> bool) old m :
  Forall (fun x => p x = false) old -> p m = true ->
  List.find p (old ++ [m]) = Some m.
Proof.
  induction 1 as [|x old Hx _ IH]; intros Hm; simpl.
  - by rewrite Hm.
  - rewrite Hx. auto.
Qed.

Lemma filter_fresh_last id old m :
  Forall (fun x => Marker.id x ≠ id) old -> Marker.id m = id ->
  filter (fun x => Marker.id x ≠ id) (old ++ [m]) = old.
Proof.
  intros Hold Hm. induction Hold as [|x old Hx _ IH]; cbn [app].
  - by rewrite filter_cons_False by (by intros H; apply H).
  - by rewrite filter_cons_True, IH.
Qed.

(** What a successful add leaves behind. *)
Lemma add_success env session_id file_path line label expression w content pattern :
  store_consistent w ->
  files w !! file_path = Some content ->
  getPatternForFile file_path = Some (own_pattern pattern) ->
  1 <= line <= Z.of_nat (length (JS.split content)) ->
  let id := generateMarkerId (random36 env) in
  let indent :=
    indentOf (default EmptyString (JS.split content !! (Z.to_nat line - 1)%nat)) in
  let block := buildInstrumentationBlock pattern id label expression indent in
  let marker :=
    {| Marker.id := id; Marker.file_path := file_path;
       Marker.line_start := line + 1; Marker.line_end := line + 3;
       Marker.label := label; Marker.expression := expression;
       Marker.created_at := now env |} in
  exists w',
    addInstrumentationTool env session_id file_path line label expression w
      = (Added id file_path line block, w')
    /\ files w'
       = <[file_path := insertBlock pattern id label expression (Z.to_nat line) content]>
           (files w)
    /\ store_consistent w'
    /\ getMarkers session_id w' = getMarkers session_id w ++ [marker].
Proof.
  intros Hw Hfile Hpat Hline id indent block marker.
  unfold addInstrumentationTool.
  rewrite (existsSync_true _ _ _ Hfile), Hpat. cbn [negb].
  destruct (ensure_session env session_id w Hw) as (Hfiles & Hw1 & data & Hload & Hmarkers).
  set (w1 := match loadSession session_id w with
             | Some _ => w
             | None => snd (createSession session_id (cwd env) (now env) w)
             end) in *.
  rewrite Hfiles, Hfile.
  change (default EmptyString (Some content)) with content.
  replace ((line <? 1) || (Z.of_nat (length (JS.split content)) <? line))
    with false by (symmetry; apply orb_false_iff; split; lia).
  replace (Z.to_nat (line - 1)) with (Z.to_nat line - 1)%nat by lia.
  fold id indent block marker.
  unfold addMarker. 
  replace (loadSession session_id (writeFile file_path
             (JS.join (splice (Z.to_nat line) block (JS.split content))) w1))
    with (Some data) by done.
  eexists. split; [reflexivity|].
  repeat split.
  - cbn. by rewrite Hfiles.
  - unfold store_consistent. cbn. intros sid d.
    intros [[<- <-]|[_ H]]%lookup_insert_Some; [done | by apply Hw1].
  - unfold getMarkers at 1, loadSession. cbn.
    rewrite (Hw1 _ _ Hload), lookup_insert_eq. cbn. by rewrite Hmarkers.
Qed.

Lemma drop_record_spec sid mid r w data :
  store_consistent w -> loadSession sid w = Some data ->
  exists w', drop_record sid mid r w = (r, w')
    /\ files w' = files w
    /\ store_consistent w'
    /\ getMarkers sid w' = filter (fun m => Marker.id m ≠ mid) (markers data).
Proof.
  intros Hw Hload. unfold drop_record, removeMarker. rewrite Hload.
  eexists. split; [reflexivity|]. repeat split.
  - unfold store_consistent. cbn. intros k d.
    intros [[<- <-]|[_ H]]%lookup_insert_Some; [done | by apply Hw].
  - unfold getMarkers, loadSession. cbn.
    by rewrite (Hw _ _ Hload), lookup_insert_eq.
Qed.

Lemma find_in_filter_none mid (ms : list Marker.t) :
  List.find (fun m => bool_decide (Marker.id m = mid))
            (filter (fun m => Marker.id m ≠ mid) ms) = None.
Proof.
  induction ms as [|m ms IH]; [done|].
  destruct (decide (Marker.id m = mid)) as [E|E].
  - by rewrite filter_cons_False by (by intros H; apply H).
  - rewrite filter_cons_True by done. simpl.
    by rewrite bool_decide_eq_false_2.
Qed.

Lemma getMarkers_found sid w (p : Marker.t -> bool) m :
  List.find p (getMarkers sid w) = Some m ->
  exists data, loadSession sid w = Some data /\ markers data = getMarkers sid w.
Proof.
  unfold getMarkers. destruct (loadSession sid w) as [data|]; [eauto | done].
Qed.

(** Once a call has found the record and dropped it, the next call finds
    none. *)
Lemma remove_after_found sid mid w marker :
  store_consistent w ->
  List.find (fun m => bool_decide (Marker.id m = mid)) (getMarkers sid w)
    = Some marker ->
  exists r w1, removeInstrumentationTool sid mid w = (r, w1)
    /\ r <> RemoveMarkerNotFound mid sid
    /\ getMarkers sid w1
       = filter (fun m => Marker.id m ≠ mid) (getMarkers sid w)
    /\ store_consistent w1.
Proof.
  intros Hw Hfind.
  destruct (getMarkers_found _ _ _ _ Hfind) as (data & Hload & Hmarkers).
  unfold removeInstrumentationTool. rewrite Hfind.
  destruct (files w !! Marker.file_path marker) as [content|].
  - destruct (bool_decide (content = removeInstrumentationBlock content mid)).
    + destruct (drop_record_spec sid mid (RemoveAlreadyGone mid) w data)
        as (w' & -> & _ & ? & ?); try done.
      exists (RemoveAlreadyGone mid), w'. by rewrite <- Hmarkers.
    + destruct (drop_record_spec sid mid (Removed mid (Marker.file_path marker))
                  (writeFile (Marker.file_path marker)
                     (removeInstrumentationBlock content mid) w) data)
        as (w' & -> & _ & ? & ?); try done.
      exists (Removed mid (Marker.file_path marker)), w'. by rewrite <- Hmarkers.
  - destruct (drop_record_spec sid mid (RemoveFileGone (Marker.file_path marker)) w data)
      as (w' & -> & _ & ? & ?); try done.
    exists (RemoveFileGone (Marker.file_path marker)), w'. by rewrite <- Hmarkers.
Qed.

(** C2, amended.  After a call of remove that found the marker record
    (whatever it then reported: removed, file gone, or block already gone),
    a second call for the same id does not throw and changes nothing, and its
    outcome is the error that the marker is not in the session, not the
    already-gone warning. *)
Theorem second_remove_reports_marker_not_found sid mid w :
  store_consistent w ->
  fst (removeInstrumentationTool sid mid w) <> RemoveMarkerNotFound mid sid ->
  let w1 := snd (removeInstrumentationTool sid mid w) in
  removeInstrumentationTool sid mid w1 = (RemoveMarkerNotFound mid sid, w1).
Proof.
  intros Hw Hfirst.
  destruct (List.find (fun m => bool_decide (Marker.id m = mid)) (getMarkers sid w))
    as [marker|] eqn:Hfind.
  - destruct (remove_after_found sid mid w marker Hw Hfind)
      as (r & w1 & Hrun & _ & Hmarkers & _).
    rewrite Hrun. cbn [snd].
    unfold removeInstrumentationTool at 1.
    by rewrite Hmarkers, find_in_filter_none.
  - exfalso. apply Hfirst. unfold removeInstrumentationTool. by rewrite Hfind.
Qed.

Lemma remove_success sid mid w marker content :
  store_consistent w ->
  List.find (fun m => bool_decide (Marker.id m = mid)) (getMarkers sid w)
    = Some marker ->
  files w !! Marker.file_path marker = Some content ->
  removeInstrumentationBlock content mid <> content ->
  exists w1,
    removeInstrumentationTool sid mid w = (Removed mid (Marker.file_path marker), w1)
    /\ files w1 = <[Marker.file_path marker := removeInstrumentationBlock content mid]>
                    (files w)
    /\ getMarkers sid w1
       = filter (fun m => Marker.id m ≠ mid) (getMarkers sid w).
Proof.
  intros Hw Hfind Hfile Hchange.
  destruct (getMarkers_found _ _ _ _ Hfind) as (data & Hload & Hmarkers).
  unfold removeInstrumentationTool. rewrite Hfind, Hfile.
  rewrite bool_decide_eq_false_2 by congruence.
  destruct (drop_record_spec sid mid (Removed mid (Marker.file_path marker))
              (writeFile (Marker.file_path marker)
                 (removeInstrumentationBlock content mid) w) data)
    as (w' & -> & Hfiles & _ & Hms); try done.
  exists w'. by rewrite Hfiles, Hms, Hmarkers.
Qed.

Lemma insertBlock_differs pattern id label expression n content :
  pattern ∈ ALL_PATTERNS -> well_formed_id id = true ->
  insertBlock pattern id label expression n content <> content.
Proof.
  intros Hp Hid Heq. apply (f_equal JS.split), (f_equal length) in Heq.
  rewrite split_insertBlock in Heq by done.
  rewrite length_app in Heq. cbn [length] in Heq.
  rewrite length_app in Heq. cbn [length] in Heq.
  pose proof (f_equal length (take_drop n (JS.split content))) as Hlen.
  rewrite length_app in Hlen. lia.
Qed.

(** C1, amended.  Add followed by remove of the marker id it generated puts
    the text of the file back exactly, and the session's markers with it,
    provided the id, whatever text the random source printed, is well formed
    ([a-z0-9]+, so not empty) and fresh: carried by no marker line of the file
    nor by a record of the session, and no END marker of it sits on a line of
    the rendered statement before the last (a one-line statement never has
    one).  The store holds every session under its own id. *)
Theorem add_then_remove_restores_file
    env session_id file_path line label expression w content pattern :
  store_consistent w ->
  files w !! file_path = Some content ->
  getPatternForFile file_path = Some (own_pattern pattern) ->
  1 <= line <= Z.of_nat (length (JS.split content)) ->
  let id := generateMarkerId (random36 env) in
  well_formed_id id = true ->
  Forall (fun l => carries id l = false) (JS.split content) ->
  Forall (fun m => Marker.id m ≠ id) (getMarkers session_id w) ->
  ends_early id (renderLogLine pattern id label expression) = false ->
  let added :=
    addInstrumentationTool env session_id file_path line label expression w in
  let removed := removeInstrumentationTool session_id id (snd added) in
  (exists block, fst added = Added id file_path line block)
  /\ fst removed = Removed id file_path
  /\ files (snd removed) = files w
  /\ getMarkers session_id (snd removed) = getMarkers session_id w.
Proof.
  intros Hw Hfile Hpat Hline id Hid Hfresh Hsession Hstmt added removed.
  pose proof (getPatternForFile_known _ _ Hpat) as Hknown.
  destruct (add_success env session_id file_path line label expression w
              content pattern Hw Hfile Hpat Hline)
    as (w' & Hadd & Hfiles & Hw' & Hmarkers).
  fold id in Hadd, Hfiles, Hmarkers.
  subst added removed. rewrite Hadd. cbn [fst snd].
  split; [eauto|].
  set (marker := {| Marker.id := id; Marker.file_path := file_path;
                    Marker.line_start := line + 1; Marker.line_end := line + 3;
                    Marker.label := label; Marker.expression := expression;
                    Marker.created_at := now env |}) in *.
  set (content' := insertBlock pattern id label expression (Z.to_nat line) content) in *.
  assert (removeInstrumentationBlock content' id = content) as Hback
    by (by apply insert_then_remove).
  destruct (remove_success session_id id w' marker content') as (w1 & Hrun & Hfiles1 & Hms1).
  - done.
  - rewrite Hmarkers. apply find_fresh_last; [|by apply bool_decide_eq_true_2].
    eapply Forall_impl; [exact Hsession|].
    intros m Hm. by apply bool_decide_eq_false_2.
  - cbn [Marker.file_path marker]. by rewrite Hfiles, lookup_insert_eq.
  - rewrite Hback. intros E. by apply (insertBlock_differs pattern id label expression
                                         (Z.to_nat line) content).
  - rewrite Hrun. cbn [fst snd]. split; [done|]. split.
    + rewrite Hfiles1, Hback, Hfiles. cbn [Marker.file_path marker].
      rewrite insert_insert_eq. by apply insert_id.
    + rewrite Hms1, Hmarkers. by apply filter_fresh_last.
Qed.

Lemma getPatternForFile_inherited file_path :
  file_path ∈ OBJECT_PROTOTYPE ->
  getPatternForFile file_path = Some (inherited file_path).
Proof.
  unfold OBJECT_PROTOTYPE. intros H.
  repeat (apply elem_of_cons in H as [->|H]; [by vm_compute|]).
  by apply elem_of_nil in H.
Qed.

(** C6.  Add fails with FileNotFound when the path does not exist, with
    UnsupportedFileType when the file exists and the table has nothing for
    its extension, with LineOutOfRange when the file exists, the table has a
    value and the line is outside [1, lineCount]; and whenever add does not
    report a marker added, the files are what they were.  The table has a
    value, though no pattern, for a path that is the name of a property it
    inherits, such as [constructor]: on such a file add does not fail with
    UnsupportedFileType; it makes sure the session exists, then reports
    LineOutOfRange or, for a line of the file, throws a TypeError. *)
Theorem add_failures_leave_files_unmodified
    env session_id file_path line label expression w :
  let result :=
    addInstrumentationTool env session_id file_path line label expression w in
  (files w !! file_path = None ->
     result = (AddFileNotFound file_path, w))
  /\ (is_Some (files w !! file_path) -> getPatternForFile file_path = None ->
     result = (AddUnsupportedFileType, w))
  /\ (forall content,
        files w !! file_path = Some content ->
        is_Some (getPatternForFile file_path) ->
        line < 1 \/ Z.of_nat (length (JS.split content)) < line ->
        fst result = AddLineOutOfRange line (length (JS.split content))
        /\ files (snd result) = files w)
  /\ (forall content,
        files w !! file_path = Some content ->
        file_path ∈ OBJECT_PROTOTYPE ->
        1 <= line <= Z.of_nat (length (JS.split content)) ->
        fst result = AddTypeError
        /\ is_Some (loadSession session_id (snd result))
        /\ files (snd result) = files w)
  /\ ((forall markerId path l block, fst result <> Added markerId path l block) ->
      files (snd result) = files w).
Proof.
  intros result. subst result. unfold addInstrumentationTool.
  destruct (files w !! file_path) as [content|] eqn:Hfile.
  - rewrite (existsSync_true _ _ _ Hfile). cbn [negb].
    destruct (getPatternForFile file_path) as [value|] eqn:Hpat.
    + set (w1 := match loadSession session_id w with
                 | Some _ => w
                 | None => snd (createSession session_id (cwd env) (now env) w)
                 end).
      assert (files w1 = files w) as Hfiles
        by (subst w1; by destruct (loadSession session_id w)).
      assert (is_Some (loadSession session_id w1)) as Hsession.
      { subst w1. unfold loadSession in *.
        destruct (sessions w !! session_id) eqn:E; [by rewrite E|].
        cbn. by rewrite lookup_insert_eq. }
      rewrite Hfiles, Hfile.
      change (default EmptyString (Some content)) with content.
      destruct ((line <? 1) || (Z.of_nat (length (JS.split content)) <? line))
        eqn:Hrange.
      * cbn [fst snd]. split; [done|]. split; [done|]. split; [by intros c [= <-] _ _|].
        split; [|done]. intros c [= <-] _ Hline.
        apply orb_true_iff in Hrange as [?|?]; lia.
      * apply orb_false_iff in Hrange as [H1 H2].
        split; [done|]. split; [done|]. split; [intros c [= <-] _ [?|?]; lia|].
        destruct value as [pattern|property].
        -- split.
           { intros c _ Hin _. rewrite (getPatternForFile_inherited _ Hin) in Hpat.
             done. }
           intros Hnot. exfalso.
           destruct (addMarker session_id _ _) eqn:Hadd in Hnot.
           ++ by eapply Hnot.
           ++ unfold addMarker in Hadd.
              change (loadSession session_id (writeFile ?p ?t w1))
                with (loadSession session_id w1) in Hadd.
              destruct Hsession as [data Hdata]. by rewrite Hdata in Hadd.
        -- cbn [fst snd]. split; [|done]. by intros c _ _ _.
    + split; [done|]. split; [done|]. split; [by intros c _ [? ?]|].
      split; [|done]. intros c _ Hin _.
      by rewrite (getPatternForFile_inherited _ Hin) in Hpat.
  - rewrite (existsSync_false _ _ Hfile). cbn [negb].
    split; [done|]. split; [by intros [? ?]|]. split; [done|]. done.
Qed.

(** ** The store invariant *)

Lemma empty_store_consistent files : store_consistent {| files := files; sessions := ∅ |}.
Proof. intros sid data H. cbn in H. by rewrite lookup_empty in H. Qed.

Lemma saveSession_consistent data w :
  store_consistent w -> store_consistent (saveSession data w).
Proof.
  intros Hw sid d. cbn.
  intros [[<- <-]|[_ H]]%lookup_insert_Some; [done | by apply Hw].
Qed.

Lemma writeFile_consistent path text w :
  store_consistent w -> store_consistent (writeFile path text w).
Proof. done. Qed.

Lemma addInstrumentationTool_consistent
    env session_id file_path line label expression w :
  store_consistent w ->
  store_consistent
    (snd (addInstrumentationTool env session_id file_path line label expression w)).
Proof.
  intros Hw. unfold addInstrumentationTool.
  destruct (negb (existsSync file_path w)); [done|].
  destruct (getPatternForFile file_path) as [value|]; [|done].
  destruct (ensure_session env session_id w Hw) as (_ & Hw1 & _).
  set (w1 := match loadSession session_id w with
             | Some _ => w
             | None => snd (createSession session_id (cwd env) (now env) w)
             end) in *.
  destruct (_ || _); [done|].
  destruct value as [pattern|property]; [|done].
  unfold addMarker.
  destruct (loadSession session_id (writeFile _ _ w1)); [|done].
  by apply saveSession_consistent, writeFile_consistent.
Qed.

Lemma removeInstrumentationTool_consistent session_id marker_id w :
  store_consistent w ->
  store_consistent (snd (removeInstrumentationTool session_id marker_id w)).
Proof.
  intros Hw. unfold removeInstrumentationTool.
  destruct (List.find _ _) as [marker|]; [|done].
  assert (forall r w', store_consistent w' ->
            store_consistent (snd (drop_record session_id marker_id r w')))
    as Hdrop.
  { intros r w' Hw'. unfold drop_record, removeMarker.
    destruct (loadSession session_id w'); [|done].
    by apply saveSession_consistent. }
  destruct (files w !! Marker.file_path marker) as [content|]; [|by apply Hdrop].
  destruct (bool_decide _); by apply Hdrop.
Qed.

(** ** Scanning for blocks *)

Lemma match_tag_truthy s id after :
  match_tag s = Some (id, after) -> JS.truthy id = true.
Proof.
  unfold match_tag. destruct (JS.strip_prefix _ s) as [rest|]; [|done].
  destruct (JS.span JS.is_id_char rest) as [[|c i] [|[[] [] [] [] [] [] [] []] a]];
    try done.
  by intros [= <- _].
Qed.

Lemma extract_truthy l id : extractMarkerId l = Some id -> JS.truthy id = true.
Proof.
  induction l as [|c l IH]; cbn [extractMarkerId].
  - destruct (match_tag EmptyString) as [[i a]|] eqn:E; [|done].
    intros [= <-]. by eapply match_tag_truthy.
  - destruct (match_tag (String c l)) as [[i a]|] eqn:E; [|done].
    intros [= <-]. by eapply match_tag_truthy.
Qed.

Lemma scan_loop_app i xs ys st :
  scan_loop i (xs ++ ys) st = scan_loop (i + length xs) ys (scan_loop i xs st).
Proof.
  revert i st. induction xs as [|x xs IH]; intros i st; simpl.
  - by rewrite Nat.add_0_r.
  - rewrite IH. f_equal. lia.
Qed.

Lemma scan_step_grows i l cur bs :
  exists extra, snd (scan_step i l (cur, bs)) = bs ++ extra.
Proof.
  unfold scan_step.
  destruct (isStartMarker l).
  - destruct (extractMarkerId l) as [id|]; [|by exists []; rewrite app_nil_r].
    destruct (JS.truthy id); by exists []; rewrite app_nil_r.
  - destruct cur as [cur|]; [|by destruct (_ && _); exists []; rewrite app_nil_r].
    destruct (_ && _); [|by exists []; rewrite app_nil_r].
    destruct (bool_decide _); [by eexists | by exists []; rewrite app_nil_r].
Qed.

Lemma scan_loop_grows i xs cur bs :
  exists extra, snd (scan_loop i xs (cur, bs)) = bs ++ extra.
Proof.
  revert i cur bs. induction xs as [|x xs IH]; intros i cur bs; cbn [scan_loop].
  - exists []. by rewrite app_nil_r.
  - destruct (scan_step i x (cur, bs)) as [cur' bs'] eqn:E.
    destruct (scan_step_grows i x cur bs) as [e1 H1]. rewrite E in H1.
    simpl in H1. subst bs'.
    destruct (IH (S i) cur' (bs ++ e1)) as [e2 ->].
    exists (e1 ++ e2). by rewrite app_assoc.
Qed.

(** A start marker line opens a block for its own id, whatever was open. *)
Lemma scan_step_start i l cur bs id :
  starts id l = true ->
  scan_step i l (cur, bs)
  = (Some {| open_markerId := id; open_startLine := i + 1; open_lines := [l] |},
     bs).
Proof.
  unfold starts. rewrite andb_true_iff, bool_decide_eq_true.
  intros [Hs He]. unfold scan_step. rewrite Hs, He.
  by rewrite (extract_truthy _ _ He).
Qed.

Lemma scan_step_end i l id first ls bs :
  isStartMarker l = false -> ends id l = true ->
  scan_step i l (Some {| open_markerId := id; open_startLine := first;
                         open_lines := ls |}, bs)
  = (None, bs ++ [ {| markerId := id; startLine := first; endLine := i + 1;
                      content := JS.join (ls ++ [l]) |} ]).
Proof.
  unfold ends. rewrite andb_true_iff. intros Hs [He Hid].
  unfold scan_step. rewrite Hs, He.
  rewrite (bool_decide_eq_true_2 (is_Some (Some _))) by eauto.
  cbn [andb open_markerId]. by rewrite Hid.
Qed.

(** Inside an open block, lines that are no start marker and no end marker
    of the block's id leave it open; the end marker lines of other ids are
    not even kept as content. *)
Lemma scan_loop_body i body id first ls bs :
  Forall (fun l => isStartMarker l = false /\ ends id l = false) body ->
  scan_loop i body (Some {| open_markerId := id; open_startLine := first;
                            open_lines := ls |}, bs)
  = (Some {| open_markerId := id; open_startLine := first;
             open_lines := ls ++ filter (fun l => isEndMarker l = false) body |},
     bs).
Proof.
  intros Hbody. revert i ls.
  induction Hbody as [|l body [Hs He] _ IH]; intros i ls.
  - simpl. by rewrite filter_nil, app_nil_r.
  - cbn [scan_loop]. unfold scan_step at 1. rewrite Hs.
    rewrite (bool_decide_eq_true_2 (is_Some (Some _))) by eauto.
    rewrite andb_true_r. cbn [open_markerId].
    unfold ends in He. destruct (isEndMarker l) eqn:Hend.
    + simpl in He. rewrite He, IH.
      by rewrite filter_cons_False by (by rewrite Hend).
    + cbn [open_startLine open_lines]. rewrite IH.
      rewrite filter_cons_True by done. by rewrite <- app_assoc.
Qed.

Lemma scan_finds_block pre s body e post X :
  starts X s = true ->
  Forall (fun l => isStartMarker l = false /\ ends X l = false) body ->
  isStartMarker e = false -> ends X e = true ->
  {| markerId := X;
     startLine := length pre + 1;
     endLine := length pre + length body + 2;
     content := JS.join (s :: filter (fun l => isEndMarker l = false) body ++ [e]) |}
  ∈ snd (scan_loop 0 (pre ++ s :: body ++ e :: post) (None, [])).
Proof.
  intros Hs Hbody He1 He2.
  rewrite scan_loop_app. cbn [scan_loop].
  destruct (scan_loop 0 pre (None, [])) as [cur bs].
  rewrite (scan_step_start _ _ _ _ _ Hs).
  rewrite scan_loop_app, scan_loop_body by done. cbn [scan_loop].
  rewrite (scan_step_end _ _ _ _ _ _ He1 He2).
  destruct (scan_loop_grows (S (S (0 + length pre) + length body)) post None
              (bs ++ [ {| markerId := X; startLine := 0 + length pre + 1;
                          endLine := S (0 + length pre) + length body + 1;
                          content := JS.join (([s] ++ filter (fun l => isEndMarker l = false) body) ++ [e]) |} ]))
    as [extra ->].
  rewrite !elem_of_app. left. right.
  replace (length pre + length body + 2)%nat
    with (S (0 + length pre) + length body + 1)%nat by lia.
  apply list_elem_of_singleton. done.
Qed.

(** C4, amended.  A start marker line opens a block for its own id whatever
    block was open, so a start marker of another id inside an open block
    discards it.  A block of id X is recognised when the end marker of X
    follows the start marker of X with no start marker line in between; the
    lines in between belong to it, the end markers of other ids apart. *)
Theorem scan_recognizes_block_without_inner_start
    content filePath pre s body e post X :
  JS.split content = pre ++ s :: body ++ e :: post ->
  starts X s = true ->
  Forall (fun l => isStartMarker l = false /\ ends X l = false) body ->
  isStartMarker e = false -> ends X e = true ->
  (forall i cur bs,
     scan_step i s (cur, bs)
     = (Some {| open_markerId := X; open_startLine := i + 1; open_lines := [s] |},
        bs))
  /\ {| markerId := X;
        startLine := length pre + 1;
        endLine := length pre + length body + 2;
        content := JS.join (s :: filter (fun l => isEndMarker l = false) body ++ [e]) |}
     ∈ findInstrumentationBlocks content filePath.
Proof.
  intros Hsplit Hs Hbody He1 He2.
  split; [intros; by apply scan_step_start|].
  unfold findInstrumentationBlocks. rewrite Hsplit.
  by apply scan_finds_block.
Qed.

(** C4 as stated fails: with a start marker of y2 between the start and the
    end marker of x1, no block of x1 is recognised. *)
Lemma scan_inner_start_discards_open_block :
  findInstrumentationBlocks
    (JS.join [ "// [DEBUG-HELPER:x1] START";
               "// [DEBUG-HELPER:y2] START";
               "// [DEBUG-HELPER:x1] END" ]) "a.js" = [].
Proof. by vm_compute. Qed.

(** ** Correlation *)

Lemma hit_loop_spec ms hit order :
  Forall (fun m => exists id, LogMatch.marker_id m = Some id /\ JS.truthy id = true) ms ->
  let tags := omap LogMatch.marker_id ms in
  fst (hit_loop ms (hit, order)) = list_to_set tags ∪ hit
  /\ map fst (snd (hit_loop ms (hit, order)))
     = map fst order ++ first_seen hit tags.
Proof.
  intros Hms. revert hit order.
  induction Hms as [|m ms (id & Hid & Hne) _ IH]; intros hit order; cbn zeta.
  - cbn. split; [set_solver | by rewrite app_nil_r].
  - cbn [hit_loop omap list_omap]. rewrite Hid, Hne. cbn [first_seen list_to_set].
    destruct (IH ({[id]} ∪ hit)
                 (if bool_decide (id ∈ hit) then order
                  else order ++ [(id, LogMatch.line m)])) as [-> ->].
    split; [set_solver|].
    destruct (bool_decide (id ∈ hit)) eqn:E.
    + apply bool_decide_eq_true in E.
      replace ({[id]} ∪ hit) with hit by set_solver. done.
    + rewrite map_app. cbn. by rewrite <- app_assoc.
Qed.

Section CorrelateFacts.

Variable ERROR_PATTERNS : list (string -> bool).
Variable WARNING_PATTERNS : list (string -> bool).

Lemma debug_matches_of_parse lines i rest :
  let ms := filterDebugHelperOutput
              (parse_loop ERROR_PATTERNS WARNING_PATTERNS lines i rest) in
  Forall (fun m => exists id, LogMatch.marker_id m = Some id /\ JS.truthy id = true) ms
  /\ omap LogMatch.marker_id ms = omap extractMarkerId rest.
Proof.
  cbn zeta. unfold filterDebugHelperOutput. revert i.
  induction rest as [|l rest IH]; intros i; cbn [parse_loop omap list_omap].
  - by rewrite filter_nil.
  - destruct (extractMarkerId l) as [id|] eqn:E.
    + rewrite filter_cons_True by done. destruct (IH (S i)) as [H1 H2].
      split.
      * constructor; [|done]. exists id. split; [done|]. by eapply extract_truthy.
      * cbn [omap list_omap LogMatch.marker_id]. by rewrite H2.
    + destruct (existsb _ ERROR_PATTERNS).
      * rewrite filter_cons_False by done. apply IH.
      * destruct (existsb _ WARNING_PATTERNS).
        -- rewrite filter_cons_False by done. apply IH.
        -- apply IH.
Qed.

(** The report in terms of the tags of the text, line by line. *)
Lemma correlate_spec markers logContent :
  let tags := omap extractMarkerId (JS.split logContent) in
  let report := correlate ERROR_PATTERNS WARNING_PATTERNS markers logContent in
  status report = map (fun m => (m, bool_decide (Marker.id m ∈ tags))) markers
  /\ map fst (markerOrder report) = first_seen ∅ tags
  /\ missedMarkers report = filter (fun m => Marker.id m ∉ tags) markers.
Proof.
  cbn zeta. unfold correlate, parseLogContent.
  destruct (debug_matches_of_parse (JS.split logContent) 0 (JS.split logContent))
    as [Hall Htags].
  destruct (hit_loop_spec _ ∅ [] Hall) as [Hhit Horder].
  destruct (hit_loop _ (∅, [])) as [hit order]. cbn [fst snd] in *.
  rewrite Htags in Hhit, Horder. cbn [status markerOrder missedMarkers].
  assert (forall id, id ∈ hit <-> id ∈ omap extractMarkerId (JS.split logContent))
    as Hiff by (intros id; rewrite Hhit; set_solver).
  split; [|split; [done|]].
  - apply map_ext. intros m. f_equal. apply bool_decide_ext, Hiff.
  - apply list_filter_iff. intros m. by rewrite Hiff.
Qed.




End CorrelateFacts.

(** ** Two blocks in one file *)

Lemma test_tag_needs_tag suffix l :
  extractMarkerId l = None -> test_tag_then suffix l = false.
Proof.
  induction l as [|c l IH]; cbn [extractMarkerId test_tag_then].
  - by destruct (match_tag EmptyString) as [[? ?]|].
  - destruct (match_tag (String c l)) as [[? ?]|]; [done|]. auto.
Qed.

Lemma span_app_stop p x y :
  JS.all_chars p x = true ->
  match y with EmptyString => True | String c _ => p c = false end ->
  JS.span p (x +:+ y) = (x, y).
Proof.
  intros Hx Hy. induction x as [|c x IH]; simpl in *.
  - destruct y as [|c y]; [done|]. simpl. by rewrite Hy.
  - apply andb_true_iff in Hx as [-> Hx]. by rewrite IH.
Qed.

Lemma indentOf_marker_line pattern l id :
  pattern ∈ ALL_PATTERNS ->
  indentOf (indentOf l +:+ end_marker pattern id) = indentOf l.
Proof.
  intros Hp. unfold indentOf at 1.
  rewrite span_app_stop; [done | apply span_fst_all |].
  revert Hp. unfold ALL_PATTERNS. rewrite !elem_of_cons, elem_of_nil.
  by intros [->|[->|[->|[->|[]]]]].
Qed.

Lemma split_insertBlock_single pattern id label expression n content :
  pattern ∈ ALL_PATTERNS -> well_formed_id id = true ->
  single_line (renderLogLine pattern id label expression) = true ->
  let lines := JS.split content in
  let indent := indentOf (default EmptyString (lines !! (n - 1)%nat)) in
  JS.split (insertBlock pattern id label expression n content)
  = take n lines ++ blockLines pattern id label expression indent ++ drop n lines.
Proof.
  intros Hp Hid Hstmt lines indent.
  rewrite split_insertBlock by done. fold lines. fold indent.
  rewrite split_single_line; [done|].
  pose proof (split_lines_single content) as Hl. fold lines in Hl.
  assert (single_line indent = true) as Hi
    by (apply indentOf_single_line, lookup_line_single, Hl).
  unfold single_line in *. by rewrite all_chars_app, Hi, Hstmt.
Qed.

Lemma blockLines_single pattern id label expression indent :
  pattern ∈ ALL_PATTERNS -> well_formed_id id = true ->
  single_line indent = true ->
  single_line (renderLogLine pattern id label expression) = true ->
  Forall (fun l => single_line l = true)
         (blockLines pattern id label expression indent).
Proof.
  intros Hp Hid Hi Hstmt.
  destruct (marker_lines_single pattern indent id) as [Hs He]; try done.
  repeat constructor; try done.
  unfold single_line in *. by rewrite all_chars_app, Hi, Hstmt.
Qed.

(** The lines of a block of [b] carry no other id, when its statement holds
    no tag. *)
Lemma blockLines_carry_no_other pattern a b label expression indent :
  pattern ∈ ALL_PATTERNS -> well_formed_id b = true -> a <> b ->
  no_bracket indent = true ->
  extractMarkerId (renderLogLine pattern b label expression) = None ->
  Forall (fun l => carries a l = false)
         (blockLines pattern b label expression indent).
Proof.
  intros Hp Hb Hab Hi Hstmt.
  destruct (start_line_facts pattern indent b) as (_ & _ & Hs); try done.
  destruct (end_line_facts pattern indent b) as (_ & _ & He); try done.
  assert (forall l, extractMarkerId l <> Some a -> carries a l = false) as Hno.
  { intros l Hl. unfold carries, starts, ends.
    rewrite bool_decide_eq_false_2 by done. by rewrite !andb_false_r. }
  repeat constructor; apply Hno.
  - rewrite Hs. congruence.
  - by rewrite extract_skip, Hstmt.
  - rewrite He. congruence.
Qed.

(** Removing a one-line-statement block of [id] from among other lines. *)
Lemma remove_loop_blockLines pattern id label expression indent pre post :
  pattern ∈ ALL_PATTERNS -> well_formed_id id = true ->
  no_bracket indent = true ->
  Forall (fun l => carries id l = false) pre ->
  Forall (fun l => carries id l = false) post ->
  remove_loop id false
    (pre ++ blockLines pattern id label expression indent ++ post)
  = pre ++ post.
Proof.
  intros Hp Hid Hi Hpre Hpost.
  destruct (start_line_facts pattern indent id) as (Hs1 & _ & Hs3); try done.
  destruct (end_line_facts pattern indent id) as (He1 & He2 & He3); try done.
  unfold blockLines. cbn [app].
  apply (remove_loop_block id pre _ [_] _ post);
    [done | | constructor | | | done].
  - unfold starts. by rewrite Hs1, Hs3, bool_decide_eq_true_2.
  - unfold starts. by rewrite He1.
  - unfold ends. by rewrite He2, He3, bool_decide_eq_true_2.
Qed.

Lemma scan_finds_blockLines pattern id label expression indent pre post :
  pattern ∈ ALL_PATTERNS -> well_formed_id id = true ->
  no_bracket indent = true ->
  extractMarkerId (renderLogLine pattern id label expression) = None ->
  {| markerId := id; startLine := length pre + 1; endLine := length pre + 3;
     content := buildInstrumentationBlock pattern id label expression indent |}
  ∈ snd (scan_loop 0 (pre ++ blockLines pattern id label expression indent ++ post)
           (None, [])).
Proof.
  intros Hp Hid Hi Hstmt.
  destruct (start_line_facts pattern indent id) as (Hs1 & _ & Hs3); try done.
  destruct (end_line_facts pattern indent id) as (He1 & He2 & He3); try done.
  assert (extractMarkerId (indent +:+ renderLogLine pattern id label expression) = None)
    as Hnone by (by rewrite extract_skip).
  pose proof (test_tag_needs_tag " START" _ Hnone) as Ht1.
  pose proof (test_tag_needs_tag " END" _ Hnone) as Ht2.
  pose proof (scan_finds_block pre
                (indent +:+ start_marker pattern id)
                [indent +:+ renderLogLine pattern id label expression]
                (indent +:+ end_marker pattern id) post id) as Hfind.
  rewrite filter_cons_True, filter_nil in Hfind by done.
  replace (length pre + length [indent +:+ renderLogLine pattern id label expression] + 2)%nat
    with (length pre + 3)%nat in Hfind by (cbn [length]; lia).
  apply Hfind.
  - unfold starts. by rewrite Hs1, Hs3, bool_decide_eq_true_2.
  - constructor; [|constructor]. split; [done|].
    unfold ends, isEndMarker. by rewrite Ht2.
  - done.
  - unfold ends. by rewrite He2, He3, bool_decide_eq_true_2.
Qed.

(** The list-level core: the block of [a] at [nA], the lines [B] spliced in
    at [nB] outside it, then [a] removed. *)
Lemma remove_loop_two_blocks pattern a labelA exprA indentA (L B : list string) nA nB :
  pattern ∈ ALL_PATTERNS -> well_formed_id a = true ->
  no_bracket indentA = true ->
  Forall (fun l => carries a l = false) L ->
  Forall (fun l => carries a l = false) B ->
  (nA <= length L)%nat ->
  (nB <= nA \/ nA + 3 <= nB)%nat ->
  let L1 := take nA L ++ blockLines pattern a labelA exprA indentA ++ drop nA L in
  let nB' := if (nB <=? nA)%nat then nB else (nB - 3)%nat in
  remove_loop a false (take nB L1 ++ B ++ drop nB L1)
  = take nB' L ++ B ++ drop nB' L.
Proof.
  intros Hp Ha Hi HL HB HnA Hpos L1 nB'.
  set (BA := blockLines pattern a labelA exprA indentA) in *.
  assert (length BA = 3%nat) as HlenBA by done.
  assert (length (take nA L) = nA) as HlenT by (rewrite length_take; lia).
  subst nB'. destruct Hpos as [Hle|Hge].
  - rewrite (proj2 (Nat.leb_le nB nA)) by done.
    assert (take nB L1 = take nB L) as ->.
    { subst L1. rewrite take_app_le by lia. rewrite take_take. f_equal. lia. }
    assert (drop nB L1 = drop nB (take nA L) ++ BA ++ drop nA L) as ->.
    { subst L1. by rewrite drop_app_le by lia. }
    replace (take nB L ++ B ++ drop nB (take nA L) ++ BA ++ drop nA L)
      with ((take nB L ++ B ++ drop nB (take nA L)) ++ BA ++ drop nA L)
      by (by rewrite <- !app_assoc).
    subst BA. rewrite remove_loop_blockLines; try done.
    + rewrite <- !app_assoc. by rewrite drop_take_drop.
    + repeat apply Forall_app_2; try done;
        [by apply Forall_take | by apply Forall_drop, Forall_take].
    + by apply Forall_drop.
  - rewrite (proj2 (Nat.leb_gt nB nA)) by lia.
    assert (take nB L1 = take nA L ++ BA ++ take (nB - 3 - nA) (drop nA L)) as ->.
    { subst L1. rewrite take_app_ge by lia. rewrite HlenT.
      rewrite take_app_ge by lia. rewrite HlenBA.
      by replace (nB - nA - 3)%nat with (nB - 3 - nA)%nat by lia. }
    assert (drop nB L1 = drop (nB - 3) L) as ->.
    { subst L1. rewrite drop_app_ge by lia. rewrite HlenT.
      rewrite drop_app_ge by lia. rewrite HlenBA, drop_drop. f_equal. lia. }
    rewrite <- !app_assoc.
    subst BA. rewrite remove_loop_blockLines; try done.
    + rewrite !app_assoc. rewrite take_take_drop.
      by replace (nA + (nB - 3 - nA))%nat with (nB - 3)%nat by lia.
    + by apply Forall_take.
    + repeat apply Forall_app_2; try done;
        [by apply Forall_take, Forall_drop | by apply Forall_drop].
Qed.

(** The line that gives the second block its indentation carries the same
    indentation as the line of the original file it stands for. *)
Lemma indent_after_first_block pattern a labelA exprA (L : list string) nA nB :
  pattern ∈ ALL_PATTERNS ->
  (1 <= nA <= length L)%nat -> (1 <= nB)%nat ->
  (nB <= nA \/ nA + 3 <= nB)%nat ->
  let indentA := indentOf (default EmptyString (L !! (nA - 1)%nat)) in
  let L1 := take nA L ++ blockLines pattern a labelA exprA indentA ++ drop nA L in
  let nB' := if (nB <=? nA)%nat then nB else (nB - 3)%nat in
  indentOf (default EmptyString (L1 !! (nB - 1)%nat))
  = indentOf (default EmptyString (L !! (nB' - 1)%nat)).
Proof.
  intros Hp HnA HnB Hpos indentA L1 nB'.
  assert (length (take nA L) = nA) as HlenT by (rewrite length_take; lia).
  subst nB'. destruct Hpos as [Hle|Hge].
  - rewrite (proj2 (Nat.leb_le nB nA)) by done.
    subst L1. rewrite lookup_app_l by lia.
    by rewrite lookup_take_lt by lia.
  - rewrite (proj2 (Nat.leb_gt nB nA)) by lia.
    subst L1. rewrite lookup_app_r by lia. rewrite HlenT.
    destruct (decide (nB = nA + 3)%nat) as [->|Hne].
    + replace (nA + 3 - 1 - nA)%nat with 2%nat by lia.
      replace (nA + 3 - 3 - 1)%nat with (nA - 1)%nat by lia.
      cbn. by apply indentOf_marker_line.
    + rewrite lookup_app_r by (cbn [length blockLines]; lia).
      cbn [length blockLines]. rewrite lookup_drop. do 3 f_equal. lia.
Qed.

(** C9, amended.  Insert the block of A, then the block of B somewhere
    outside A's three lines, then remove A: the text is the one with B's block
    alone inserted, so every line of B and every other line is unchanged and
    in order, and the scan finds B's block at its place.  The ids are well
    formed and distinct, A's id is carried by no line of the original file,
    both statements are one line and B's holds no marker tag. *)
Theorem removing_one_block_leaves_the_other
    pattern a b labelA exprA labelB exprB nA nB content filePath :
  pattern ∈ ALL_PATTERNS ->
  well_formed_id a = true -> well_formed_id b = true -> a <> b ->
  Forall (fun l => carries a l = false) (JS.split content) ->
  single_line (renderLogLine pattern a labelA exprA) = true ->
  single_line (renderLogLine pattern b labelB exprB) = true ->
  extractMarkerId (renderLogLine pattern b labelB exprB) = None ->
  (1 <= nA <= length (JS.split content))%nat ->
  (1 <= nB <= length (JS.split content) + 3)%nat ->
  (nB <= nA \/ nA + 3 <= nB)%nat ->
  let withA := insertBlock pattern a labelA exprA nA content in
  let withAB := insertBlock pattern b labelB exprB nB withA in
  let nB' := if (nB <=? nA)%nat then nB else (nB - 3)%nat in
  let indentB :=
    indentOf (default EmptyString (JS.split content !! (nB' - 1)%nat)) in
  removeInstrumentationBlock withAB a
    = insertBlock pattern b labelB exprB nB' content
  /\ {| markerId := b; startLine := nB' + 1; endLine := nB' + 3;
        content := buildInstrumentationBlock pattern b labelB exprB indentB |}
     ∈ findInstrumentationBlocks (removeInstrumentationBlock withAB a) filePath.
Proof.
  intros Hp Ha Hb Hab Hfresh HstmtA HstmtB HtagB HnA HnB Hpos
         withA withAB nB' indentB.
  set (L := JS.split content) in *.
  set (indentA := indentOf (default EmptyString (L !! (nA - 1)%nat))).
  assert (JS.split withA
          = take nA L ++ blockLines pattern a labelA exprA indentA ++ drop nA L)
    as HL1 by (by apply split_insertBlock_single).
  assert (JS.split withAB
          = take nB (JS.split withA) ++ blockLines pattern b labelB exprB indentB
              ++ drop nB (JS.split withA)) as HL2.
  { subst withAB. rewrite split_insertBlock_single by done.
    rewrite HL1. subst indentB nB'. unfold indentA.
    by rewrite (indent_after_first_block pattern a labelA exprA L nA nB) by (done || lia). }
  assert (JS.split (insertBlock pattern b labelB exprB nB' content)
          = take nB' L ++ blockLines pattern b labelB exprB indentB ++ drop nB' L)
    as Hgoal by (by apply split_insertBlock_single).
  assert (remove_loop a false (JS.split withAB)
          = take nB' L ++ blockLines pattern b labelB exprB indentB ++ drop nB' L)
    as Hremoved.
  { rewrite HL2, HL1. subst nB'.
    apply remove_loop_two_blocks; try done; try lia.
    - apply indentOf_no_bracket.
    - apply blockLines_carry_no_other; try done. apply indentOf_no_bracket. }
  assert (removeInstrumentationBlock withAB a
          = insertBlock pattern b labelB exprB nB' content) as Hresult.
  { unfold removeInstrumentationBlock. rewrite Hremoved, <- Hgoal.
    apply join_split. }
  split; [done|].
  rewrite Hresult. unfold findInstrumentationBlocks. rewrite Hgoal.
  assert (length (take nB' L) = nB') as Hlen.
  { rewrite length_take. subst nB'. destruct (nB <=? nA)%nat eqn:E; [|lia].
    apply Nat.leb_le in E. lia. }
  rewrite <- Hlen at 1 2.
  apply scan_finds_blockLines; try done. apply indentOf_no_bracket.
Qed.

(** ** Checkpoint statements *)

(** C3 fails on the code for Rust and Go.  Without an expression the
    replacement of [", {expression}"] runs first and removes the text the two
    language-specific replacements look for, so the format specifier stays in
    the statement; the JavaScript and Python statements are stripped. *)
Theorem checkpoint_keeps_format_specifier_in_rust_and_go :
  renderLogLine RUST_PATTERN "abc123" "checkpoint" None
    = "eprintln!(" +:+ JS.dq +:+ "[abc123] checkpoint: {:?}" +:+ JS.dq +:+ ");"
  /\ renderLogLine GO_PATTERN "abc123" "checkpoint" None
    = "fmt.Printf(" +:+ JS.dq +:+ "[abc123] checkpoint: %+v" +:+ JS.backslash
        +:+ "n" +:+ JS.dq +:+ ")"
  /\ includes "{:?}" (renderLogLine RUST_PATTERN "abc123" "checkpoint" None) = true
  /\ includes "%+v" (renderLogLine GO_PATTERN "abc123" "checkpoint" None) = true
  /\ renderLogLine JS_TS_PATTERN "abc123" "checkpoint" None
    = "console.log(" +:+ JS.dq +:+ "[abc123] checkpoint:" +:+ JS.dq +:+ ");"
  /\ renderLogLine PYTHON_PATTERN "abc123" "checkpoint" None
    = "print(f" +:+ JS.dq +:+ "[abc123] checkpoint" +:+ JS.dq +:+ ")".
Proof. by vm_compute. Qed.

(** ** Error context *)

Lemma context_loop_length lines i steps :
  (length (context_loop lines i steps) <= steps)%nat.
Proof.
  revert i. induction steps as [|steps IH]; intros i; simpl; [lia|].
  destruct (lines !! i) as [l|]; [|simpl; lia].
  destruct (is_continuation l); simpl; [|lia]. specialize (IH (S i)). lia.
Qed.

Lemma context_loop_spec lines i steps :
  (i + steps <= length lines)%nat ->
  context_loop lines i steps
  = take_while is_continuation (take steps (drop i lines)).
Proof.
  revert i. induction steps as [|steps IH]; intros i Hlen; [done|].
  destruct (lookup_lt_is_Some_2 lines i) as [l Hl]; [lia|].
  cbn [context_loop]. rewrite Hl, (drop_S _ _ _ Hl). cbn [take take_while].
  destruct (is_continuation l); [|done]. rewrite IH by lia. done.
Qed.

(** The context is the run of continuation lines that starts right after
    the error line, cut after nine lines. *)
Lemma extractErrorContext_spec lines errorIndex :
  extractErrorContext lines errorIndex
  = JS.join (take_while is_continuation
               (take 9 (drop (errorIndex + 1) lines))).
Proof.
  unfold extractErrorContext, maxContext. f_equal.
  destruct (decide (errorIndex + 1 <= length lines)%nat).
  - rewrite context_loop_spec by lia. f_equal.
    destruct (decide (errorIndex + 10 <= length lines)%nat).
    + f_equal. lia.
    + rewrite !take_ge; [done | rewrite length_drop; lia | rewrite length_drop; lia].
  - replace (Nat.min (length lines) (errorIndex + 10) - (errorIndex + 1))%nat
      with 0%nat by lia.
    by rewrite drop_ge by lia.
Qed.

(** C8 fails on the code: the loop runs from [errorIndex + 1] up to, and not
    including, [errorIndex + maxContext], so it collects nine lines at most;
    ten stack frames after the error give a context of nine.  The rest of the
    claim holds: the lines are taken greedily from the line after the error
    until the first line that is no continuation. *)
Theorem error_context_holds_nine_lines_at_most :
  extractErrorContext ("TypeError: boom" :: replicate 10 stack_frame) 0
    = JS.join (replicate 9 stack_frame)
  /\ (forall lines errorIndex,
        (length (context_loop lines (errorIndex + 1)
                   (Nat.min (length lines) (errorIndex + maxContext)
                    - (errorIndex + 1))) <= 9)%nat)
  /\ (forall lines errorIndex,
        extractErrorContext lines errorIndex
        = JS.join (take_while is_continuation
                     (take 9 (drop (errorIndex + 1) lines)))).
Proof.
  split; [by vm_compute|]. split.
  - intros lines errorIndex.
    etrans; [apply context_loop_length|]. unfold maxContext. lia.
  - apply extractErrorContext_spec.
Qed.

(** ** Classified lines *)

Section ParseFacts.

Variable ERROR_PATTERNS : list (string -> bool).
Variable WARNING_PATTERNS : list (string -> bool).

Lemma parse_loop_error_details lines i rest m :
  m ∈ parse_loop ERROR_PATTERNS WARNING_PATTERNS lines i rest ->
  LogMatch.type m = error ->
  LogMatch.details m
  = Some (extractErrorContext lines (LogMatch.line m - 1)).
Proof.
  revert i. induction rest as [|l rest IH]; intros i; cbn [parse_loop].
  - by intros ?%elem_of_nil.
  - destruct (extractMarkerId l) as [id|].
    + intros [->|H]%elem_of_cons; [done | by eapply IH].
    + destruct (existsb _ ERROR_PATTERNS).
      * intros [->|H]%elem_of_cons; [|by eapply IH].
        intros _. cbn. do 3 f_equal. lia.
      * destruct (existsb _ WARNING_PATTERNS); [|by apply IH].
        intros [->|H]%elem_of_cons; [done | by eapply IH].
Qed.

(** The details attached to an error match are the context of its line. *)
Lemma error_details_are_the_context content m :
  m ∈ parseLogContent ERROR_PATTERNS WARNING_PATTERNS content ->
  LogMatch.type m = error ->
  LogMatch.details m
  = Some (extractErrorContext (JS.split content) (LogMatch.line m - 1)).
Proof. apply parse_loop_error_details. Qed.

End ParseFacts.

(** ** Worked examples *)

(** C1 at a sample: a.js of three lines, a block added after line 2 and
    removed. *)
Lemma add_then_remove_sample :
  let w := sample_world (JS.join ["l1"; "  l2"; "l3"]) in
  let added :=
    addInstrumentationTool (sample_env random_A) "s" "/p/a.js" 2 "checkpoint"
      None w in
  let removed := removeInstrumentationTool "s" "p7777777" (snd added) in
  (exists block, fst added = Added "p7777777" "/p/a.js" 2 block)
  /\ fst removed = Removed "p7777777" "/p/a.js"
  /\ files (snd removed) = files w
  /\ getMarkers "s" (snd removed) = getMarkers "s" w.
Proof.
  apply (add_then_remove_restores_file (sample_env random_A) "s" "/p/a.js" 2
           "checkpoint" None (sample_world (JS.join ["l1"; "  l2"; "l3"]))
           (JS.join ["l1"; "  l2"; "l3"]) JS_TS_PATTERN).
  - apply empty_store_consistent.
  - by vm_compute.
  - by vm_compute.
  - by vm_compute.
  - by vm_compute.
  - apply (bool_decide_unpack _). by vm_compute.
  - apply (bool_decide_unpack _). by vm_compute.
  - by vm_compute.
Defined.

(** C1 as stated fails.  When the random source yields 0, which prints as
    0, the id is empty, the block is not recognised and remove leaves it in
    the file; when the file already carries the id on a marker line, remove
    takes that line too. *)
Lemma add_then_remove_can_change_the_file :
  (let w := sample_world (JS.join ["l1"; "l2"]) in
   let added :=
     addInstrumentationTool (sample_env "0") "s" "/p/a.js" 1 "checkpoint" None w in
   let removed := removeInstrumentationTool "s" EmptyString (snd added) in
   fst added
     = Added EmptyString "/p/a.js" 1
         (JS.join [ "// [DEBUG-HELPER:] START";
                    "console.log(" +:+ JS.dq +:+ "[] checkpoint:" +:+ JS.dq +:+ ");";
                    "// [DEBUG-HELPER:] END" ])
   /\ fst removed = RemoveAlreadyGone EmptyString
   /\ files (snd removed) !! "/p/a.js" <> files w !! "/p/a.js")
  /\ (let w := sample_world (JS.join ["l1"; "// [DEBUG-HELPER:p7777777] END"]) in
      let added :=
        addInstrumentationTool (sample_env random_A) "s" "/p/a.js" 1
          "checkpoint" None w in
      let removed := removeInstrumentationTool "s" "p7777777" (snd added) in
      fst removed = Removed "p7777777" "/p/a.js"
      /\ files (snd removed) !! "/p/a.js" = Some "l1"
      /\ files (snd removed) !! "/p/a.js" <> files w !! "/p/a.js").
Proof. by vm_compute. Qed.

Lemma session_world_consistent (files : gmap string string) ms :
  store_consistent
    {| files := files; sessions := {[ "s" := sample_session ms ]} |}.
Proof.
  intros sid data H. cbn in H. by apply lookup_singleton_Some in H as [<- <-].
Qed.

(** C2 at a sample: the block is removed by the first call, the second call
    finds no record. *)
Lemma second_remove_sample :
  let w1 := snd (removeInstrumentationTool "s" "p7777777"
                   (instrumented_world "p7777777")) in
  removeInstrumentationTool "s" "p7777777" w1
  = (RemoveMarkerNotFound "p7777777" "s", w1).
Proof.
  apply (second_remove_reports_marker_not_found "s" "p7777777"
           (instrumented_world "p7777777")).
  - apply session_world_consistent.
  - by vm_compute.
Defined.

(** C2 as stated fails: the first call removes the block, the second call
    answers with the error that the marker is not in the session, not with the
    already-gone warning. *)
Lemma second_remove_is_an_error :
  let first := removeInstrumentationTool "s" "p7777777"
                 (instrumented_world "p7777777") in
  let second := removeInstrumentationTool "s" "p7777777" (snd first) in
  fst first = Removed "p7777777" "/p/a.js"
  /\ fst second = RemoveMarkerNotFound "p7777777" "s"
  /\ remove_message (fst second)
     = "Error: Marker `p7777777` not found in session `s`"
  /\ fst second <> RemoveAlreadyGone "p7777777".
Proof. by vm_compute. Qed.

(** C4 at a sample: an end marker of another id and a plain line between the
    start and the end marker of x1. *)
Lemma scan_sample :
  (forall i cur bs,
     scan_step i "// [DEBUG-HELPER:x1] START" (cur, bs)
     = (Some {| open_markerId := "x1"; open_startLine := i + 1;
                open_lines := ["// [DEBUG-HELPER:x1] START"] |}, bs))
  /\ {| markerId := "x1"; startLine := 2; endLine := 5;
        content := JS.join [ "// [DEBUG-HELPER:x1] START"; "f();";
                             "// [DEBUG-HELPER:x1] END" ] |}
     ∈ findInstrumentationBlocks
         (JS.join [ "a"; "// [DEBUG-HELPER:x1] START"; "f();";
                    "// [DEBUG-HELPER:y2] END"; "// [DEBUG-HELPER:x1] END"; "b" ])
         "a.js".
Proof.
  apply (scan_recognizes_block_without_inner_start
           (JS.join [ "a"; "// [DEBUG-HELPER:x1] START"; "f();";
                      "// [DEBUG-HELPER:y2] END"; "// [DEBUG-HELPER:x1] END"; "b" ])
           "a.js" ["a"] "// [DEBUG-HELPER:x1] START"
           ["f();"; "// [DEBUG-HELPER:y2] END"] "// [DEBUG-HELPER:x1] END" ["b"] "x1").
  - by vm_compute.
  - by vm_compute.
  - apply (bool_decide_unpack _). by vm_compute.
  - by vm_compute.
  - by vm_compute.
Defined.

(** C6 at samples: a missing file, a Java file, line 0 and line 4 of a
    file of three lines, and line 1 of a file named constructor. *)
Lemma add_failures_sample :
  let w := {| files := {[ "/p/a.js" := JS.join ["l1"; "l2"; "l3"];
                          "/p/A.java" := "class A {}";
                          "constructor" := "l1" ]};
              sessions := ∅ |} in
  let env := sample_env random_A in
  addInstrumentationTool env "s" "/p/b.js" 1 "x" None w
    = (AddFileNotFound "/p/b.js", w)
  /\ addInstrumentationTool env "s" "/p/A.java" 1 "x" None w
    = (AddUnsupportedFileType, w)
  /\ (fst (addInstrumentationTool env "s" "/p/a.js" 0 "x" None w)
       = AddLineOutOfRange 0 3
     /\ files (snd (addInstrumentationTool env "s" "/p/a.js" 0 "x" None w))
       = files w)
  /\ (fst (addInstrumentationTool env "s" "/p/a.js" 4 "x" None w)
       = AddLineOutOfRange 4 3
     /\ files (snd (addInstrumentationTool env "s" "/p/a.js" 4 "x" None w))
       = files w)
  /\ (fst (addInstrumentationTool env "s" "constructor" 1 "x" None w)
       = AddTypeError
     /\ is_Some
          (loadSession "s"
             (snd (addInstrumentationTool env "s" "constructor" 1 "x" None w)))
     /\ files (snd (addInstrumentationTool env "s" "constructor" 1 "x" None w))
       = files w).
Proof.
  intros w env.
  split; [|split; [|split; [|split]]].
  - apply (add_failures_leave_files_unmodified env "s" "/p/b.js" 1 "x" None w).
    by vm_compute.
  - apply (add_failures_leave_files_unmodified env "s" "/p/A.java" 1 "x" None w).
    + by eexists.
    + by vm_compute.
  - destruct (add_failures_leave_files_unmodified env "s" "/p/a.js" 0 "x" None w)
      as (_ & _ & Hrange & _).
    apply (Hrange (JS.join ["l1"; "l2"; "l3"])).
    + by vm_compute.
    + by eexists.
    + left. lia.
  - destruct (add_failures_leave_files_unmodified env "s" "/p/a.js" 4 "x" None w)
      as (_ & _ & Hrange & _).
    apply (Hrange (JS.join ["l1"; "l2"; "l3"])).
    + by vm_compute.
    + by eexists.
    + right. by vm_compute.
  - destruct (add_failures_leave_files_unmodified env "s" "constructor" 1 "x" None w)
      as (_ & _ & _ & Hinherited & _).
    apply (Hinherited "l1").
    + by vm_compute.
    + apply list_elem_of_here.
    + by vm_compute.
Defined.

(** C6 fails on a file named constructor.  No pattern is stored for it, yet
    the lookup finds the function that every object inherits under that name:
    add does not report an unsupported file type; it creates the session and,
    for a line of the file, throws a TypeError, for another line reports it
    out of range.  The file is left as it was. *)
Lemma add_accepts_a_file_named_constructor :
  let w := {| files := {[ "constructor" := "l1" ]}; sessions := ∅ |} in
  let env := sample_env random_A in
  PATTERNS_BY_EXTENSION !! "constructor" = None
  /\ getPatternForFile "constructor" = Some (inherited "constructor")
  /\ fst (addInstrumentationTool env "s" "constructor" 1 "x" None w) = AddTypeError
  /\ fst (addInstrumentationTool env "s" "constructor" 2 "x" None w)
     = AddLineOutOfRange 2 1
  /\ is_Some
       (loadSession "s"
          (snd (addInstrumentationTool env "s" "constructor" 1 "x" None w)))
  /\ files (snd (addInstrumentationTool env "s" "constructor" 1 "x" None w))
     = files w.
Proof.
  intros w env. repeat (split; [by vm_compute|]).
  split; [|by vm_compute]. vm_compute. by eexists.
Qed.


(** C9 at a sample: the second block goes in after the first one's end
    marker. *)
Lemma two_blocks_sample :
  let content := JS.join ["l1"; "  l2"; "l3"] in
  let withA := insertBlock JS_TS_PATTERN "p7777777" "first" None 1 content in
  let withAB := insertBlock JS_TS_PATTERN "3lllllll" "second" (Some "x") 5 withA in
  removeInstrumentationBlock withAB "p7777777"
    = insertBlock JS_TS_PATTERN "3lllllll" "second" (Some "x") 2 content
  /\ {| markerId := "3lllllll"; startLine := 3; endLine := 5;
        content := buildInstrumentationBlock JS_TS_PATTERN "3lllllll" "second"
                     (Some "x") "  " |}
     ∈ findInstrumentationBlocks (removeInstrumentationBlock withAB "p7777777")
         "/p/a.js".
Proof.
  apply (removing_one_block_leaves_the_other JS_TS_PATTERN "p7777777" "3lllllll"
           "first" None "second" (Some "x") 1 5
           (JS.join ["l1"; "  l2"; "l3"]) "/p/a.js").
  - apply list_elem_of_here.
  - by vm_compute.
  - by vm_compute.
  - by vm_compute.
  - apply (bool_decide_unpack _). by vm_compute.
  - by vm_compute.
  - by vm_compute.
  - by vm_compute.
  - vm_compute. lia.
  - vm_compute. lia.
  - right. lia.
Defined.

(** C9 as stated fails: the second block added after line 2, which is now
    the first block's start marker, lands inside the first block and goes
    with it; the scan then finds nothing. *)
Lemma inner_block_is_removed_with_the_outer :
  let w := sample_world (JS.join ["l1"; "l2"]) in
  let addA :=
    addInstrumentationTool (sample_env random_A) "s" "/p/a.js" 1 "first" None w in
  let addB :=
    addInstrumentationTool (sample_env random_B) "s" "/p/a.js" 2 "second"
      (Some "x") (snd addA) in
  let removed := removeInstrumentationTool "s" "p7777777" (snd addB) in
  (exists blockA, fst addA = Added "p7777777" "/p/a.js" 1 blockA)
  /\ (exists blockB, fst addB = Added "3lllllll" "/p/a.js" 2 blockB)
  /\ fst removed = Removed "p7777777" "/p/a.js"
  /\ files (snd removed) !! "/p/a.js" = Some (JS.join ["l1"; "l2"])
  /\ scanFileInstrumentationTool "/p/a.js" (snd removed) = ScanNothing "/p/a.js".
Proof. vm_compute. repeat split; eauto. Qed.

(** C10 at a sample: a start marker without its end marker, an end marker of
    another id further down. *)
Lemma unterminated_block_sample :
  removeInstrumentationBlock
    (JS.join [ "a"; "b"; "// [DEBUG-HELPER:x1] START"; "c";
               "// [DEBUG-HELPER:y2] END"; "d" ]) "x1"
  = JS.join ["a"; "b"].
Proof.
  apply (unterminated_block_is_removed_to_eof _ "x1" ["a"; "b"]
           "// [DEBUG-HELPER:x1] START" ["c"; "// [DEBUG-HELPER:y2] END"; "d"]).
  - by vm_compute.
  - by vm_compute.
  - apply (bool_decide_unpack _). by vm_compute.
  - apply (bool_decide_unpack _). by vm_compute.
Defined.

(** * Further properties *)

(** ** The pattern of a file *)

Lemma lastIndexOf_absent c s :
  JS.all_chars (fun d => negb (Ascii.eqb d c)) s = true ->
  JS.lastIndexOf c s = -1.
Proof.
  induction s as [|d s IH]; [done|]. cbn [JS.all_chars JS.lastIndexOf].
  rewrite andb_true_iff, negb_true_iff. intros [Hd Hs].
  rewrite IH by done. cbn. by rewrite Ascii.eqb_sym, Hd.
Qed.

Lemma lastIndexOf_last c base rest :
  JS.all_chars (fun d => negb (Ascii.eqb d c)) rest = true ->
  JS.lastIndexOf c (base +:+ String c rest) = Z.of_nat (JS.strlen base).
Proof.
  intros Hrest. induction base as [|d base IH].
  - cbn [String.append JS.lastIndexOf]. rewrite lastIndexOf_absent by done.
    cbn. by rewrite Ascii.eqb_refl.
  - change (String d base +:+ String c rest)
      with (String d (base +:+ String c rest)).
    cbn [JS.lastIndexOf]. rewrite IH.
    rewrite (proj2 (Z.leb_le 0 _)) by lia.
    unfold JS.strlen. cbn [String.length]. lia.
Qed.

Lemma drop_app_strlen base s : JS.drop (JS.strlen base) (base +:+ s) = s.
Proof. unfold JS.strlen. induction base; simpl; auto. Qed.

Lemma take_all s n : (JS.strlen s <= n)%nat -> JS.take n s = s.
Proof.
  unfold JS.strlen. revert n. induction s as [|c s IH]; intros [|n] H; simpl in *;
    try done; try lia.
  rewrite IH; [done | lia].
Qed.

Lemma substring_from_spec n s :
  (n <= JS.strlen s)%nat ->
  JS.substring_from (Z.of_nat n) s = JS.drop n s.
Proof.
  intros Hn. unfold JS.substring_from, JS.substring.
  replace (Z.to_nat (Z.min (Z.max 0 (Z.of_nat n)) (Z.of_nat (JS.strlen s))))
    with n by lia.
  replace (Z.to_nat (Z.min (Z.max 0 (Z.of_nat (JS.strlen s))) (Z.of_nat (JS.strlen s))))
    with (JS.strlen s) by lia.
  rewrite Nat.min_l, Nat.max_r by lia.
  apply take_all. rewrite strlen_drop. lia.
Qed.

Lemma take_drop_string n s : JS.take n s +:+ JS.drop n s = s.
Proof.
  revert s. induction n as [|n IH]; intros [|c s]; simpl; try done.
  by rewrite IH.
Qed.

(** The extension the lookup uses is a suffix of the path. *)
Lemma extension_is_suffix path :
  exists base,
    path = base +:+ JS.substring_from (JS.lastIndexOf "." path) path.
Proof.
  assert (forall s, -1 <= JS.lastIndexOf "." s < Z.of_nat (JS.strlen s)
                    \/ (JS.lastIndexOf "." s = -1 /\ s = EmptyString)) as Hrange.
  { unfold JS.strlen. induction s as [|d s IH]; [by right|]. left.
    cbn [JS.lastIndexOf String.length].
    destruct (0 <=? JS.lastIndexOf "." s) eqn:E.
    - apply Z.leb_le in E. destruct IH as [?|[? ?]]; lia.
    - destruct (Ascii.eqb "." d); lia. }
  destruct (Z_lt_le_dec (JS.lastIndexOf "." path) 0) as [Hneg|Hpos].
  - exists EmptyString. unfold JS.substring_from, JS.substring.
    replace (Z.to_nat (Z.min (Z.max 0 (JS.lastIndexOf "." path))
                         (Z.of_nat (JS.strlen path)))) with 0%nat by lia.
    replace (Z.to_nat (Z.min (Z.max 0 (Z.of_nat (JS.strlen path)))
                         (Z.of_nat (JS.strlen path))))
      with (JS.strlen path) by lia.
    rewrite Nat.min_l, Nat.max_r, Nat.sub_0_r by lia.
    cbn [JS.drop String.append]. symmetry. by apply take_all.
  - exists (JS.take (Z.to_nat (JS.lastIndexOf "." path)) path).
    rewrite <- (Z2Nat.id (JS.lastIndexOf "." path)) at 2 by done.
    rewrite substring_from_spec by (destruct (Hrange path) as [?|[? ?]]; lia).
    by rewrite take_drop_string.
Qed.

Lemma extensions_registered pattern ext :
  pattern ∈ ALL_PATTERNS -> ext ∈ extensions pattern ->
  PATTERNS_BY_EXTENSION !! ext = Some pattern
  /\ exists rest, ext = String "." rest
       /\ JS.all_chars (fun d => negb (Ascii.eqb d ".")) rest = true.
Proof.
  unfold ALL_PATTERNS. rewrite !elem_of_cons, elem_of_nil.
  intros [->|[->|[->|[->|[]]]]]; cbn [extensions JS_TS_PATTERN PYTHON_PATTERN
                                       RUST_PATTERN GO_PATTERN];
    rewrite ?elem_of_cons, elem_of_nil;
    intros H; repeat (destruct H as [->|H]; [split; [by vm_compute | by eexists]|]);
    done.
Qed.

(** X1.  A path that ends in an extension listed by one of the four patterns
    gets that pattern, whatever stands before the extension; and an absolute
    path gets a pattern only when it ends in one of that pattern's
    extensions. *)
Theorem getPatternForFile_by_extension :
  (forall pattern ext base,
     pattern ∈ ALL_PATTERNS -> ext ∈ extensions pattern ->
     getPatternForFile (base +:+ ext) = Some (own_pattern pattern))
  /\ (forall path pattern,
        (exists rest, path = String "/" rest) ->
        getPatternForFile path = Some (own_pattern pattern) ->
        pattern ∈ ALL_PATTERNS
        /\ exists base ext, path = base +:+ ext /\ ext ∈ extensions pattern).
Proof.
  split.
  - intros pattern ext base Hp Hext.
    destruct (extensions_registered pattern ext Hp Hext) as (Hlook & rest & -> & Hrest).
    unfold getPatternForFile. rewrite lastIndexOf_last by done.
    rewrite substring_from_spec by (rewrite strlen_app; lia).
    rewrite drop_app_strlen. by apply table_get_own.
  - intros path pattern _ H. split; [by eapply getPatternForFile_known|].
    destruct (extension_is_suffix path) as [base Hbase].
    exists base, (JS.substring_from (JS.lastIndexOf "." path) path).
    split; [done|].
    unfold getPatternForFile in H. apply table_get_own in H.
    unfold PATTERNS_BY_EXTENSION, ALL_PATTERNS in H.
    cbn [foldl extensions JS_TS_PATTERN PYTHON_PATTERN RUST_PATTERN GO_PATTERN] in H.
    revert H. generalize (JS.substring_from (JS.lastIndexOf "." path) path) as ext.
    intros ext H.
    repeat (apply lookup_insert_Some in H as [[<- <-]|[_ H]];
            [by vm_compute; set_solver|]).
    by rewrite lookup_empty in H.
Qed.

Lemma getPatternForFile_sample :
  getPatternForFile ("/p/app.test" +:+ ".tsx") = Some (own_pattern JS_TS_PATTERN)
  /\ (JS_TS_PATTERN ∈ ALL_PATTERNS
      /\ exists base ext, "/p/a.b/main.rs" = base +:+ ext
                          /\ ext ∈ extensions RUST_PATTERN).
Proof.
  destruct getPatternForFile_by_extension as [Hfwd Hback]. split.
  - apply (Hfwd JS_TS_PATTERN ".tsx" "/p/app.test"); [apply list_elem_of_here|].
    apply (bool_decide_unpack _). by vm_compute.
  - split; [apply list_elem_of_here|].
    apply (Hback "/p/a.b/main.rs" RUST_PATTERN); [by eexists | by vm_compute].
Defined.

(** ** The statement of a block *)

Lemma strip_prefix_app p rest : JS.strip_prefix p (p +:+ rest) = Some rest.
Proof. induction p as [|c p IH]; simpl; [done|]. by rewrite Ascii.eqb_refl. Qed.

Lemma find_first_skip c pat p s :
  JS.all_chars (fun d => negb (Ascii.eqb d c)) p = true ->
  JS.find_first (String c pat) (p +:+ s)
  = match JS.find_first (String c pat) s with
    | Some (before, after) => Some (p +:+ before, after)
    | None => None
    end.
Proof.
  intros Hp. induction p as [|d p IH].
  - cbn [String.append]. by destruct (JS.find_first (String c pat) s) as [[? ?]|].
  - cbn [JS.all_chars] in Hp. apply andb_true_iff in Hp as [Hd Hp].
    apply negb_true_iff in Hd.
    change (String d p +:+ s) with (String d (p +:+ s)).
    cbn [JS.find_first JS.strip_prefix]. rewrite Ascii.eqb_sym, Hd.
    fold (JS.find_first (String c pat) (p +:+ s)). rewrite (IH Hp).
    by destruct (JS.find_first (String c pat) s) as [[? ?]|].
Qed.

Lemma find_first_absent c pat s :
  JS.all_chars (fun d => negb (Ascii.eqb d c)) s = true ->
  JS.find_first (String c pat) s = None.
Proof.
  intros Hs. rewrite <- (str_app_nil_r s). by rewrite find_first_skip.
Qed.

Lemma get_substitution_plain matched before after repl :
  JS.all_chars (fun d => negb (Ascii.eqb d "$")) repl = true ->
  JS.get_substitution matched before after repl = repl.
Proof.
  induction repl as [|c r IH]; [done|]. cbn [JS.all_chars].
  rewrite andb_true_iff, negb_true_iff. intros [Hc Hr].
  cbn [JS.get_substitution]. rewrite Hc. by rewrite IH.
Qed.

Lemma plain_no_dollar s :
  plain s = true -> JS.all_chars (fun d => negb (Ascii.eqb d "$")) s = true.
Proof. apply all_chars_impl. intros c. by rewrite andb_true_iff; intros [? ?]. Qed.

Lemma plain_no_brace s :
  plain s = true -> JS.all_chars (fun d => negb (Ascii.eqb d "{")) s = true.
Proof. apply all_chars_impl. intros c. by rewrite andb_true_iff; intros [? ?]. Qed.

(** [replace] where the text starts with a part free of the pattern's first
    character. *)
Lemma replace_found c pat repl p s before after :
  JS.all_chars (fun d => negb (Ascii.eqb d c)) p = true ->
  JS.find_first (String c pat) s = Some (before, after) ->
  plain repl = true ->
  JS.replace (String c pat) repl (p +:+ s) = p +:+ before +:+ repl +:+ after.
Proof.
  intros Hp Hs Hrepl. unfold JS.replace. rewrite find_first_skip, Hs by done.
  rewrite get_substitution_plain by by apply plain_no_dollar.
  by rewrite str_app_assoc.
Qed.

Lemma replace_not_found c pat repl p s :
  JS.all_chars (fun d => negb (Ascii.eqb d c)) p = true ->
  JS.find_first (String c pat) s = None ->
  JS.replace (String c pat) repl (p +:+ s) = p +:+ s.
Proof.
  intros Hp Hs. unfold JS.replace. by rewrite find_first_skip, Hs.
Qed.

Lemma find_first_next pat c s :
  JS.strip_prefix pat (String c s) = None ->
  JS.find_first pat s = None ->
  JS.find_first pat (String c s) = None.
Proof.
  intros H1 H2. destruct pat as [|a pat]; [done|].
  cbn [JS.find_first]. rewrite H1. by rewrite H2.
Qed.

Lemma find_first_here pat rest :
  JS.find_first pat (pat +:+ rest) = Some (EmptyString, rest).
Proof.
  pose proof (strip_prefix_app pat rest) as H.
  destruct (pat +:+ rest) as [|c s]; cbn [JS.find_first]; by rewrite H.
Qed.

Ltac str_norm :=
  unfold JS.dq, JS.backslash; rewrite ?str_app_assoc; cbn [String.append].

Ltac no_brace :=
  unfold JS.dq, JS.backslash;
  rewrite ?all_chars_app, ?andb_true_iff;
  repeat split; first [done | by apply plain_no_brace].

(** The first two replacements, which every rendering starts with. *)
Lemma render_id_and_label head tail id label :
  plain id = true -> plain label = true ->
  JS.all_chars (fun d => negb (Ascii.eqb d "{")) head = true ->
  JS.replace "{label}" label
    (JS.replace "{marker_id}" id (head +:+ "[{marker_id}] {label}" +:+ tail))
  = head +:+ "[" +:+ id +:+ "] " +:+ label +:+ tail.
Proof.
  intros Hid Hlabel Hhead.
  replace (head +:+ "[{marker_id}] {label}" +:+ tail)
    with ((head +:+ "[") +:+ "{marker_id}" +:+ "] {label}" +:+ tail)
    by (str_norm; reflexivity).
  rewrite (replace_found _ _ _ _ _ EmptyString ("] {label}" +:+ tail));
    [|no_brace|apply find_first_here|done].
  replace ((head +:+ "[") +:+ EmptyString +:+ id +:+ "] {label}" +:+ tail)
    with ((head +:+ "[" +:+ id +:+ "] ") +:+ "{label}" +:+ tail)
    by (str_norm; reflexivity).
  rewrite (replace_found _ _ _ _ _ EmptyString tail);
    [|no_brace|apply find_first_here|done].
  str_norm. reflexivity.
Qed.

Lemma strip_prefix_char_before pre c post F R :
  JS.all_chars (fun d => negb (Ascii.eqb d c)) F = true ->
  (JS.strlen pre < JS.strlen F)%nat ->
  JS.strip_prefix (pre +:+ String c post) (F +:+ R) = None.
Proof.
  unfold JS.strlen. revert F. induction pre as [|a pre IH]; intros [|d F] HF Hlen;
    cbn [String.length] in Hlen; try lia;
    cbn [JS.all_chars] in HF; apply andb_true_iff in HF as [Hd HF];
    apply negb_true_iff in Hd; cbn [String.append JS.strip_prefix].
  - by rewrite Ascii.eqb_sym, Hd.
  - destruct (Ascii.eqb a d); [|done]. apply IH; [done | lia].
Qed.

Lemma strip_prefix_short pat s :
  (JS.strlen s < JS.strlen pat)%nat -> JS.strip_prefix pat s = None.
Proof.
  unfold JS.strlen. revert s. induction pat as [|a pat IH]; intros [|d s] H;
    cbn [String.length] in H; try lia; cbn [JS.strip_prefix]; [done|].
  destruct (Ascii.eqb a d); [|done]. apply IH. lia.
Qed.

Lemma find_first_short pat s :
  (JS.strlen s < JS.strlen pat)%nat -> JS.find_first pat s = None.
Proof.
  unfold JS.strlen. induction s as [|d s IH]; intros H.
  - cbn [JS.find_first]. by rewrite strip_prefix_short.
  - cbn [JS.find_first]. rewrite strip_prefix_short by done.
    rewrite IH; [done|]. cbn [String.length] in H. lia.
Qed.

(** A pattern holding the character [c] after [pre], searched in a text
    whose first part [X +:+ T0] is free of [c]: no match starts in [X] when
    [T0] is as long as [pre]. *)
Lemma find_first_skip_free pre c post X T0 T1 :
  JS.all_chars (fun d => negb (Ascii.eqb d c)) X = true ->
  JS.all_chars (fun d => negb (Ascii.eqb d c)) T0 = true ->
  (JS.strlen pre <= JS.strlen T0)%nat ->
  JS.find_first (pre +:+ String c post) (X +:+ T0 +:+ T1)
  = match JS.find_first (pre +:+ String c post) (T0 +:+ T1) with
    | Some (before, after) => Some (X +:+ before, after)
    | None => None
    end.
Proof.
  intros HX HT0 Hlen. induction X as [|d X IH].
  - cbn [String.append].
    by destruct (JS.find_first (pre +:+ String c post) (T0 +:+ T1)) as [[? ?]|].
  - pose proof HX as HX'. cbn [JS.all_chars] in HX'.
    apply andb_true_iff in HX' as [_ HX'].
    change (String d X +:+ T0 +:+ T1) with (String d (X +:+ T0 +:+ T1)).
    cbn [JS.find_first].
    replace (String d (X +:+ T0 +:+ T1)) with ((String d X +:+ T0) +:+ T1)
      by (rewrite str_app_assoc; reflexivity).
    rewrite strip_prefix_char_before.
    + rewrite (IH HX').
      by destruct (JS.find_first (pre +:+ String c post) (T0 +:+ T1)) as [[? ?]|].
    + rewrite all_chars_app. by rewrite HX, HT0.
    + rewrite strlen_app. unfold JS.strlen in *. cbn [String.length]. lia.
Qed.

(** ... and no match at all when too little text is left after [X]. *)
Lemma find_first_no_room pre c post X Y :
  JS.all_chars (fun d => negb (Ascii.eqb d c)) X = true ->
  (JS.strlen Y <= JS.strlen post)%nat ->
  JS.find_first (pre +:+ String c post) (X +:+ Y) = None.
Proof.
  intros HX Hlen. induction X as [|d X IH].
  - cbn [String.append]. apply find_first_short.
    rewrite strlen_app. unfold JS.strlen in *. cbn [String.length]. lia.
  - pose proof HX as HX'. cbn [JS.all_chars] in HX'.
    apply andb_true_iff in HX' as [_ HX'].
    change (String d X +:+ Y) with (String d (X +:+ Y)).
    cbn [JS.find_first]. rewrite (IH HX').
    change (String d (X +:+ Y)) with (String d X +:+ Y).
    destruct (le_lt_dec (JS.strlen (String d X)) (JS.strlen pre)) as [Hle|Hlt].
    + rewrite strip_prefix_short; [done|].
      rewrite !strlen_app. unfold JS.strlen in *. cbn [String.length] in *. lia.
    + by rewrite strip_prefix_char_before.
Qed.

Lemma replace_skip_free text pat repl pre c post X T0 T1 before after :
  pat = pre +:+ String c post ->
  text = X +:+ T0 +:+ T1 ->
  JS.all_chars (fun d => negb (Ascii.eqb d c)) X = true ->
  JS.all_chars (fun d => negb (Ascii.eqb d c)) T0 = true ->
  (JS.strlen pre <= JS.strlen T0)%nat ->
  JS.find_first pat (T0 +:+ T1) = Some (before, after) ->
  plain repl = true ->
  JS.replace pat repl text = X +:+ before +:+ repl +:+ after.
Proof.
  intros -> -> HX HT0 Hlen Hfind Hrepl. unfold JS.replace.
  rewrite find_first_skip_free, Hfind by done.
  rewrite get_substitution_plain by by apply plain_no_dollar.
  by rewrite str_app_assoc.
Qed.

Lemma replace_skip_none text pat repl pre c post X T0 T1 :
  pat = pre +:+ String c post ->
  text = X +:+ T0 +:+ T1 ->
  JS.all_chars (fun d => negb (Ascii.eqb d c)) X = true ->
  JS.all_chars (fun d => negb (Ascii.eqb d c)) T0 = true ->
  (JS.strlen pre <= JS.strlen T0)%nat ->
  JS.find_first pat (T0 +:+ T1) = None ->
  JS.replace pat repl text = text.
Proof.
  intros -> -> HX HT0 Hlen Hfind. unfold JS.replace.
  by rewrite find_first_skip_free, Hfind.
Qed.

Lemma replace_no_room text pat repl pre c post X Y :
  pat = pre +:+ String c post ->
  text = X +:+ Y ->
  JS.all_chars (fun d => negb (Ascii.eqb d c)) X = true ->
  (JS.strlen Y <= JS.strlen post)%nat ->
  JS.replace pat repl text = text.
Proof.
  intros -> -> HX Hlen. unfold JS.replace. by rewrite find_first_no_room.
Qed.

Lemma replace_absent text pat repl pre c post :
  pat = pre +:+ String c post ->
  JS.all_chars (fun d => negb (Ascii.eqb d c)) text = true ->
  JS.replace pat repl text = text.
Proof.
  intros Hpat Htext.
  apply (replace_no_room text pat repl pre c post text EmptyString);
    [done | by rewrite str_app_nil_r | done | unfold JS.strlen; simpl; lia].
Qed.

Lemma plain_id id : JS.all_chars JS.is_id_char id = true -> plain id = true.
Proof.
  apply all_chars_impl. intros c Hc.
  destruct (Ascii.eqb c "$") eqn:E1; [apply Ascii.eqb_eq in E1; by subst|].
  destruct (Ascii.eqb c "{") eqn:E2; [apply Ascii.eqb_eq in E2; by subst|].
  done.
Qed.

Lemma replace_not_found_in text c pat repl p s :
  text = p +:+ s ->
  JS.all_chars (fun d => negb (Ascii.eqb d c)) p = true ->
  JS.find_first (String c pat) s = None ->
  JS.replace (String c pat) repl text = text.
Proof. intros ->. apply replace_not_found. Qed.

Ltac found pat pre post X T0 T1 b a :=
  rewrite (replace_skip_free _ pat _ pre "{"%char post X T0 T1 b a);
    [ | reflexivity | str_norm; reflexivity | no_brace | reflexivity
      | vm_compute; lia | reflexivity | first [done | reflexivity] ].

Ltac not_found pat pre post X T0 T1 :=
  rewrite (replace_skip_none _ pat _ pre "{"%char post X T0 T1);
    [ | reflexivity | str_norm; reflexivity | no_brace | reflexivity
      | vm_compute; lia | reflexivity ].

Ltac absent pat pre post :=
  rewrite (replace_absent _ pat _ pre "{"%char post); [ | reflexivity | no_brace ].

Section Rendering.

Variables id label : string.
Hypothesis plain_id_text : plain id = true.
Hypothesis plain_label : plain label = true.

Let js_head : string := "console.log(" +:+ JS.dq.
Let py_head : string := "print(f" +:+ JS.dq.
Let rust_head : string := "eprintln!(" +:+ JS.dq.
Let go_head : string := "fmt.Printf(" +:+ JS.dq.

Let go_pattern : string :=
  ": %+v" +:+ JS.backslash +:+ "n" +:+ JS.dq +:+ ", {expression}".
Let rust_pattern : string := ": {:?}" +:+ JS.dq +:+ ", {expression}".

Lemma checkpoint_js :
  renderLogLine JS_TS_PATTERN id label None
  = js_head +:+ "[" +:+ id +:+ "] " +:+ label +:+ ":" +:+ JS.dq +:+ ");".
Proof.
  unfold renderLogLine.
  change (log_template JS_TS_PATTERN)
    with (js_head +:+ "[{marker_id}] {label}" +:+ ":" +:+ JS.dq +:+ ", {expression});").
  rewrite render_id_and_label by done.
  found ", {expression}" ", " "expression}"
        (js_head +:+ "[" +:+ id +:+ "] " +:+ label)
        (":" +:+ JS.dq +:+ ", ") "{expression});" (":" +:+ JS.dq) ");".
  absent ": {expression}" ": " "expression}".
  absent ": {{expression}}" ": " "{expression}}".
  absent (": {:?}" +:+ JS.dq +:+ ", {expression}") ": " (":?}" +:+ JS.dq +:+ ", {expression}").
  absent (": %+v" +:+ JS.backslash +:+ "n" +:+ JS.dq +:+ ", {expression}")
         (": %+v" +:+ JS.backslash +:+ "n" +:+ JS.dq +:+ ", ") "expression}".
  str_norm. reflexivity.
Qed.

Lemma checkpoint_python :
  renderLogLine PYTHON_PATTERN id label None
  = py_head +:+ "[" +:+ id +:+ "] " +:+ label +:+ JS.dq +:+ ")".
Proof.
  unfold renderLogLine.
  change (log_template PYTHON_PATTERN)
    with (py_head +:+ "[{marker_id}] {label}" +:+ ": {{expression}}" +:+ JS.dq +:+ ")").
  rewrite render_id_and_label by done.
  not_found ", {expression}" ", " "expression}"
        (py_head +:+ "[" +:+ id +:+ "] " +:+ label)
        ": " ("{{expression}}" +:+ JS.dq +:+ ")").
  not_found ": {expression}" ": " "expression}"
        (py_head +:+ "[" +:+ id +:+ "] " +:+ label)
        ": " ("{{expression}}" +:+ JS.dq +:+ ")").
  found ": {{expression}}" ": " "{expression}}"
        (py_head +:+ "[" +:+ id +:+ "] " +:+ label)
        ": " ("{{expression}}" +:+ JS.dq +:+ ")") EmptyString (JS.dq +:+ ")").
  absent rust_pattern ": " (":?}" +:+ JS.dq +:+ ", {expression}").
  absent go_pattern (": %+v" +:+ JS.backslash +:+ "n" +:+ JS.dq +:+ ", ") "expression}".
  str_norm. reflexivity.
Qed.

Lemma checkpoint_rust :
  renderLogLine RUST_PATTERN id label None
  = rust_head +:+ "[" +:+ id +:+ "] " +:+ label +:+ ": {:?}" +:+ JS.dq +:+ ");".
Proof.
  unfold renderLogLine.
  change (log_template RUST_PATTERN)
    with (rust_head +:+ "[{marker_id}] {label}" +:+ ": {:?}" +:+ JS.dq
            +:+ ", {expression});").
  rewrite render_id_and_label by done.
  found ", {expression}" ", " "expression}"
        (rust_head +:+ "[" +:+ id +:+ "] " +:+ label)
        ": " ("{:?}" +:+ JS.dq +:+ ", {expression});")
        (": {:?}" +:+ JS.dq) ");".
  not_found ": {expression}" ": " "expression}"
        (rust_head +:+ "[" +:+ id +:+ "] " +:+ label)
        ": " ("{:?}" +:+ JS.dq +:+ ");").
  not_found ": {{expression}}" ": " "{expression}}"
        (rust_head +:+ "[" +:+ id +:+ "] " +:+ label)
        ": " ("{:?}" +:+ JS.dq +:+ ");").
  not_found rust_pattern ": " (":?}" +:+ JS.dq +:+ ", {expression}")
        (rust_head +:+ "[" +:+ id +:+ "] " +:+ label)
        ": " ("{:?}" +:+ JS.dq +:+ ");").
  rewrite (replace_no_room _ go_pattern _
             (": %+v" +:+ JS.backslash +:+ "n" +:+ JS.dq +:+ ", ") "{"%char
             "expression}"
             (rust_head +:+ "[" +:+ id +:+ "] " +:+ label +:+ ": ")
             ("{:?}" +:+ JS.dq +:+ ");"));
    [ | reflexivity | str_norm; reflexivity | no_brace | vm_compute; lia ].
  str_norm. reflexivity.
Qed.

Lemma checkpoint_go :
  renderLogLine GO_PATTERN id label None
  = go_head +:+ "[" +:+ id +:+ "] " +:+ label +:+ ": %+v" +:+ JS.backslash
      +:+ "n" +:+ JS.dq +:+ ")".
Proof.
  unfold renderLogLine.
  change (log_template GO_PATTERN)
    with (go_head +:+ "[{marker_id}] {label}" +:+ ": %+v" +:+ JS.backslash
            +:+ "n" +:+ JS.dq +:+ ", {expression})").
  rewrite render_id_and_label by done.
  found ", {expression}" ", " "expression}"
        (go_head +:+ "[" +:+ id +:+ "] " +:+ label)
        (": %+v" +:+ JS.backslash +:+ "n" +:+ JS.dq +:+ ", ") "{expression})"
        (": %+v" +:+ JS.backslash +:+ "n" +:+ JS.dq) ")".
  absent ": {expression}" ": " "expression}".
  absent ": {{expression}}" ": " "{expression}}".
  absent rust_pattern ": " (":?}" +:+ JS.dq +:+ ", {expression}").
  absent go_pattern (": %+v" +:+ JS.backslash +:+ "n" +:+ JS.dq +:+ ", ") "expression}".
  str_norm. reflexivity.
Qed.

Variable expression : string.
Hypothesis plain_expression : plain expression = true.
Hypothesis given : JS.truthy expression = true.

Lemma no_double_brace tail :
  JS.all_chars (fun d => negb (Ascii.eqb d "{")) tail = true ->
  JS.find_first "{{expression}}" (String "{" (expression +:+ tail)) = None.
Proof.
  intros Htail. apply find_first_next.
  - destruct expression as [|c e]; [done|].
    apply plain_no_brace in plain_expression. cbn [JS.all_chars] in plain_expression.
    apply andb_true_iff in plain_expression as [Hc _].
    apply negb_true_iff in Hc.
    cbn [String.append JS.strip_prefix]. rewrite Ascii.eqb_refl.
    by rewrite Ascii.eqb_sym, Hc.
  - apply find_first_absent. rewrite all_chars_app, Htail.
    by rewrite plain_no_brace.
Qed.

Lemma statement_js :
  renderLogLine JS_TS_PATTERN id label (Some expression)
  = js_head +:+ "[" +:+ id +:+ "] " +:+ label +:+ ":" +:+ JS.dq +:+ ", "
      +:+ expression +:+ ");".
Proof.
  unfold renderLogLine. rewrite given.
  change (log_template JS_TS_PATTERN)
    with (js_head +:+ "[{marker_id}] {label}" +:+ ":" +:+ JS.dq +:+ ", {expression});").
  rewrite render_id_and_label by done.
  found "{expression}" EmptyString "expression}"
        (js_head +:+ "[" +:+ id +:+ "] " +:+ label)
        (":" +:+ JS.dq +:+ ", ") "{expression});" (":" +:+ JS.dq +:+ ", ") ");".
  absent "{{expression}}" EmptyString "{expression}}".
  str_norm. reflexivity.
Qed.

Lemma statement_python :
  renderLogLine PYTHON_PATTERN id label (Some expression)
  = py_head +:+ "[" +:+ id +:+ "] " +:+ label +:+ ": {" +:+ expression +:+ "}"
      +:+ JS.dq +:+ ")".
Proof.
  unfold renderLogLine. rewrite given.
  change (log_template PYTHON_PATTERN)
    with (py_head +:+ "[{marker_id}] {label}" +:+ ": {{expression}}" +:+ JS.dq +:+ ")").
  rewrite render_id_and_label by done.
  found "{expression}" EmptyString "expression}"
        (py_head +:+ "[" +:+ id +:+ "] " +:+ label)
        ": " ("{{expression}}" +:+ JS.dq +:+ ")") ": {" ("}" +:+ JS.dq +:+ ")").
  rewrite (replace_not_found_in _ "{" "{expression}}" _
             (py_head +:+ "[" +:+ id +:+ "] " +:+ label +:+ ": ")
             (String "{" (expression +:+ "}" +:+ JS.dq +:+ ")")));
    [ | str_norm; reflexivity | no_brace | by apply no_double_brace ].
  str_norm. reflexivity.
Qed.

Lemma statement_rust :
  renderLogLine RUST_PATTERN id label (Some expression)
  = rust_head +:+ "[" +:+ id +:+ "] " +:+ label +:+ ": {:?}" +:+ JS.dq +:+ ", "
      +:+ expression +:+ ");".
Proof.
  unfold renderLogLine. rewrite given.
  change (log_template RUST_PATTERN)
    with (rust_head +:+ "[{marker_id}] {label}" +:+ ": {:?}" +:+ JS.dq
            +:+ ", {expression});").
  rewrite render_id_and_label by done.
  found "{expression}" EmptyString "expression}"
        (rust_head +:+ "[" +:+ id +:+ "] " +:+ label)
        ": " ("{:?}" +:+ JS.dq +:+ ", {expression});")
        (": {:?}" +:+ JS.dq +:+ ", ") ");".
  rewrite (replace_not_found_in _ "{" "{expression}}" _
             (rust_head +:+ "[" +:+ id +:+ "] " +:+ label +:+ ": ")
             (String "{" (String ":" ("?}" +:+ JS.dq +:+ ", " +:+ expression +:+ ");"))));
    [ str_norm; reflexivity | str_norm; reflexivity | no_brace | ].
  apply find_first_next; [reflexivity|].
  apply find_first_absent. cbn [JS.all_chars].
  apply andb_true_iff; split; [reflexivity | no_brace].
Qed.

Lemma statement_go :
  renderLogLine GO_PATTERN id label (Some expression)
  = go_head +:+ "[" +:+ id +:+ "] " +:+ label +:+ ": %+v" +:+ JS.backslash
      +:+ "n" +:+ JS.dq +:+ ", " +:+ expression +:+ ")".
Proof.
  unfold renderLogLine. rewrite given.
  change (log_template GO_PATTERN)
    with (go_head +:+ "[{marker_id}] {label}" +:+ ": %+v" +:+ JS.backslash
            +:+ "n" +:+ JS.dq +:+ ", {expression})").
  rewrite render_id_and_label by done.
  found "{expression}" EmptyString "expression}"
        (go_head +:+ "[" +:+ id +:+ "] " +:+ label)
        (": %+v" +:+ JS.backslash +:+ "n" +:+ JS.dq +:+ ", ") "{expression})"
        (": %+v" +:+ JS.backslash +:+ "n" +:+ JS.dq +:+ ", ") ")".
  absent "{{expression}}" EmptyString "{expression}}".
  str_norm. reflexivity.
Qed.

End Rendering.

(** X2.  With an expression, and with id, label and expression free of the
    dollar sign and the opening brace, each of the four patterns prints the
    tag, the label and the value of the expression, in its language. *)
Theorem statement_prints_label_and_expression id label expression :
  plain id = true -> plain label = true -> plain expression = true ->
  JS.truthy expression = true ->
  renderLogLine JS_TS_PATTERN id label (Some expression)
    = "console.log(" +:+ JS.dq +:+ "[" +:+ id +:+ "] " +:+ label +:+ ":"
        +:+ JS.dq +:+ ", " +:+ expression +:+ ");"
  /\ renderLogLine PYTHON_PATTERN id label (Some expression)
    = "print(f" +:+ JS.dq +:+ "[" +:+ id +:+ "] " +:+ label +:+ ": {"
        +:+ expression +:+ "}" +:+ JS.dq +:+ ")"
  /\ renderLogLine RUST_PATTERN id label (Some expression)
    = "eprintln!(" +:+ JS.dq +:+ "[" +:+ id +:+ "] " +:+ label +:+ ": {:?}"
        +:+ JS.dq +:+ ", " +:+ expression +:+ ");"
  /\ renderLogLine GO_PATTERN id label (Some expression)
    = "fmt.Printf(" +:+ JS.dq +:+ "[" +:+ id +:+ "] " +:+ label +:+ ": %+v"
        +:+ JS.backslash +:+ "n" +:+ JS.dq +:+ ", " +:+ expression +:+ ")".
Proof.
  intros Hid Hlabel Hexpr Hgiven.
  rewrite statement_js, statement_python, statement_rust, statement_go by done.
  repeat split; str_norm; reflexivity.
Qed.

Lemma statement_sample :
  renderLogLine JS_TS_PATTERN "p7777777" "user id" (Some "user.id")
    = "console.log(" +:+ JS.dq +:+ "[" +:+ "p7777777" +:+ "] " +:+ "user id" +:+ ":"
        +:+ JS.dq +:+ ", " +:+ "user.id" +:+ ");"
  /\ renderLogLine PYTHON_PATTERN "p7777777" "user id" (Some "user.id")
    = "print(f" +:+ JS.dq +:+ "[" +:+ "p7777777" +:+ "] " +:+ "user id" +:+ ": {"
        +:+ "user.id" +:+ "}" +:+ JS.dq +:+ ")"
  /\ renderLogLine RUST_PATTERN "p7777777" "user id" (Some "user.id")
    = "eprintln!(" +:+ JS.dq +:+ "[" +:+ "p7777777" +:+ "] " +:+ "user id" +:+ ": {:?}"
        +:+ JS.dq +:+ ", " +:+ "user.id" +:+ ");"
  /\ renderLogLine GO_PATTERN "p7777777" "user id" (Some "user.id")
    = "fmt.Printf(" +:+ JS.dq +:+ "[" +:+ "p7777777" +:+ "] " +:+ "user id" +:+ ": %+v"
        +:+ JS.backslash +:+ "n" +:+ JS.dq +:+ ", " +:+ "user.id" +:+ ")".
Proof.
  apply (statement_prints_label_and_expression "p7777777" "user id" "user.id");
    reflexivity.
Defined.

(** X3.  Without an expression (absent or empty), and with id and label free
    of the dollar sign and the opening brace, the JavaScript and Python
    statements print the tag and the label alone, while the Rust and Go
    statements keep their format specifier with no argument for it. *)
Theorem checkpoint_statement_of_each_pattern id label expression :
  plain id = true -> plain label = true ->
  expression = None \/ expression = Some EmptyString ->
  renderLogLine JS_TS_PATTERN id label expression
    = "console.log(" +:+ JS.dq +:+ "[" +:+ id +:+ "] " +:+ label +:+ ":"
        +:+ JS.dq +:+ ");"
  /\ renderLogLine PYTHON_PATTERN id label expression
    = "print(f" +:+ JS.dq +:+ "[" +:+ id +:+ "] " +:+ label +:+ JS.dq +:+ ")"
  /\ renderLogLine RUST_PATTERN id label expression
    = "eprintln!(" +:+ JS.dq +:+ "[" +:+ id +:+ "] " +:+ label +:+ ": {:?}"
        +:+ JS.dq +:+ ");"
  /\ renderLogLine GO_PATTERN id label expression
    = "fmt.Printf(" +:+ JS.dq +:+ "[" +:+ id +:+ "] " +:+ label +:+ ": %+v"
        +:+ JS.backslash +:+ "n" +:+ JS.dq +:+ ")".
Proof.
  intros Hid Hlabel Hexpr.
  assert (forall pattern, renderLogLine pattern id label expression
                          = renderLogLine pattern id label None) as Hnone
    by (intros pattern; by destruct Hexpr as [-> | ->]).
  rewrite !Hnone.
  rewrite checkpoint_js, checkpoint_python, checkpoint_rust, checkpoint_go by done.
  repeat split; str_norm; reflexivity.
Qed.

Lemma checkpoint_statement_sample :
  renderLogLine JS_TS_PATTERN "p7777777" "a: b, c" (Some EmptyString)
    = "console.log(" +:+ JS.dq +:+ "[" +:+ "p7777777" +:+ "] " +:+ "a: b, c" +:+ ":"
        +:+ JS.dq +:+ ");"
  /\ renderLogLine PYTHON_PATTERN "p7777777" "a: b, c" (Some EmptyString)
    = "print(f" +:+ JS.dq +:+ "[" +:+ "p7777777" +:+ "] " +:+ "a: b, c" +:+ JS.dq +:+ ")"
  /\ renderLogLine RUST_PATTERN "p7777777" "a: b, c" (Some EmptyString)
    = "eprintln!(" +:+ JS.dq +:+ "[" +:+ "p7777777" +:+ "] " +:+ "a: b, c" +:+ ": {:?}"
        +:+ JS.dq +:+ ");"
  /\ renderLogLine GO_PATTERN "p7777777" "a: b, c" (Some EmptyString)
    = "fmt.Printf(" +:+ JS.dq +:+ "[" +:+ "p7777777" +:+ "] " +:+ "a: b, c" +:+ ": %+v"
        +:+ JS.backslash +:+ "n" +:+ JS.dq +:+ ")".
Proof.
  apply (checkpoint_statement_of_each_pattern "p7777777" "a: b, c" (Some EmptyString));
    [reflexivity | reflexivity | by right].
Defined.

(** The tag of the statement, an opening bracket followed by the id, is not a
    marker tag. *)
Lemma not_a_tag head id rest :
  no_bracket head = true -> well_formed_id id = true ->
  no_bracket rest = true ->
  extractMarkerId (head +:+ "[" +:+ id +:+ rest) = None.
Proof.
  intros Hhead Hid Hrest. rewrite extract_skip by done.
  unfold well_formed_id in Hid. apply andb_true_iff in Hid as [Hne Hchars].
  change ("[" +:+ id +:+ rest) with (String "[" (id +:+ rest)).
  cbn [extractMarkerId].
  assert (match_tag (String "[" (id +:+ rest)) = None) as ->.
  { destruct id as [|c id]; [done|]. cbn [JS.all_chars] in Hchars.
    apply andb_true_iff in Hchars as [Hc _].
    unfold match_tag. cbn [String.append JS.strip_prefix].
    rewrite Ascii.eqb_refl.
    destruct (Ascii.eqb "D" c) eqn:E; [|done].
    apply Ascii.eqb_eq in E. by subst c. }
  apply extract_no_bracket. unfold no_bracket in *.
  rewrite all_chars_app, Hrest, andb_true_r.
  by apply id_chars_no_bracket.
Qed.

Ltac no_bracket_tac :=
  unfold no_bracket, JS.dq, JS.backslash in *;
  rewrite ?all_chars_app, ?andb_true_iff; repeat split; done.

Lemma well_formed_plain id : well_formed_id id = true -> plain id = true.
Proof.
  unfold well_formed_id. rewrite andb_true_iff. intros [_ H]. by apply plain_id.
Qed.

(** The statement of a block holds no marker tag when label and expression
    hold no opening bracket (and none of the characters [replace] reads). *)
Lemma statement_has_no_tag pattern id label expression :
  pattern ∈ ALL_PATTERNS -> well_formed_id id = true ->
  plain label = true -> no_bracket label = true ->
  from_option (fun e => plain e && no_bracket e) true expression = true ->
  extractMarkerId (renderLogLine pattern id label expression) = None.
Proof.
  intros Hp Hid Hlabel Hlabel' Hexpr.
  pose proof (well_formed_plain id Hid) as Hid'.
  assert (expression = None \/ expression = Some EmptyString
          \/ exists e, expression = Some e /\ JS.truthy e = true
                       /\ plain e = true /\ no_bracket e = true) as Hcases.
  { destruct expression as [[|c e]|]; [by right; left | | by left].
    right; right. exists (String c e). cbn [from_option] in Hexpr.
    apply andb_true_iff in Hexpr as [? ?]. done. }
  assert (forall p, renderLogLine p id label (Some EmptyString)
                    = renderLogLine p id label None) as Hempty by done.
  unfold ALL_PATTERNS in Hp. rewrite !elem_of_cons, elem_of_nil in Hp.
  destruct Hcases as [->|[->|(e & -> & Hgiven & He & He')]];
    rewrite ?Hempty;
    destruct Hp as [->|[->|[->|[->|[]]]]];
    rewrite ?checkpoint_js, ?checkpoint_python, ?checkpoint_rust, ?checkpoint_go,
      ?statement_js, ?statement_python, ?statement_rust, ?statement_go by done;
    apply not_a_tag; first [done | no_bracket_tac].
Qed.

(** ** Marker lines and the ids read from them *)

Lemma span_app p s : fst (JS.span p s) +:+ snd (JS.span p s) = s.
Proof.
  induction s as [|c s IH]; [done|]. cbn [JS.span].
  destruct (p c); [|done]. destruct (JS.span p s) as [a b]. simpl in *.
  by rewrite IH.
Qed.

Lemma match_tag_spec s id after :
  match_tag s = Some (id, after) ->
  s = "[DEBUG-HELPER:" +:+ id +:+ String "]" after /\ well_formed_id id = true.
Proof.
  unfold match_tag. destruct (JS.strip_prefix "[DEBUG-HELPER:" s) as [rest|] eqn:E;
    [|done].
  apply strip_prefix_spec in E.
  pose proof (span_app JS.is_id_char rest) as Happ.
  pose proof (span_fst_all JS.is_id_char rest) as Hall.
  destruct (JS.span JS.is_id_char rest) as [[|c i] [|d after']]; try done.
  destruct (Ascii.eqb d "]") eqn:Ed.
  - apply Ascii.eqb_eq in Ed. subst d. intros [= <- <-].
    cbn [fst snd] in *. split; [by rewrite E, <- Happ | done].
  - intros H. exfalso. revert H Ed. clear.
    destruct d as [[] [] [] [] [] [] [] []]; try done.
Qed.

Lemma extract_spec l id :
  extractMarkerId l = Some id ->
  well_formed_id id = true
  /\ exists prefix suffix,
       l = prefix +:+ "[DEBUG-HELPER:" +:+ id +:+ String "]" suffix.
Proof.
  induction l as [|c l IH]; cbn [extractMarkerId].
  - destruct (match_tag EmptyString) as [[? ?]|] eqn:E; [|done].
    by vm_compute in E.
  - destruct (match_tag (String c l)) as [[i after]|] eqn:E.
    + intros [= ->]. apply match_tag_spec in E as [E Hwf].
      split; [done|]. by exists EmptyString, after.
    + intros H. destruct (IH H) as (Hwf & prefix & suffix & ->).
      split; [done|]. by exists (String c prefix), suffix.
Qed.

Lemma space_no_bracket indent :
  JS.all_chars JS.is_space indent = true -> no_bracket indent = true.
Proof.
  apply all_chars_impl. intros c Hc.
  destruct (Ascii.eqb c "[") eqn:E; [|done].
  apply Ascii.eqb_eq in E. by subst c.
Qed.

(** X4.  The marker comments the four patterns write are read back by the
    recognisers exactly when the id is well formed (not empty, lowercase
    letters and digits): then the start line is a start marker of that id and
    never an end marker, and the end line the converse; a block written for
    any other id is not recognised. *)
Theorem marker_lines_are_read_back_iff_id_is_well_formed pattern indent id :
  pattern ∈ ALL_PATTERNS -> JS.all_chars JS.is_space indent = true ->
  starts id (indent +:+ start_marker pattern id) = well_formed_id id
  /\ ends id (indent +:+ end_marker pattern id) = well_formed_id id
  /\ ends id (indent +:+ start_marker pattern id) = false
  /\ starts id (indent +:+ end_marker pattern id) = false.
Proof.
  intros Hp Hindent. apply space_no_bracket in Hindent.
  destruct (well_formed_id id) eqn:Hwf.
  - destruct (start_line_facts pattern indent id Hp Hindent Hwf) as (S1 & S2 & S3).
    destruct (end_line_facts pattern indent id Hp Hindent Hwf) as (E1 & E2 & E3).
    unfold starts, ends. rewrite S1, S2, S3, E1, E2, E3.
    by rewrite !bool_decide_eq_true_2.
  - assert (forall l, bool_decide (extractMarkerId l = Some id) = false) as Hno.
    { intros l. apply bool_decide_eq_false. intros H.
      apply extract_spec in H as [H _]. congruence. }
    unfold starts, ends. rewrite !Hno. by rewrite !andb_false_r.
Qed.

Lemma marker_lines_sample :
  starts "p7777777" ("  " +:+ start_marker PYTHON_PATTERN "p7777777")
    = well_formed_id "p7777777"
  /\ ends "p7777777" ("  " +:+ end_marker PYTHON_PATTERN "p7777777")
    = well_formed_id "p7777777"
  /\ ends "p7777777" ("  " +:+ start_marker PYTHON_PATTERN "p7777777") = false
  /\ starts "p7777777" ("  " +:+ end_marker PYTHON_PATTERN "p7777777") = false.
Proof.
  apply (marker_lines_are_read_back_iff_id_is_well_formed PYTHON_PATTERN "  "
           "p7777777");
    [apply list_elem_of_further, list_elem_of_here | reflexivity].
Defined.

(** X5.  An id read from a line is well formed and stands in the line inside
    a tag; and a line that tests as a start or an end marker always yields an
    id, so the guard on the id in the scan never fails. *)
Theorem extracted_id_is_well_formed_and_tagged l :
  (forall id, extractMarkerId l = Some id ->
     well_formed_id id = true
     /\ exists prefix suffix,
          l = prefix +:+ "[DEBUG-HELPER:" +:+ id +:+ String "]" suffix)
  /\ (isStartMarker l = true \/ isEndMarker l = true ->
      exists id, extractMarkerId l = Some id /\ JS.truthy id = true).
Proof.
  split; [apply extract_spec|].
  intros H. destruct (extractMarkerId l) as [id|] eqn:E.
  - exists id. split; [done|]. by eapply extract_truthy.
  - unfold isStartMarker, isEndMarker in H.
    rewrite !test_tag_needs_tag in H by done. by destruct H.
Qed.

Lemma extracted_id_sample :
  (forall id, extractMarkerId "x(); // [DEBUG-HELPER:ab12] END" = Some id ->
     well_formed_id id = true
     /\ exists prefix suffix,
          "x(); // [DEBUG-HELPER:ab12] END"
          = prefix +:+ "[DEBUG-HELPER:" +:+ id +:+ String "]" suffix)
  /\ (isStartMarker "x(); // [DEBUG-HELPER:ab12] END" = true
      \/ isEndMarker "x(); // [DEBUG-HELPER:ab12] END" = true ->
      exists id, extractMarkerId "x(); // [DEBUG-HELPER:ab12] END" = Some id
                 /\ JS.truthy id = true).
Proof. apply (extracted_id_is_well_formed_and_tagged _). Defined.

(** ** What a scan reports *)

Lemma is_block_of_more done l b :
  is_block_of done b -> is_block_of (done ++ [l]) b.
Proof.
  intros (pre & s & body & e & post & -> & ?).
  exists pre, s, body, e, (post ++ [l]). split; [|done].
  rewrite <- !app_assoc. cbn [app]. rewrite <- !app_assoc. by cbn [app].
Qed.

Lemma is_block_of_end done b :
  is_block_of done b -> (endLine b <= length done)%nat.
Proof.
  intros (pre & s & body & e & post & -> & _ & -> & _).
  rewrite !length_app. cbn [length]. rewrite length_app. cbn [length]. lia.
Qed.

Lemma in_file_order_snoc bs b :
  in_file_order bs ->
  Forall (fun a => (endLine a < startLine b)%nat) bs ->
  in_file_order (bs ++ [b]).
Proof.
  induction bs as [|a bs IH]; cbn [in_file_order app]; [done|].
  intros [Ha Hbs] Hall. apply Forall_cons in Hall as [Hab Hall]. split.
  - apply Forall_app. split; [done|]. by apply Forall_singleton.
  - by apply IH.
Qed.

Lemma ends_false_of_other id l :
  extractMarkerId l <> Some id -> ends id l = false.
Proof.
  intros H. unfold ends. rewrite bool_decide_eq_false_2 by done.
  apply andb_false_r.
Qed.

Lemma scan_step_inv done l st :
  scan_inv done st -> scan_inv (done ++ [l]) (scan_step (length done) l st).
Proof.
  destruct st as [cur bs]. intros (Hbs & Hord & Hcur). cbn [fst snd] in *.
  assert (Forall (is_block_of (done ++ [l])) bs) as Hbs'.
  { eapply Forall_impl; [exact Hbs|]. intros b. apply is_block_of_more. }
  unfold scan_step. destruct (isStartMarker l) eqn:Hstart.
  - (* a start marker opens a block, whatever was open *)
    destruct (extractMarkerId l) as [id|] eqn:Hid.
    2:{ unfold isStartMarker in Hstart.
        by rewrite test_tag_needs_tag in Hstart. }
    rewrite (extract_truthy l id Hid).
    split; [done|]. split; [done|]. cbn [fst snd]. split.
    + exists done, l, []. cbn [open_startLine open_markerId open_lines].
      split; [done|]. split; [lia|]. split; [|by split].
      unfold starts. by rewrite Hstart, Hid, bool_decide_eq_true_2.
    + cbn [open_startLine]. eapply Forall_impl; [exact Hbs|].
      intros b Hb%is_block_of_end. lia.
  - destruct cur as [c|]; cbn [bool_decide andb].
    2:{ rewrite andb_false_r. by repeat split. }
    destruct Hcur as [(pre & s & body & -> & Hline & Hs & Hbody & Hlines) Hbefore].
    rewrite bool_decide_eq_true_2 by by eexists. rewrite andb_true_r.
    destruct (isEndMarker l) eqn:Hend.
    + case_bool_decide as Hid.
      * (* the end marker of the open block closes it *)
        cbn [fst snd]. split; [|split; [|done]].
        -- apply Forall_app. split; [done|]. apply Forall_singleton.
           exists pre, s, body, l, []. cbn [markerId startLine endLine content].
           split; [by rewrite <- app_assoc|].
           split; [done|]. split.
           { rewrite length_app. cbn [length]. lia. }
           split; [done|]. split; [done|]. split; [done|]. split.
           { unfold ends. by rewrite Hend, Hid, bool_decide_eq_true_2. }
           by rewrite Hlines.
        -- apply in_file_order_snoc; [done|]. cbn [startLine]. done.
      * (* an end marker of another id is skipped *)
        split; [done|]. split; [done|]. cbn [fst snd]. split; [|done].
        exists pre, s, (body ++ [l]).
        split; [by rewrite <- app_assoc|]. split; [done|]. split; [done|]. split.
        { apply Forall_app. split; [done|]. apply Forall_singleton.
          split; [done|]. by apply ends_false_of_other. }
        rewrite filter_app, filter_cons_False, filter_nil, app_nil_r;
          [done | by rewrite Hend].
    + (* any other line is absorbed *)
      split; [done|]. split; [done|]. cbn [fst snd open_startLine]. split; [|done].
      exists pre, s, (body ++ [l]). cbn [open_startLine open_markerId open_lines].
      split; [by rewrite <- app_assoc|]. split; [done|]. split; [done|]. split.
      { apply Forall_app. split; [done|]. apply Forall_singleton.
        split; [done|]. unfold ends. by rewrite Hend. }
      rewrite filter_app, filter_cons_True, filter_nil by done.
      by rewrite Hlines.
Qed.

Lemma scan_loop_inv rest done st :
  scan_inv done st ->
  scan_inv (done ++ rest) (scan_loop (length done) rest st).
Proof.
  revert done st. induction rest as [|l rest IH]; intros done st Hinv.
  - by rewrite app_nil_r.
  - cbn [scan_loop].
    replace (done ++ l :: rest) with ((done ++ [l]) ++ rest)
      by (by rewrite <- app_assoc).
    replace (S (length done)) with (length (done ++ [l]))
      by (rewrite length_app; cbn [length]; lia).
    apply IH. by apply scan_step_inv.
Qed.

(** X6.  Every block a scan reports is a block of the file: at its start
    line stands a start marker line of its id, at its end line the next end
    marker line of that id, with no start marker line in between, and its
    content is those lines without the end marker lines of other ids; the
    blocks are reported in file order and do not overlap. *)
Theorem scan_reports_only_blocks_of_the_file content filePath :
  Forall (is_block_of (JS.split content))
         (findInstrumentationBlocks content filePath)
  /\ in_file_order (findInstrumentationBlocks content filePath).
Proof.
  unfold findInstrumentationBlocks.
  destruct (scan_loop_inv (JS.split content) [] (None, [])) as (H1 & H2 & _).
  - by repeat split.
  - done.
Qed.

(** ** Removing blocks *)

Lemma remove_loop_sublist id b lines : remove_loop id b lines `sublist_of` lines.
Proof.
  revert b. induction lines as [|l lines IH]; intros b; cbn [remove_loop];
    [constructor|].
  destruct (starts id l); [by apply sublist_cons_r; left|].
  destruct (ends id l); [by apply sublist_cons_r; left|].
  destruct b; [by apply sublist_cons_r; left|]. by constructor.
Qed.

Lemma remove_loop_clean id b lines :
  Forall (fun l => carries id l = false) (remove_loop id b lines).
Proof.
  revert b. induction lines as [|l lines IH]; intros b; cbn [remove_loop];
    [constructor|].
  destruct (starts id l) eqn:Hs; [apply IH|].
  destruct (ends id l) eqn:He; [apply IH|].
  destruct b; [apply IH|]. constructor; [|apply IH].
  unfold carries. by rewrite Hs, He.
Qed.

Lemma sublist_Forall_keep {A} (P : A -> Prop) (kept l : list A) :
  kept `sublist_of` l -> Forall P l -> Forall P kept.
Proof.
  intros Hsub Hall. rewrite Forall_forall in *. intros x Hx.
  apply Hall. by eapply elem_of_sublist.
Qed.

Lemma sublist_single_lines (kept lines : list string) :
  kept `sublist_of` lines ->
  Forall (fun l => single_line l = true) lines ->
  Forall (fun l => single_line l = true) kept.
Proof.
  intros Hsub Hall. rewrite Forall_forall in *. intros l Hl.
  apply Hall. by eapply elem_of_sublist.
Qed.

(** A join of some lines of a text that gives the text back is the join of
    all its lines. *)
Lemma join_kept_is_content content (kept : list string) :
  kept `sublist_of` JS.split content ->
  (kept = [] -> content = EmptyString -> False) ->
  JS.join kept = content -> kept = JS.split content.
Proof.
  intros Hsub Hempty Hjoin.
  destruct (decide (kept = [])) as [->|Hne].
  - exfalso. by apply Hempty.
  - rewrite <- Hjoin. symmetry. apply split_join_lines; [done|].
    eapply sublist_single_lines; [done|]. apply split_lines_single.
Qed.

Lemma empty_line_is_no_marker :
  isStartMarker EmptyString = false /\ isEndMarker EmptyString = false.
Proof. by vm_compute. Qed.

Lemma carries_empty id : carries id EmptyString = false.
Proof.
  unfold carries, starts, ends.
  by destruct empty_line_is_no_marker as [-> ->].
Qed.

Lemma remove_unchanged_clean content id :
  removeInstrumentationBlock content id = content ->
  Forall (fun l => carries id l = false) (JS.split content).
Proof.
  unfold removeInstrumentationBlock. intros Hjoin.
  apply join_kept_is_content in Hjoin as Hkept; [| apply remove_loop_sublist |].
  - rewrite <- Hkept. apply remove_loop_clean.
  - intros Hnil ->. cbn [JS.split remove_loop] in Hnil.
    pose proof (carries_empty id) as Hc. unfold carries in Hc.
    apply orb_false_iff in Hc as [Hs He]. by rewrite Hs, He in Hnil.
Qed.

Lemma remove_unchanged_keep content id :
  Forall (fun l => carries id l = false) (JS.split content) ->
  removeInstrumentationBlock content id = content.
Proof.
  unfold removeInstrumentationBlock. intros Hall.
  pose proof (remove_loop_keep id (JS.split content) [] Hall) as H.
  rewrite app_nil_r in H. cbn [remove_loop] in H. rewrite app_nil_r in H.
  rewrite H. apply join_split.
Qed.

(** The lines of a join of lines of a text, none of which passes a test the
    empty line fails. *)
Lemma split_join_kept (p : string -> bool) content (kept : list string) :
  kept `sublist_of` JS.split content ->
  p EmptyString = false ->
  Forall (fun l => p l = false) kept ->
  Forall (fun l => p l = false) (JS.split (JS.join kept)).
Proof.
  intros Hsub Hempty Hall. destruct (decide (kept = [])) as [->|Hne].
  - cbn [JS.join JS.split]. by apply Forall_singleton.
  - rewrite split_join_lines; [done|done|].
    eapply sublist_single_lines; [done|]. apply split_lines_single.
Qed.

(** X7.  Removing the block of an id leaves the text as it is exactly when no
    line of the text is a start or an end marker line of that id: the case
    the remove tool reports as already gone. *)
Theorem remove_block_changes_nothing_iff_no_marker_line content id :
  removeInstrumentationBlock content id = content
  <-> Forall (fun l => carries id l = false) (JS.split content).
Proof.
  split; [apply remove_unchanged_clean | apply remove_unchanged_keep].
Qed.

(** X8.  The result of removing the block of an id is the join of some of
    the lines of the text, in their order; none of its lines is a start or an
    end marker line of the id; and removing the same id again changes
    nothing. *)
Theorem remove_block_keeps_order_and_is_idempotent content id :
  (exists kept,
     removeInstrumentationBlock content id = JS.join kept
     /\ kept `sublist_of` JS.split content)
  /\ Forall (fun l => carries id l = false)
            (JS.split (removeInstrumentationBlock content id))
  /\ removeInstrumentationBlock (removeInstrumentationBlock content id) id
     = removeInstrumentationBlock content id.
Proof.
  assert (Forall (fun l => carries id l = false)
            (JS.split (removeInstrumentationBlock content id))) as Hclean.
  { apply (split_join_kept (carries id) content);
      [apply remove_loop_sublist | apply carries_empty | apply remove_loop_clean]. }
  split; [|split; [done|]].
  - eexists. split; [reflexivity|]. apply remove_loop_sublist.
  - by apply remove_unchanged_keep.
Qed.

Lemma removeAll_loop_sublist b lines : removeAll_loop b lines `sublist_of` lines.
Proof.
  revert b. induction lines as [|l lines IH]; intros b; cbn [removeAll_loop];
    [constructor|].
  destruct (isStartMarker l); [by apply sublist_cons_r; left|].
  destruct (isEndMarker l); [by apply sublist_cons_r; left|].
  destruct b; [by apply sublist_cons_r; left|]. by constructor.
Qed.

Lemma removeAll_loop_clean b lines :
  Forall (fun l => isStartMarker l || isEndMarker l = false)
         (removeAll_loop b lines).
Proof.
  revert b. induction lines as [|l lines IH]; intros b; cbn [removeAll_loop];
    [constructor|].
  destruct (isStartMarker l) eqn:Hs; [apply IH|].
  destruct (isEndMarker l) eqn:He; [apply IH|].
  destruct b; [apply IH|]. constructor; [|apply IH]. by rewrite Hs, He.
Qed.

Lemma removeAll_loop_keep xs rest :
  Forall (fun l => isStartMarker l || isEndMarker l = false) xs ->
  removeAll_loop false (xs ++ rest) = xs ++ removeAll_loop false rest.
Proof.
  induction 1 as [|l xs Hl _ IH]; [done|].
  apply orb_false_iff in Hl as [Hs He].
  cbn [app removeAll_loop]. by rewrite Hs, He, IH.
Qed.

Lemma removeAll_unchanged_iff content :
  removeAllInstrumentationBlocks content = content
  <-> Forall (fun l => isStartMarker l || isEndMarker l = false) (JS.split content).
Proof.
  unfold removeAllInstrumentationBlocks. split.
  - intros Hjoin.
    apply join_kept_is_content in Hjoin as Hkept; [| apply removeAll_loop_sublist |].
    + rewrite <- Hkept. apply removeAll_loop_clean.
    + intros Hnil ->. cbn [JS.split removeAll_loop] in Hnil.
      by destruct empty_line_is_no_marker as [Hs He]; rewrite Hs, He in Hnil.
  - intros Hall.
    pose proof (removeAll_loop_keep (JS.split content) [] Hall) as H.
    rewrite app_nil_r in H. cbn [removeAll_loop] in H. rewrite app_nil_r in H.
    rewrite H. apply join_split.
Qed.

Lemma removeAll_clean content :
  Forall (fun l => isStartMarker l || isEndMarker l = false)
         (JS.split (removeAllInstrumentationBlocks content)).
Proof.
  apply (split_join_kept (fun l => isStartMarker l || isEndMarker l) content);
    [apply removeAll_loop_sublist | | apply removeAll_loop_clean].
  by destruct empty_line_is_no_marker as [-> ->].
Qed.

Lemma scan_loop_no_start i lines bs :
  Forall (fun l => isStartMarker l = false) lines ->
  scan_loop i lines (None, bs) = (None, bs).
Proof.
  intros H. revert i. induction H as [|l lines Hl _ IH]; intros i; [done|].
  cbn [scan_loop]. unfold scan_step. rewrite Hl.
  cbn [bool_decide]. rewrite bool_decide_eq_false_2 by (by intros [? ?]).
  rewrite andb_false_r. apply IH.
Qed.

Lemma scan_nothing_without_start content filePath :
  Forall (fun l => isStartMarker l = false) (JS.split content) ->
  findInstrumentationBlocks content filePath = [].
Proof.
  intros H. unfold findInstrumentationBlocks. by rewrite scan_loop_no_start.
Qed.

(** X9.  Removing all blocks leaves no start or end marker line, so that a
    scan of the result reports nothing; the result is the join of some of the
    lines of the text, in their order; a second removal changes nothing; and
    the text is left as it is exactly when it holds no marker line. *)
Theorem remove_all_leaves_no_marker_line content filePath :
  Forall (fun l => isStartMarker l || isEndMarker l = false)
         (JS.split (removeAllInstrumentationBlocks content))
  /\ findInstrumentationBlocks (removeAllInstrumentationBlocks content) filePath = []
  /\ (exists kept,
        removeAllInstrumentationBlocks content = JS.join kept
        /\ kept `sublist_of` JS.split content)
  /\ removeAllInstrumentationBlocks (removeAllInstrumentationBlocks content)
     = removeAllInstrumentationBlocks content
  /\ (removeAllInstrumentationBlocks content = content
      <-> Forall (fun l => isStartMarker l || isEndMarker l = false)
                 (JS.split content)).
Proof.
  pose proof (removeAll_clean content) as Hclean.
  split; [done|]. split; [|split; [|split]].
  - apply scan_nothing_without_start. eapply Forall_impl; [exact Hclean|].
    intros l Hl. by apply orb_false_iff in Hl as [? ?].
  - eexists. split; [reflexivity|]. apply removeAll_loop_sublist.
  - by apply removeAll_unchanged_iff.
  - apply removeAll_unchanged_iff.
Qed.

Lemma removeAll_loop_blockLines pattern id label expression indent pre post :
  pattern ∈ ALL_PATTERNS -> well_formed_id id = true ->
  no_bracket indent = true ->
  Forall (fun l => isStartMarker l || isEndMarker l = false) pre ->
  Forall (fun l => isStartMarker l || isEndMarker l = false) post ->
  removeAll_loop false
    (pre ++ blockLines pattern id label expression indent ++ post)
  = pre ++ post.
Proof.
  intros Hp Hid Hindent Hpre Hpost.
  destruct (start_line_facts pattern indent id Hp Hindent Hid) as (S1 & _ & _).
  destruct (end_line_facts pattern indent id Hp Hindent Hid) as (E1 & E2 & _).
  rewrite removeAll_loop_keep by done. f_equal.
  assert (removeAll_loop false post = post) as Hrest.
  { pose proof (removeAll_loop_keep post [] Hpost) as H.
    rewrite app_nil_r in H. cbn [removeAll_loop] in H. by rewrite app_nil_r in H. }
  unfold blockLines. cbn [app].
  set (stmt := indent +:+ renderLogLine pattern id label expression).
  cbn [removeAll_loop]. rewrite S1, E1, E2.
  by destruct (isStartMarker stmt), (isEndMarker stmt).
Qed.

(** X10.  In a text without marker lines, inserting a block (a pattern of
    the registry, a well-formed id, a one-line statement) and then removing
    all blocks gives the text back, whatever the statement holds. *)
Theorem insert_then_remove_all_restores_text
    pattern id label expression n content :
  pattern ∈ ALL_PATTERNS -> well_formed_id id = true ->
  single_line (renderLogLine pattern id label expression) = true ->
  Forall (fun l => isStartMarker l || isEndMarker l = false) (JS.split content) ->
  removeAllInstrumentationBlocks
    (insertBlock pattern id label expression n content) = content.
Proof.
  intros Hp Hid Hsingle Hclean. unfold removeAllInstrumentationBlocks.
  rewrite split_insertBlock_single by done.
  rewrite removeAll_loop_blockLines; [| done | done | apply indentOf_no_bracket | |].
  - rewrite take_drop. apply join_split.
  - eapply sublist_Forall_keep; [apply sublist_take | done].
  - eapply sublist_Forall_keep; [apply sublist_drop | done].
Qed.

Lemma insert_then_remove_all_sample :
  removeAllInstrumentationBlocks
    (insertBlock GO_PATTERN "k2j5xq0a" "total [sum]" (Some "a + b") 1
       (JS.join ["func f() {"; "}"]))
  = JS.join ["func f() {"; "}"].
Proof.
  apply (insert_then_remove_all_restores_text GO_PATTERN "k2j5xq0a" "total [sum]"
           (Some "a + b") 1 (JS.join ["func f() {"; "}"])).
  - do 3 apply list_elem_of_further. apply list_elem_of_here.
  - by vm_compute.
  - by vm_compute.
  - apply (bool_decide_unpack _). by vm_compute.
Defined.

(** ** The statement is never taken for a marker line *)

(** X11.  For a pattern of the registry and a well-formed id, with label and
    expression on one line and free of the dollar sign, the opening brace
    and the opening bracket, the statement of the block is one line that
    holds no marker tag: neither scan nor removal takes it for a marker
    line. *)
Theorem statement_is_one_line_without_tag pattern id label expression :
  pattern ∈ ALL_PATTERNS -> well_formed_id id = true ->
  single_line label = true -> plain label = true -> no_bracket label = true ->
  from_option (fun e => single_line e && plain e && no_bracket e) true expression
    = true ->
  single_line (renderLogLine pattern id label expression) = true
  /\ extractMarkerId (renderLogLine pattern id label expression) = None
  /\ isStartMarker (renderLogLine pattern id label expression) = false
  /\ isEndMarker (renderLogLine pattern id label expression) = false.
Proof.
  intros Hp Hid Hline Hplain Hbracket Hexpr.
  assert (extractMarkerId (renderLogLine pattern id label expression) = None)
    as Hnone.
  { apply statement_has_no_tag; try done.
    destruct expression as [e|]; [|done]. cbn [from_option] in *.
    apply andb_true_iff in Hexpr as [Hexpr ?].
    apply andb_true_iff in Hexpr as [? ?]. by apply andb_true_iff. }
  split; [|split; [done|]].
  - apply renderLogLine_single_line; try done.
    + apply id_chars_single_line. unfold well_formed_id in Hid.
      by apply andb_true_iff in Hid as [_ ?].
    + destruct expression as [e|]; [|done]. cbn [from_option] in *.
      apply andb_true_iff in Hexpr as [Hexpr ?].
      by apply andb_true_iff in Hexpr as [? ?].
  - unfold isStartMarker, isEndMarker. by rewrite !test_tag_needs_tag.
Qed.

Lemma statement_without_tag_sample :
  single_line (renderLogLine RUST_PATTERN "3lllllll" "a, b: c" (Some "v.len()"))
    = true
  /\ extractMarkerId (renderLogLine RUST_PATTERN "3lllllll" "a, b: c" (Some "v.len()"))
     = None
  /\ isStartMarker (renderLogLine RUST_PATTERN "3lllllll" "a, b: c" (Some "v.len()"))
     = false
  /\ isEndMarker (renderLogLine RUST_PATTERN "3lllllll" "a, b: c" (Some "v.len()"))
     = false.
Proof.
  apply (statement_is_one_line_without_tag RUST_PATTERN "3lllllll" "a, b: c"
           (Some "v.len()")); try reflexivity.
  do 2 apply list_elem_of_further. apply list_elem_of_here.
Defined.

(** ** The tools on the file and the session *)



Lemma remove_tool_sample_world_consistent id :
  store_consistent (instrumented_world id).
Proof. apply session_world_consistent. Qed.

(** X13.  When the session holds a record of the id, the remove tool always
    drops the records of that id and reports what it did to the file: file
    gone when the file is missing; already gone, the files untouched, exactly
    when no line of the file is a start or end marker line of the id;
    removed otherwise, only that file being rewritten. *)
Theorem remove_tool_reports_what_it_did sid mid w marker :
  store_consistent w ->
  List.find (fun m => bool_decide (Marker.id m = mid)) (getMarkers sid w)
    = Some marker ->
  let result := removeInstrumentationTool sid mid w in
  let path := Marker.file_path marker in
  getMarkers sid (snd result)
    = filter (fun m => Marker.id m ≠ mid) (getMarkers sid w)
  /\ match files w !! path with
     | None => fst result = RemoveFileGone path /\ files (snd result) = files w
     | Some content =>
         (Forall (fun l => carries mid l = false) (JS.split content) ->
          fst result = RemoveAlreadyGone mid /\ files (snd result) = files w)
         /\ (~ Forall (fun l => carries mid l = false) (JS.split content) ->
             fst result = Removed mid path
             /\ files (snd result)
                = <[path := removeInstrumentationBlock content mid]> (files w))
     end.
Proof.
  intros Hstore Hfind result path.
  destruct (getMarkers_found sid w _ marker Hfind) as (data & Hload & Hmarkers).
  subst result. unfold removeInstrumentationTool. rewrite Hfind. fold path.
  destruct (files w !! path) as [content|] eqn:Hfile.
  - case_bool_decide as Hsame.
    + destruct (drop_record_spec sid mid (RemoveAlreadyGone mid) w data Hstore Hload)
        as (w' & -> & Hfiles & _ & Hms).
      cbn [fst snd]. split; [by rewrite Hms, Hmarkers|]. split; [done|].
      intros Hnot. exfalso. apply Hnot. by apply remove_unchanged_clean.
    + destruct (drop_record_spec sid mid (Removed mid path)
                  (writeFile path (removeInstrumentationBlock content mid) w) data)
        as (w' & -> & Hfiles & _ & Hms); [by apply writeFile_consistent | done |].
      cbn [fst snd]. split; [by rewrite Hms, Hmarkers|]. split; [|done].
      intros Hall. exfalso. apply Hsame. symmetry. by apply remove_unchanged_keep.
  - destruct (drop_record_spec sid mid (RemoveFileGone path) w data Hstore Hload)
      as (w' & -> & Hfiles & _ & Hms).
    cbn [fst snd]. split; [by rewrite Hms, Hmarkers | done].
Qed.

Lemma remove_tool_sample :
  let w := instrumented_world "p7777777" in
  let result := removeInstrumentationTool "s" "p7777777" w in
  let path := Marker.file_path (sample_marker "p7777777") in
  getMarkers "s" (snd result)
    = filter (fun m => Marker.id m ≠ "p7777777") (getMarkers "s" w)
  /\ match files w !! path with
     | None => fst result = RemoveFileGone path /\ files (snd result) = files w
     | Some content =>
         (Forall (fun l => carries "p7777777" l = false) (JS.split content) ->
          fst result = RemoveAlreadyGone "p7777777" /\ files (snd result) = files w)
         /\ (~ Forall (fun l => carries "p7777777" l = false) (JS.split content) ->
             fst result = Removed "p7777777" path
             /\ files (snd result)
                = <[path := removeInstrumentationBlock content "p7777777"]> (files w))
     end.
Proof.
  apply (remove_tool_reports_what_it_did "s" "p7777777"
           (instrumented_world "p7777777") (sample_marker "p7777777")).
  - apply remove_tool_sample_world_consistent.
  - by vm_compute.
Defined.

(** ** Removing every block of a session *)

Lemma map_set_keys {A} key (value : A) m :
  map fst (map_set key value m)
  = if bool_decide (key ∈ map fst m) then map fst m else map fst m ++ [key].
Proof.
  induction m as [|[k v] rest IH]; cbn [map_set map fst].
  - by rewrite bool_decide_eq_false_2 by (by intros ?%elem_of_nil).
  - destruct (decide (k = key)) as [Hk|Hk];
      [rewrite (bool_decide_eq_true_2 (k = _)) by done
      |rewrite (bool_decide_eq_false_2 (k = _)) by done]; cbn [map fst].
    + subst k. by rewrite bool_decide_eq_true_2 by apply list_elem_of_here.
    + rewrite IH. case_bool_decide as Hin.
      * by rewrite bool_decide_eq_true_2 by by apply list_elem_of_further.
      * rewrite bool_decide_eq_false_2; [done|].
        intros [?|?]%elem_of_cons; [by subst | done].
Qed.

Lemma map_get_set {A} key' key (value : A) m :
  map_get key' (map_set key value m)
  = if bool_decide (key' = key) then Some value else map_get key' m.
Proof.
  unfold map_get. induction m as [|[k v] rest IH]; cbn [map_set find fst].
  - case_bool_decide as H1; case_bool_decide as H2; try done; by subst.
  - destruct (decide (k = key)) as [Hk|Hk];
      [rewrite (bool_decide_eq_true_2 (k = key)) by done
      |rewrite (bool_decide_eq_false_2 (k = key)) by done]; cbn [find fst].
    + subst k. destruct (decide (key = key')) as [->|Hne].
      * by rewrite !bool_decide_eq_true_2 by done.
      * rewrite (bool_decide_eq_false_2 (key = key')) by done.
        by rewrite (bool_decide_eq_false_2 (key' = key)) by done.
    + destruct (decide (k = key')) as [->|Hne].
      * rewrite (bool_decide_eq_true_2 (key' = key')) by done.
        by rewrite (bool_decide_eq_false_2 (key' = key)) by done.
      * rewrite (bool_decide_eq_false_2 (k = key')) by done. apply IH.
Qed.

Lemma first_seen_elem seen xs x :
  x ∈ first_seen seen xs <-> x ∈ xs /\ x ∉ seen.
Proof.
  revert seen. induction xs as [|t xs IH]; intros seen; cbn [first_seen].
  - rewrite elem_of_nil. tauto.
  - case_bool_decide as Ht.
    + rewrite IH, elem_of_cons. split; [tauto|]. intros [[->|?] ?]; tauto.
    + rewrite !elem_of_cons, IH. split.
      * intros [->|[? ?]]; [tauto|]. split; [tauto|]. set_solver.
      * intros [[->|?] ?]; [tauto|].
        destruct (decide (x = t)) as [->|?]; [tauto|]. right. split; [done|].
        set_solver.
Qed.

Lemma first_seen_NoDup seen xs : NoDup (first_seen seen xs).
Proof.
  revert seen. induction xs as [|t xs IH]; intros seen; cbn [first_seen].
  - constructor.
  - case_bool_decide as Ht; [apply IH|]. constructor; [|apply IH].
    rewrite first_seen_elem. set_solver.
Qed.

Section Grouping.

Context {A : Type} (key : A -> option string).

Let step (groups : list (string * list A)) (x : A) : list (string * list A) :=
  match key x with
  | Some k => map_push k x groups
  | None => groups
  end.

(** The keys of the groups, in the order of their first item. *)
Lemma group_keys_spec xs groups :
  map fst (foldl step groups xs)
  = map fst groups ++ first_seen (list_to_set (map fst groups)) (omap key xs).
Proof.
  revert groups. induction xs as [|x xs IH]; intros groups;
    cbn [foldl omap list_omap first_seen]; [by rewrite app_nil_r|].
  rewrite IH. unfold step. destruct (key x) as [k|]; [|done].
  cbn [first_seen]. unfold map_push. rewrite map_set_keys.
  case_bool_decide as Hin.
  - by rewrite bool_decide_eq_true_2 by by apply elem_of_list_to_set.
  - rewrite bool_decide_eq_false_2 by by rewrite elem_of_list_to_set.
    rewrite <- app_assoc. cbn [app]. do 3 f_equal.
    rewrite list_to_set_app_L. cbn [list_to_set]. set_solver.
Qed.

(** The items of a group: those of its key, in their order. *)

(** The items of a group: those of its key, in their order. *)
Lemma group_get_spec k xs groups :
  map_get k (foldl step groups xs)
  = match filter (fun x => key x = Some k) xs with
    | [] => map_get k groups
    | items => Some (default [] (map_get k groups) ++ items)
    end.
Proof.
  revert groups. induction xs as [|x xs IH]; intros groups; cbn [foldl];
    [by rewrite filter_nil|].
  rewrite IH. unfold step.
  destruct (key x) as [k0|] eqn:Hkey.
  - unfold map_push. rewrite map_get_set.
    destruct (decide (k = k0)) as [->|Hne].
    + rewrite bool_decide_eq_true_2 by done.
      rewrite (filter_cons_True _ x) by done.
      destruct (filter (fun x => key x = Some k0) xs) as [|y items]; [done|].
      cbn [default from_option]. unfold id. by rewrite <- app_assoc.
    + rewrite bool_decide_eq_false_2 by done.
      rewrite (filter_cons_False _ x) by (rewrite Hkey; congruence). done.
  - by rewrite (filter_cons_False _ x) by by rewrite Hkey.
Qed.

End Grouping.

Lemma omap_Some {A B} (f : A -> B) (l : list A) :
  omap (fun x => Some (f x)) l = map f l.
Proof. induction l as [|x l IH]; cbn [omap list_omap map]; [done|]. by rewrite IH. Qed.

Lemma group_by_file_keys markers :
  map fst (group_by_file markers) = first_seen ∅ (map Marker.file_path markers).
Proof.
  unfold group_by_file.
  rewrite (group_keys_spec (fun m => Some (Marker.file_path m)) markers []).
  cbn [map list_to_set app]. by rewrite omap_Some.
Qed.

Lemma recorded_in_push present m fileMap :
  recorded_in present (map_push (Marker.file_path m) m fileMap)
  = (recorded_in present fileMap
     + if present (Marker.file_path m) then 1 else 0)%nat.
Proof.
  unfold recorded_in, map_push, map_get.
  induction fileMap as [|[path existing] rest IH]; cbn [map_set find foldr fst snd].
  - destruct (present (Marker.file_path m)); simpl; lia.
  - destruct (decide (path = Marker.file_path m)) as [Hpath|Hpath];
      [rewrite !(bool_decide_eq_true_2 (path = _)) by done
      |rewrite !(bool_decide_eq_false_2 (path = _)) by done]; cbn [foldr fst snd].
    + subst path. simpl.
      destruct (present (Marker.file_path m)); [|lia].
      rewrite length_app. simpl. lia.
    + rewrite IH. destruct (present path); lia.
Qed.

Lemma recorded_in_group present markers fileMap :
  recorded_in present
    (foldl (fun fm m => map_push (Marker.file_path m) m fm) fileMap markers)
  = (recorded_in present fileMap
     + length (filter (fun m => present (Marker.file_path m) = true) markers))%nat.
Proof.
  revert fileMap. induction markers as [|m markers IH]; intros fileMap;
    cbn [foldl]; [rewrite filter_nil; cbn [length]; lia|].
  rewrite IH, recorded_in_push.
  destruct (present (Marker.file_path m)) eqn:E.
  - rewrite filter_cons_True by done. cbn [length]. lia.
  - rewrite filter_cons_False by (by rewrite E). lia.
Qed.

Lemma recorded_in_ext f g fileMap :
  (forall p, f p = g p) -> recorded_in f fileMap = recorded_in g fileMap.
Proof.
  intros H. unfold recorded_in.
  induction fileMap as [|e rest IH]; cbn [foldr]; [done|]. by rewrite H, IH.
Qed.

Lemma existsSync_writeFile path text w p :
  existsSync path w = true ->
  existsSync p (writeFile path text w) = existsSync p w.
Proof.
  unfold existsSync, writeFile. cbn [files]. intros H.
  apply bool_decide_eq_true in H.
  destruct (decide (p = path)) as [->|Hne].
  - rewrite lookup_insert_eq.
    rewrite !bool_decide_eq_true_2; [done | done | by eexists].
  - by rewrite lookup_insert_ne.
Qed.

Lemma clean_warning_writeFile fault path text w p :
  existsSync path w = true ->
  clean_warning fault (writeFile path text w) p = clean_warning fault w p.
Proof. intros H. unfold clean_warning. by rewrite existsSync_writeFile. Qed.

(** The loop over [fileMap]. *)
Lemma clean_loop fault fileMap w removed errors :
  NoDup (map fst fileMap) ->
  exists w',
    foldl (clean_step fault) (w, removed, errors) fileMap
    = (w',
       (removed
        + recorded_in (fun p => existsSync p w && no_fault fault p) fileMap)%nat,
       errors ++ omap (clean_warning fault w) (map fst fileMap))
    /\ sessions w' = sessions w
    /\ forall p, files w' !! p
                 = if bool_decide (p ∈ map fst fileMap)
                   then cleaned_text fault p <$> files w !! p
                   else files w !! p.
Proof.
  revert w removed errors.
  induction fileMap as [|[path fileMarkers] rest IH]; intros w removed errors Hnodup.
  - exists w. cbn [foldl map recorded_in foldr omap list_omap].
    rewrite app_nil_r, Nat.add_0_r. split; [done|]. split; [done|].
    intros p. by rewrite bool_decide_eq_false_2 by (by intros ?%elem_of_nil).
  - cbn [map fst] in Hnodup. apply NoDup_cons in Hnodup as [Hfresh Hnodup].
    cbn [foldl clean_step].
    assert (forall w1 removed1 errors1 (text : option string) (n : nat)
                   (warning : option string),
              sessions w1 = sessions w ->
              (forall p, existsSync p w1 = existsSync p w) ->
              (forall p, files w1 !! p
                         = if bool_decide (p = path)
                           then (if existsSync path w then text else None)
                           else files w !! p) ->
              (if existsSync path w && no_fault fault path
               then length fileMarkers else 0%nat) = n ->
              clean_warning fault w path = warning ->
              (existsSync path w = true ->
               cleaned_text fault path <$> files w !! path = text) ->
              removed1 = (removed + n)%nat ->
              errors1 = errors ++ from_option (fun e => [e]) [] warning ->
              exists w',
                foldl (clean_step fault) (w1, removed1, errors1) rest
                = (w',
                   (removed
                    + recorded_in (fun p => existsSync p w && no_fault fault p)
                        ((path, fileMarkers) :: rest))%nat,
                   errors ++ omap (clean_warning fault w) (path :: map fst rest))
                /\ sessions w' = sessions w
                /\ forall p, files w' !! p
                             = if bool_decide (p ∈ path :: map fst rest)
                               then cleaned_text fault p <$> files w !! p
                               else files w !! p) as Hstep.
    { intros w1 removed1 errors1 text n warning Hs Hex Hf Hn Hwarn Htext -> ->.
      destruct (IH w1 (removed + n)%nat
                  (errors ++ from_option (fun e => [e]) [] warning) Hnodup)
        as (w' & -> & Hsessions & Hfiles).
      exists w'. split; [|split; [congruence|]].
      - f_equal; [f_equal|].
        + cbn [recorded_in foldr fst snd].
          fold (recorded_in (fun p => existsSync p w && no_fault fault p) rest).
          rewrite (recorded_in_ext _ (fun p => existsSync p w && no_fault fault p))
            by (intros p; by rewrite Hex).
          rewrite <- Hn. destruct (existsSync path w && no_fault fault path); lia.
        + cbn [omap list_omap]. rewrite Hwarn.
          assert (omap (clean_warning fault w1) (map fst rest)
                  = omap (clean_warning fault w) (map fst rest)) as ->.
          { apply list_omap_ext, Forall2_same_length_lookup. split; [done|].
            intros i p q Hp Hq. assert (p = q) as -> by congruence.
            unfold clean_warning. by rewrite Hex. }
          rewrite <- app_assoc. by destruct warning.
      - intros p. rewrite Hfiles, Hf.
        destruct (decide (p = path)) as [->|Hne].
        + rewrite (bool_decide_eq_false_2 (path ∈ map fst rest)) by done.
          rewrite !bool_decide_eq_true_2 by (done || apply list_elem_of_here).
          destruct (existsSync path w) eqn:E; [by rewrite Htext|].
          unfold existsSync in E. apply bool_decide_eq_false in E.
          destruct (files w !! path) eqn:E2; [|done]. exfalso. apply E. by eexists.
        + rewrite (bool_decide_eq_false_2 (p = path)) by done.
          case_bool_decide as Hin.
          * by rewrite bool_decide_eq_true_2 by by apply list_elem_of_further.
          * rewrite bool_decide_eq_false_2; [done|].
            intros [?|?]%elem_of_cons; done. }
    assert (forall text p,
              existsSync path w = true ->
              files (writeFile path text w) !! p
              = if bool_decide (p = path)
                then (if existsSync path w then Some text else None)
                else files w !! p) as Hwrite.
    { intros text p Hex. cbn [files writeFile]. rewrite Hex.
      case_bool_decide as Hp; [subst; by rewrite lookup_insert_eq|].
      by rewrite lookup_insert_ne. }
    destruct (existsSync path w) eqn:Hex; cbn [negb].
    + pose proof Hex as Hsome. unfold existsSync in Hsome.
      apply bool_decide_eq_true in Hsome as [content Hcontent].
      assert (forall text, cleaned_text fault path content = text ->
                true = true ->
                cleaned_text fault path <$> files w !! path = Some text)
        as Htext by (intros text <- _; by rewrite Hcontent).
      assert (forall e, fault path = Some e -> no_fault fault path = false)
        as Hsome by (intros e He; unfold no_fault; by rewrite He).
      destruct (fault path) as [[err|err remains]|] eqn:Hfault.
      * apply (Hstep w _ _ (Some content) 0%nat
                 (Some ("Failed to clean " +:+ path +:+ ": " +:+ err))).
        -- done.
        -- done.
        -- intros p. case_bool_decide; by subst.
        -- by rewrite (Hsome _ eq_refl).
        -- unfold clean_warning. by rewrite Hex, Hfault.
        -- apply Htext. unfold cleaned_text. by rewrite Hfault.
        -- lia.
        -- done.
      * apply (Hstep (writeFile path remains w) _ _ (Some remains) 0%nat
                 (Some ("Failed to clean " +:+ path +:+ ": " +:+ err))).
        -- done.
        -- intros p. by apply existsSync_writeFile.
        -- intros p. by apply Hwrite.
        -- by rewrite (Hsome _ eq_refl).
        -- unfold clean_warning. by rewrite Hex, Hfault.
        -- apply Htext. unfold cleaned_text. by rewrite Hfault.
        -- lia.
        -- done.
      * apply (Hstep (writeFile path
                        (removeAllInstrumentationBlocks
                           (default EmptyString (files w !! path))) w) _ _
                 (Some (removeAllInstrumentationBlocks content))
                 (length fileMarkers) None).
        -- done.
        -- intros p. by apply existsSync_writeFile.
        -- intros p. rewrite Hwrite by done. by rewrite Hcontent.
        -- unfold no_fault. by rewrite Hfault.
        -- unfold clean_warning. by rewrite Hex, Hfault.
        -- apply Htext. unfold cleaned_text. by rewrite Hfault.
        -- done.
        -- by rewrite app_nil_r.
    + apply (Hstep w _ _ None 0%nat (Some ("File not found: " +:+ path))).
      * done.
      * done.
      * intros p. case_bool_decide as Hp; [|done]. subst p.
        unfold existsSync in Hex. apply bool_decide_eq_false in Hex.
        destruct (files w !! path) eqn:E; [|done]. exfalso. apply Hex. by eexists.
      * done.
      * unfold clean_warning. by rewrite Hex.
      * done.
      * lia.
      * done.
Qed.

(** X14.  With at least one record in the session, the remove-all tool does
    not fail, whatever goes wrong on single files: it clears the records of
    the session and reports the number of distinct files the records name.
    A file that a record names and that exists is read, all its blocks are
    removed, whether the session recorded them or not, and it is written
    back; when reading or writing it fails, the file is left as the failure
    leaves it.  Every other file is left as it is.  The count reported is the
    number of records whose file exists and was cleaned without a failure;
    the warnings are, in the order in which the files first appear among the
    records, one for each file that is missing and one for each file whose
    cleaning failed. *)
Theorem remove_all_tool_cleans_every_recorded_file fault sid w :
  store_consistent w ->
  getMarkers sid w <> [] ->
  let markers := getMarkers sid w in
  let paths := first_seen ∅ (map Marker.file_path markers) in
  exists removed errors w',
    removeAllInstrumentationTool fault sid w
      = (RemovedAll removed (length paths) errors, w')
    /\ getMarkers sid w' = []
    /\ store_consistent w'
    /\ (forall p, files w' !! p
                  = if bool_decide (p ∈ map Marker.file_path markers)
                    then cleaned_text fault p <$> files w !! p
                    else files w !! p)
    /\ removed
       = length (filter (fun m => existsSync (Marker.file_path m) w
                                  && no_fault fault (Marker.file_path m) = true)
                   markers)
    /\ errors = omap (clean_warning fault w) paths.
Proof.
  intros Hstore Hsome markers paths.
  pose proof (group_by_file_keys markers) as Hkeys. fold paths in Hkeys.
  assert (NoDup (map fst (group_by_file markers))) as Hnodup
    by (rewrite Hkeys; apply first_seen_NoDup).
  destruct (clean_loop fault (group_by_file markers) w 0%nat [] Hnodup)
    as (w1 & Hloop & Hsessions & Hfiles).
  unfold removeAllInstrumentationTool. fold markers.
  rewrite bool_decide_eq_false_2
    by (intros Hlen; apply Hsome; by apply nil_length_inv).
  rewrite Hloop.
  assert (exists data, loadSession sid w = Some data) as [data Hload].
  { subst markers. unfold getMarkers in Hsome.
    destruct (loadSession sid w) as [data|]; [by eexists | done]. }
  assert (loadSession sid w1 = Some data) as Hload1
    by (unfold loadSession in *; by rewrite Hsessions).
  unfold clearMarkers. rewrite Hload1.
  replace (length (group_by_file markers)) with (length paths)
    by (by rewrite <- Hkeys, length_map).
  rewrite Hkeys.
  eexists _, _, _. split; [reflexivity|].
  assert (store_consistent w1) as Hstore1.
  { intros k d Hd. apply Hstore. by rewrite <- Hsessions. }
  split; [|split; [|split; [|split]]].
  - unfold getMarkers, loadSession, saveSession. cbn [sessions session_id set_markers].
    rewrite (Hstore1 _ _ Hload1). by rewrite lookup_insert_eq.
  - by apply saveSession_consistent.
  - intros p. cbn [saveSession files]. rewrite Hfiles, Hkeys.
    assert (p ∈ paths <-> p ∈ map Marker.file_path markers) as Hin.
    { unfold paths. rewrite first_seen_elem. set_solver. }
    case_bool_decide as Hp.
    + by rewrite bool_decide_eq_true_2 by by apply Hin.
    + by rewrite bool_decide_eq_false_2 by by rewrite <- Hin.
  - unfold group_by_file. rewrite recorded_in_group. cbn [recorded_in foldr]. lia.
  - done.
Qed.

Lemma remove_all_tool_sample :
  exists w',
    removeAllInstrumentationTool locked_fault "s" locked_world
      = (RemovedAll 2 3
           [ "File not found: /p/gone.js";
             "Failed to clean /p/locked.js: Error: EACCES: permission denied, open '/p/locked.js'" ],
         w')
    /\ getMarkers "s" w' = []
    /\ files w' !! "/p/a.js" = Some (JS.join ["l1"; "l2"])
    /\ files w' !! "/p/locked.js" = files locked_world !! "/p/locked.js"
    /\ files w' !! "/p/gone.js" = None.
Proof.
  destruct (remove_all_tool_cleans_every_recorded_file locked_fault "s" locked_world)
    as (removed & errors & w' & Hrun & Hmarkers & _ & Hfiles & Hremoved & Herrors).
  - apply session_world_consistent.
  - by vm_compute.
  - exists w'. rewrite Hrun, Hremoved, Herrors.
    split; [by vm_compute|]. split; [done|].
    rewrite !Hfiles. by vm_compute.
Defined.

(** ** Parsed logs *)

Lemma foldl_ext_eq {A B} (f g : A -> B -> A) (a : A) (l : list B) :
  (forall a x, f a x = g a x) -> foldl f a l = foldl g a l.
Proof.
  intros H. revert a. induction l as [|x l IH]; intros a; cbn [foldl]; [done|].
  by rewrite H, IH.
Qed.

(** The key [groupByMarker] files a match under. *)
Lemma groupByMarker_keyed matches :
  groupByMarker matches
  = foldl (fun groups m =>
             match (match LogMatch.marker_id m with
                    | Some id => if JS.truthy id then Some id else None
                    | None => None
                    end) with
             | Some k => map_push k m groups
             | None => groups
             end) [] matches.
Proof.
  unfold groupByMarker. apply foldl_ext_eq. intros groups m.
  destruct (LogMatch.marker_id m) as [id|]; [|done]. by destruct (JS.truthy id).
Qed.

(** X15.  Grouping by marker: the groups come in the order in which their
    ids first appear among the matches, one group per id; the group of an id
    holds exactly the matches carrying that id, in their order; an id carried
    by no match has no group. *)
Theorem groupByMarker_groups_matches_by_id matches :
  let ids :=
    omap (fun m => match LogMatch.marker_id m with
                   | Some id => if JS.truthy id then Some id else None
                   | None => None
                   end) matches in
  map fst (groupByMarker matches) = first_seen ∅ ids
  /\ NoDup (map fst (groupByMarker matches))
  /\ forall id, JS.truthy id = true ->
       map_get id (groupByMarker matches)
       = match filter (fun m => LogMatch.marker_id m = Some id) matches with
         | [] => None
         | items => Some items
         end.
Proof.
  intros ids. rewrite groupByMarker_keyed.
  rewrite (group_keys_spec _ matches []). cbn [map list_to_set app].
  split; [done|]. split; [apply first_seen_NoDup|].
  intros id Hid. rewrite (group_get_spec _ id matches []).
  assert (filter (fun m => match LogMatch.marker_id m with
                           | Some id0 => if JS.truthy id0 then Some id0 else None
                           | None => None
                           end = Some id) matches
          = filter (fun m => LogMatch.marker_id m = Some id) matches) as ->.
  { apply list_filter_iff. intros m.
    destruct (LogMatch.marker_id m) as [i|]; [|done].
    destruct (JS.truthy i) eqn:Hi; [done|].
    split; [done|]. intros [= ->]. congruence. }
  by destruct (filter _ matches).
Qed.

Section ParseStructure.

Variable ERROR_PATTERNS : list (string -> bool).
Variable WARNING_PATTERNS : list (string -> bool).

Let reported (i : nat) (rest : list string) (m : LogMatch.t) : Prop :=
  (i < LogMatch.line m <= i + length rest)%nat
  /\ rest !! (LogMatch.line m - S i)%nat = Some (LogMatch.content m)
  /\ LogMatch.type m = classify ERROR_PATTERNS WARNING_PATTERNS (LogMatch.content m)
  /\ LogMatch.marker_id m = extractMarkerId (LogMatch.content m).

Lemma reported_later i l rest m :
  reported (S i) rest m -> reported i (l :: rest) m.
Proof.
  intros (Hline & Hlook & Htype & Hid). split; [cbn [length]; lia|].
  split; [|done].
  replace (LogMatch.line m - S i)%nat with (S (LogMatch.line m - S (S i))) by lia.
  done.
Qed.

Lemma parse_loop_spec lines i rest :
  let ms := parse_loop ERROR_PATTERNS WARNING_PATTERNS lines i rest in
  map LogMatch.content ms
    = filter (fun l => notable ERROR_PATTERNS WARNING_PATTERNS l = true) rest
  /\ Forall (reported i rest) ms
  /\ increasing (map LogMatch.line ms).
Proof.
  revert i. induction rest as [|l rest IH]; intros i; cbn zeta.
  - cbn [parse_loop map]. by rewrite filter_nil.
  - destruct (IH (S i)) as (Hcontent & Hall & Hinc). cbn zeta in *.
    assert (Forall (reported i (l :: rest))
              (parse_loop ERROR_PATTERNS WARNING_PATTERNS lines (S i) rest)) as Hall'.
    { eapply Forall_impl; [exact Hall|]. intros m. apply reported_later. }
    assert (Forall (fun k => (S i < k)%nat)
              (map LogMatch.line
                 (parse_loop ERROR_PATTERNS WARNING_PATTERNS lines (S i) rest)))
      as Hafter.
    { apply Forall_map. eapply Forall_impl; [exact Hall|].
      intros m (Hline & _). cbn. lia. }
    assert (forall t id details,
              t = classify ERROR_PATTERNS WARNING_PATTERNS l ->
              id = extractMarkerId l ->
              reported i (l :: rest)
                {| LogMatch.type := t; LogMatch.line := S i; LogMatch.content := l;
                   LogMatch.marker_id := id; LogMatch.details := details |}) as Hhere.
    { intros t id details -> ->. unfold reported.
      cbn [LogMatch.line LogMatch.content LogMatch.type LogMatch.marker_id length].
      rewrite Nat.sub_diag. split; [lia|]. done. }
    cbn [parse_loop]. unfold notable, classify in *.
    destruct (extractMarkerId l) as [id|] eqn:Hid.
    + rewrite filter_cons_True
        by (rewrite Hid; by rewrite bool_decide_eq_true_2 by by eexists).
      cbn [map LogMatch.content LogMatch.line increasing]. rewrite Hcontent.
      split; [done|]. split; [|done]. constructor; [|done].
      apply Hhere; [|done].
      by rewrite bool_decide_eq_true_2 by by eexists.
    + assert (bool_decide (is_Some (@None string)) = false) as Hnot
        by (apply bool_decide_eq_false_2; by intros [? ?]).
      rewrite Hnot in Hhere.
      destruct (existsb (fun pattern => pattern l) ERROR_PATTERNS) eqn:He.
      * rewrite filter_cons_True by (by rewrite Hid, Hnot, He).
        cbn [map LogMatch.content LogMatch.line increasing]. rewrite Hcontent.
        split; [done|]. split; [|done]. constructor; [|done]. by apply Hhere.
      * destruct (existsb (fun pattern => pattern l) WARNING_PATTERNS) eqn:Hw.
        -- rewrite filter_cons_True by (by rewrite Hid, Hnot, He, Hw).
           cbn [map LogMatch.content LogMatch.line increasing]. rewrite Hcontent.
           split; [done|]. split; [|done]. constructor; [|done]. by apply Hhere.
        -- rewrite filter_cons_False by (by rewrite Hid, Hnot, He, Hw).
           done.
Qed.

Lemma parseLogContent_reports_the_notable_lines_aux content :
  Forall (fun m =>
            JS.split content !! (LogMatch.line m - 1)%nat = Some (LogMatch.content m)
            /\ LogMatch.marker_id m = extractMarkerId (LogMatch.content m))
         (parseLogContent ERROR_PATTERNS WARNING_PATTERNS content).
Proof.
  destruct (parse_loop_spec (JS.split content) 0 (JS.split content)) as (_ & H & _).
  eapply Forall_impl; [exact H|].
  by intros m (_ & Hlook & _ & Hid).
Qed.

(** X16.  Parsing reports exactly the lines that hold a marker tag or match
    an error or a warning pattern, in the order of the text and with their
    own line numbers (counted from 1, strictly increasing); a line with a tag
    is a debug-helper match for the leftmost id of the line even when it
    also matches an error pattern, and an error pattern goes before a
    warning pattern. *)
Theorem parseLogContent_reports_the_notable_lines content :
  let lines := JS.split content in
  let ms := parseLogContent ERROR_PATTERNS WARNING_PATTERNS content in
  map LogMatch.content ms
    = filter (fun l => notable ERROR_PATTERNS WARNING_PATTERNS l = true) lines
  /\ Forall (fun m =>
               (1 <= LogMatch.line m)%nat
               /\ lines !! (LogMatch.line m - 1)%nat = Some (LogMatch.content m)
               /\ LogMatch.type m
                  = classify ERROR_PATTERNS WARNING_PATTERNS (LogMatch.content m)
               /\ LogMatch.marker_id m = extractMarkerId (LogMatch.content m)) ms
  /\ increasing (map LogMatch.line ms).
Proof.
  intros lines ms.
  destruct (parse_loop_spec lines 0 lines) as (H1 & H2 & H3).
  split; [done|]. split; [|done].
  eapply Forall_impl; [exact H2|].
  intros m ((Hline & _) & Hlook & Htype & Hid). split; [lia|]. done.
Qed.

End ParseStructure.

(** ** The summary of the matches *)

Lemma quadruple_eq {A B C D} (a a' : A) (b b' : B) (c c' : C) (d d' : D) :
  a = a' -> b = b' -> c = c' -> d = d' -> (a, b, c, d) = (a', b', c', d').
Proof. by intros -> -> -> ->. Qed.

Lemma summarize_loop matches ids e w d :
  let tags :=
    omap (fun m => match LogMatch.marker_id m with
                   | Some id => if JS.truthy id then Some id else None
                   | None => None
                   end) (filterDebugHelperOutput matches) in
  foldl summarize_step (ids, e, w, d) matches
  = (ids ++ first_seen (list_to_set ids) tags,
     (e + length (filterErrors matches))%nat,
     (w + length (filter (fun m => LogMatch.type m = warning) matches))%nat,
     (d + length (filterDebugHelperOutput matches))%nat).
Proof.
  cbn zeta. unfold filterDebugHelperOutput, filterErrors.
  revert ids e w d. induction matches as [|m ms IH]; intros ids e w d.
  - cbn [foldl]. rewrite !filter_nil. cbn [omap list_omap first_seen length].
    by rewrite app_nil_r, !Nat.add_0_r.
  - cbn [foldl]. unfold summarize_step at 2.
    destruct (LogMatch.type m) eqn:Htype; rewrite IH;
      rewrite ?(filter_cons_True (fun m => LogMatch.type m = error) m) by done;
      rewrite ?(filter_cons_True (fun m => LogMatch.type m = warning) m) by done;
      rewrite ?(filter_cons_True (fun m => LogMatch.type m = debug_helper) m) by done;
      rewrite ?(filter_cons_False (fun m => LogMatch.type m = error) m)
        by (by rewrite Htype);
      rewrite ?(filter_cons_False (fun m => LogMatch.type m = warning) m)
        by (by rewrite Htype);
      rewrite ?(filter_cons_False (fun m => LogMatch.type m = debug_helper) m)
        by (by rewrite Htype);
      cbn [length]; apply quadruple_eq; try lia; try done.
    cbn [omap list_omap].
    assert (forall t, set_add t ids ++ first_seen (list_to_set (set_add t ids))
                        (omap (fun m => match LogMatch.marker_id m with
                                        | Some id => if JS.truthy id then Some id else None
                                        | None => None
                                        end)
                              (filter (fun m => LogMatch.type m = debug_helper) ms))
                      = ids ++ first_seen (list_to_set ids)
                          (t :: omap (fun m => match LogMatch.marker_id m with
                                               | Some id => if JS.truthy id then Some id else None
                                               | None => None
                                               end)
                                  (filter (fun m => LogMatch.type m = debug_helper) ms)))
      as Hadd.
    { intros t. unfold set_add. cbn [first_seen]. case_bool_decide as Hin.
      - by rewrite bool_decide_eq_true_2 by by apply elem_of_list_to_set.
      - rewrite bool_decide_eq_false_2 by by rewrite elem_of_list_to_set.
        rewrite <- app_assoc. cbn [app]. do 3 f_equal.
        rewrite list_to_set_app_L. cbn [list_to_set]. set_solver. }
    destruct (LogMatch.marker_id m) as [id|]; [destruct (JS.truthy id)|];
      by rewrite ?Hadd.
Qed.

Lemma summary_general matches :
  let s := summarizeLogAnalysis matches in
  Summary.total s = length matches
  /\ Summary.errors s = length (filterErrors matches)
  /\ Summary.warnings s
     = length (filter (fun m => LogMatch.type m = warning) matches)
  /\ Summary.debug_markers s = length (filterDebugHelperOutput matches)
  /\ Summary.marker_ids s
     = first_seen ∅
         (omap (fun m => match LogMatch.marker_id m with
                         | Some id => if JS.truthy id then Some id else None
                         | None => None
                         end) (filterDebugHelperOutput matches)).
Proof.
  cbn zeta. unfold summarizeLogAnalysis.
  rewrite (summarize_loop matches [] 0 0 0)%nat. by cbn.
Qed.

Section SummaryOfParsedLogs.

Variable ERROR_PATTERNS : list (string -> bool).
Variable WARNING_PATTERNS : list (string -> bool).

Lemma parse_loop_types lines i rest :
  Forall (fun m => LogMatch.type m = error \/ LogMatch.type m = warning
                   \/ LogMatch.type m = debug_helper)
         (parse_loop ERROR_PATTERNS WARNING_PATTERNS lines i rest).
Proof.
  revert i. induction rest as [|l rest IH]; intros i; cbn [parse_loop]; [done|].
  destruct (extractMarkerId l); [constructor; [tauto | apply IH]|].
  destruct (existsb _ ERROR_PATTERNS); [constructor; [tauto | apply IH]|].
  destruct (existsb _ WARNING_PATTERNS); [constructor; [tauto | apply IH]|].
  apply IH.
Qed.

Lemma three_types_cover (ms : list LogMatch.t) :
  Forall (fun m => LogMatch.type m = error \/ LogMatch.type m = warning
                   \/ LogMatch.type m = debug_helper) ms ->
  length ms
  = (length (filterErrors ms)
     + length (filter (fun m => LogMatch.type m = warning) ms)
     + length (filterDebugHelperOutput ms))%nat.
Proof.
  unfold filterErrors, filterDebugHelperOutput.
  induction 1 as [|m ms Hm _ IH]; [done|].
  destruct Hm as [Hm|[Hm|Hm]];
    rewrite ?(filter_cons_True (fun m => LogMatch.type m = error) m) by done;
    rewrite ?(filter_cons_True (fun m => LogMatch.type m = warning) m) by done;
    rewrite ?(filter_cons_True (fun m => LogMatch.type m = debug_helper) m) by done;
    rewrite ?(filter_cons_False (fun m => LogMatch.type m = error) m)
      by (by rewrite Hm);
    rewrite ?(filter_cons_False (fun m => LogMatch.type m = warning) m)
      by (by rewrite Hm);
    rewrite ?(filter_cons_False (fun m => LogMatch.type m = debug_helper) m)
      by (by rewrite Hm);
    cbn [length]; lia.
Qed.

Lemma truthy_tags (ms : list LogMatch.t) :
  Forall (fun m => exists id, LogMatch.marker_id m = Some id /\ JS.truthy id = true) ms ->
  omap (fun m => match LogMatch.marker_id m with
                 | Some id => if JS.truthy id then Some id else None
                 | None => None
                 end) ms
  = omap LogMatch.marker_id ms.
Proof.
  induction 1 as [|m ms (id & Hid & Ht) _ IH]; [done|].
  cbn [omap list_omap]. rewrite Hid, Ht. by rewrite IH.
Qed.

Lemma length_omap_tags (ms : list LogMatch.t) :
  Forall (fun m => exists id, LogMatch.marker_id m = Some id /\ JS.truthy id = true) ms ->
  length (omap LogMatch.marker_id ms) = length ms.
Proof.
  induction 1 as [|m ms (id & Hid & _) _ IH]; [done|].
  cbn [omap list_omap]. rewrite Hid. cbn [length]. by rewrite IH.
Qed.

(** X17.  The summary counts what the filters select: the errors, the
    warnings and the debug-helper matches; its ids are the distinct ids of
    the debug-helper matches in the order of their first appearance.  For a
    parsed text the three counts add up to the total, the debug-helper count
    is the number of lines with a tag, and the ids are the leftmost ids of
    those lines. *)
Theorem summary_counts_what_the_filters_select :
  (forall matches,
     let s := summarizeLogAnalysis matches in
     Summary.total s = length matches
     /\ Summary.errors s = length (filterErrors matches)
     /\ Summary.warnings s
        = length (filter (fun m => LogMatch.type m = warning) matches)
     /\ Summary.debug_markers s = length (filterDebugHelperOutput matches)
     /\ Summary.marker_ids s
        = first_seen ∅
            (omap (fun m => match LogMatch.marker_id m with
                            | Some id => if JS.truthy id then Some id else None
                            | None => None
                            end) (filterDebugHelperOutput matches))
     /\ NoDup (Summary.marker_ids s))
  /\ (forall content,
        let s := summarizeLogAnalysis
                   (parseLogContent ERROR_PATTERNS WARNING_PATTERNS content) in
        let tags := omap extractMarkerId (JS.split content) in
        Summary.total s
          = (Summary.errors s + Summary.warnings s + Summary.debug_markers s)%nat
        /\ Summary.debug_markers s = length tags
        /\ Summary.marker_ids s = first_seen ∅ tags).
Proof.
  pose proof summary_general as Hgeneral.
  split.
  - intros matches s. destruct (Hgeneral matches) as (H1 & H2 & H3 & H4 & H5).
    repeat (split; [done|]). subst s. rewrite H5. apply first_seen_NoDup.
  - intros content s tags.
    destruct (Hgeneral (parseLogContent ERROR_PATTERNS WARNING_PATTERNS content))
      as (H1 & H2 & H3 & H4 & H5). fold s in H1, H2, H3, H4, H5.
    destruct (debug_matches_of_parse ERROR_PATTERNS WARNING_PATTERNS
                (JS.split content) 0 (JS.split content)) as [Htruthy Htags].
    fold (parseLogContent ERROR_PATTERNS WARNING_PATTERNS content) in Htruthy, Htags.
    split; [|split].
    + rewrite H1, H2, H3, H4. apply three_types_cover, parse_loop_types.
    + rewrite H4. subst tags. rewrite <- Htags. symmetry.
      by apply length_omap_tags.
    + rewrite H5, truthy_tags by done. by rewrite Htags.
Qed.

End SummaryOfParsedLogs.

(** ** The context of an error *)

(** X18.  A line continues the context of an error exactly when it begins
    with a white-space character: the three stack-frame tests add nothing to
    the last test of the loop. *)
Theorem context_continues_on_any_indented_line l :
  is_continuation l = is_indented l
  /\ (is_indented l = true
      <-> exists c rest, l = String c rest /\ JS.is_space c = true).
Proof.
  split.
  - unfold is_continuation, is_js_frame, is_python_frame, is_rust_frame, is_indented.
    destruct (leading_spaces l) as [rest|].
    + rewrite (bool_decide_eq_true_2 (is_Some (Some rest))) by by eexists.
      by rewrite orb_true_r.
    + by rewrite (bool_decide_eq_false_2 (is_Some None)) by (by intros [? ?]).
  - unfold is_indented, leading_spaces. destruct l as [|c rest].
    + cbn [JS.span]. split; [|by intros (? & ? & ? & _)].
      intros H. apply bool_decide_eq_true in H. by destruct H.
    + cbn [JS.span]. destruct (JS.is_space c) eqn:Hc.
      * destruct (JS.span JS.is_space rest) as [a b]. split; [|done].
        intros _. by exists c, rest.
      * split.
        -- intros H. apply bool_decide_eq_true in H. by destruct H.
        -- intros (c' & rest' & [= <- <-] & Hc'). congruence.
Qed.
(** ** The session store *)

Lemma save_under_own_id sid data w :
  store_consistent w -> session_id data = sid ->
  store_consistent (saveSession data w)
  /\ loadSession sid (saveSession data w) = Some data
  /\ only_touches sid w (saveSession data w).
Proof.
  intros Hstore Hid. split; [by apply saveSession_consistent|].
  unfold only_touches, loadSession, saveSession. cbn [sessions files].
  rewrite Hid. split; [by rewrite lookup_insert_eq|]. split; [done|].
  intros other _ Hother. by rewrite lookup_insert_ne.
Qed.

Lemma loaded_id sid data w :
  store_consistent w -> loadSession sid w = Some data -> session_id data = sid.
Proof. intros Hstore Hload. by apply Hstore. Qed.

(** X19.  Every operation of the store, called with an id that names a
    directory entry, keeps each session document under its own id: creating,
    updating (the id of the call overrides an id in the update), adding to
    and clearing the lists, and deleting. *)
Theorem store_operations_keep_sessions_under_their_own_id w sid :
  store_consistent w -> entry_name sid = true ->
  (forall dir now, store_consistent (snd (createSession sid dir now w)))
  /\ (forall updates w', updateSession sid updates w = Some w' ->
        store_consistent w')
  /\ (forall m w', addMarker sid m w = Some w' -> store_consistent w')
  /\ (forall id w', removeMarker sid id w = Some w' -> store_consistent w')
  /\ (forall w', clearMarkers sid w = Some w' -> store_consistent w')
  /\ (forall e w', addLog sid e w = Some w' -> store_consistent w')
  /\ (forall w', clearLogs sid w = Some w' -> store_consistent w')
  /\ (forall e w', addRCAEntry sid e w = Some w' -> store_consistent w')
  /\ store_consistent (deleteSession sid w).
Proof.
  intros Hstore _.
  split; [intros; by apply saveSession_consistent|].
  do 7 (split;
        [unfold updateSession, addMarker, removeMarker, clearMarkers, addLog,
           clearLogs, addRCAEntry; intros;
         destruct (loadSession _ w); [|done]; simplify_eq;
         by apply saveSession_consistent|]).
  intros k data. unfold deleteSession. cbn [sessions].
  intros [_ H]%lookup_delete_Some. by apply Hstore.
Qed.

Lemma store_operations_sample :
  let w := three_marker_world in
  (forall dir now, store_consistent (snd (createSession "s" dir now w)))
  /\ (forall updates w', updateSession "s" updates w = Some w' ->
        store_consistent w')
  /\ (forall m w', addMarker "s" m w = Some w' -> store_consistent w')
  /\ (forall id w', removeMarker "s" id w = Some w' -> store_consistent w')
  /\ (forall w', clearMarkers "s" w = Some w' -> store_consistent w')
  /\ (forall e w', addLog "s" e w = Some w' -> store_consistent w')
  /\ (forall w', clearLogs "s" w = Some w' -> store_consistent w')
  /\ (forall e w', addRCAEntry "s" e w = Some w' -> store_consistent w')
  /\ store_consistent (deleteSession "s" w).
Proof.
  apply (store_operations_keep_sessions_under_their_own_id three_marker_world "s").
  - apply session_world_consistent.
  - by vm_compute.
Defined.

(** X20.  The three lists of a session are independent.  On an existing
    session, of an id naming a directory entry, adding a marker, a log entry
    or a history entry appends it to its own list, removing a marker drops
    the records of that id from the markers, and clearing empties one list;
    the two other lists, the files and the sessions of the other ids are left
    as they were. *)
Theorem session_lists_are_independent sid w data :
  store_consistent w -> entry_name sid = true -> loadSession sid w = Some data ->
  let ms := markers data in
  let ls := logs data in
  let rs := rca_history data in
  lists_of sid w = (ms, ls, rs)
  /\ (forall m, exists w', addMarker sid m w = Some w'
        /\ lists_of sid w' = (ms ++ [m], ls, rs) /\ only_touches sid w w')
  /\ (forall id, exists w', removeMarker sid id w = Some w'
        /\ lists_of sid w' = (filter (fun m => Marker.id m ≠ id) ms, ls, rs)
        /\ only_touches sid w w')
  /\ (exists w', clearMarkers sid w = Some w'
        /\ lists_of sid w' = ([], ls, rs) /\ only_touches sid w w')
  /\ (forall e, exists w', addLog sid e w = Some w'
        /\ lists_of sid w' = (ms, ls ++ [e], rs) /\ only_touches sid w w')
  /\ (exists w', clearLogs sid w = Some w'
        /\ lists_of sid w' = (ms, [], rs) /\ only_touches sid w w')
  /\ (forall e, exists w', addRCAEntry sid e w = Some w'
        /\ lists_of sid w' = (ms, ls, rs ++ [e]) /\ only_touches sid w w').
Proof.
  intros Hstore _ Hload ms ls rs.
  pose proof (loaded_id sid data w Hstore Hload) as Hid.
  assert (forall data', session_id data' = sid ->
            exists w', Some (saveSession data' w) = Some w'
              /\ lists_of sid w' = (markers data', logs data', rca_history data')
              /\ only_touches sid w w') as Hsave.
  { intros data' Hid'. eexists. split; [reflexivity|].
    destruct (save_under_own_id sid data' w Hstore Hid') as (_ & Hl & Ht).
    split; [|done]. unfold lists_of, getMarkers, getLogs, getRCAHistory.
    by rewrite Hl. }
  split.
  { unfold lists_of, getMarkers, getLogs, getRCAHistory. by rewrite Hload. }
  unfold addMarker, removeMarker, clearMarkers, addLog, clearLogs, addRCAEntry.
  rewrite Hload.
  repeat split; intros; by apply Hsave.
Qed.

Lemma session_lists_sample :
  let data := sample_session [sample_marker "p7777777"] in
  let w := instrumented_world "p7777777" in
  let ms := markers data in
  let ls := logs data in
  let rs := rca_history data in
  lists_of "s" w = (ms, ls, rs)
  /\ (forall m, exists w', addMarker "s" m w = Some w'
        /\ lists_of "s" w' = (ms ++ [m], ls, rs) /\ only_touches "s" w w')
  /\ (forall id, exists w', removeMarker "s" id w = Some w'
        /\ lists_of "s" w' = (filter (fun m => Marker.id m ≠ id) ms, ls, rs)
        /\ only_touches "s" w w')
  /\ (exists w', clearMarkers "s" w = Some w'
        /\ lists_of "s" w' = ([], ls, rs) /\ only_touches "s" w w')
  /\ (forall e, exists w', addLog "s" e w = Some w'
        /\ lists_of "s" w' = (ms, ls ++ [e], rs) /\ only_touches "s" w w')
  /\ (exists w', clearLogs "s" w = Some w'
        /\ lists_of "s" w' = (ms, [], rs) /\ only_touches "s" w w')
  /\ (forall e, exists w', addRCAEntry "s" e w = Some w'
        /\ lists_of "s" w' = (ms, ls, rs ++ [e]) /\ only_touches "s" w w').
Proof.
  apply (session_lists_are_independent "s" (instrumented_world "p7777777")
           (sample_session [sample_marker "p7777777"])).
  - apply session_world_consistent.
  - by vm_compute.
  - by vm_compute.
Defined.

(** X21.  On a session that does not exist, of an id naming a directory
    entry, every operation that changes a list, and an update, throws and
    leaves the store as it was; the three accessors return empty lists; and
    deleting changes nothing.  No operation but [createSession] brings a
    session into being. *)
Theorem missing_session_is_never_created sid w :
  entry_name sid = true ->
  loadSession sid w = None ->
  (forall updates, updateSession sid updates w = None)
  /\ (forall m, addMarker sid m w = None)
  /\ (forall id, removeMarker sid id w = None)
  /\ clearMarkers sid w = None
  /\ (forall e, addLog sid e w = None)
  /\ clearLogs sid w = None
  /\ (forall e, addRCAEntry sid e w = None)
  /\ lists_of sid w = ([], [], [])
  /\ deleteSession sid w = w.
Proof.
  intros _ Hload.
  unfold updateSession, addMarker, removeMarker, clearMarkers, addLog, clearLogs,
    addRCAEntry, lists_of, getMarkers, getLogs, getRCAHistory.
  rewrite Hload. repeat (split; [done|]).
  unfold deleteSession, loadSession in *. destruct w as [fs ss]. cbn [files sessions] in *.
  f_equal. by apply delete_id.
Qed.

Lemma missing_session_sample :
  (forall updates, updateSession "nobody" updates three_marker_world = None)
  /\ (forall m, addMarker "nobody" m three_marker_world = None)
  /\ (forall id, removeMarker "nobody" id three_marker_world = None)
  /\ clearMarkers "nobody" three_marker_world = None
  /\ (forall e, addLog "nobody" e three_marker_world = None)
  /\ clearLogs "nobody" three_marker_world = None
  /\ (forall e, addRCAEntry "nobody" e three_marker_world = None)
  /\ lists_of "nobody" three_marker_world = ([], [], [])
  /\ deleteSession "nobody" three_marker_world = three_marker_world.
Proof.
  apply (missing_session_is_never_created "nobody" three_marker_world).
  - by vm_compute.
  - by vm_compute.
Defined.

(** X22.  For an id naming a directory entry: creating a session stores a
    document with empty lists under the id, replacing whatever the id held;
    an update of an existing session replaces the fields it gives and keeps
    the others, always under the id of the call; deleting a session makes it
    missing.  All three leave the files and the sessions of the other ids as
    they were. *)
Theorem create_update_delete_session sid w :
  store_consistent w -> entry_name sid = true ->
  (forall dir now,
     let w' := snd (createSession sid dir now w) in
     loadSession sid w' = Some (fst (createSession sid dir now w))
     /\ lists_of sid w' = ([], [], [])
     /\ only_touches sid w w')
  /\ (forall data updates,
        loadSession sid w = Some data ->
        exists w', updateSession sid updates w = Some w'
          /\ loadSession sid w' = Some (apply_updates data updates sid)
          /\ session_id (apply_updates data updates sid) = sid
          /\ getMarkers sid w' = default (markers data) (u_markers updates)
          /\ only_touches sid w w')
  /\ (loadSession sid (deleteSession sid w) = None
      /\ only_touches sid w (deleteSession sid w)).
Proof.
  intros Hstore _. split; [|split].
  - intros dir now w'. subst w'. unfold createSession. cbn [fst snd].
    match goal with |- context [saveSession ?d w] => set (data := d) end.
    destruct (save_under_own_id sid data w Hstore eq_refl) as (_ & Hl & Ht).
    split; [done|]. split; [|done].
    unfold lists_of, getMarkers, getLogs, getRCAHistory. by rewrite Hl.
  - intros data updates Hload. unfold updateSession. rewrite Hload.
    eexists. split; [reflexivity|].
    destruct (save_under_own_id sid (apply_updates data updates sid) w Hstore eq_refl)
      as (_ & Hl & Ht).
    split; [done|]. split; [done|]. split; [|done].
    unfold getMarkers. by rewrite Hl.
  - unfold only_touches, loadSession, deleteSession. cbn [sessions files].
    split; [by rewrite lookup_delete_eq|]. split; [done|].
    intros other _ Hother. by rewrite lookup_delete_ne.
Qed.

Lemma create_update_delete_sample :
  (forall dir now,
     let w' := snd (createSession "s" dir now three_marker_world) in
     loadSession "s" w' = Some (fst (createSession "s" dir now three_marker_world))
     /\ lists_of "s" w' = ([], [], [])
     /\ only_touches "s" three_marker_world w')
  /\ (forall data updates,
        loadSession "s" three_marker_world = Some data ->
        exists w', updateSession "s" updates three_marker_world = Some w'
          /\ loadSession "s" w' = Some (apply_updates data updates "s")
          /\ session_id (apply_updates data updates "s") = "s"
          /\ getMarkers "s" w' = default (markers data) (u_markers updates)
          /\ only_touches "s" three_marker_world w')
  /\ (loadSession "s" (deleteSession "s" three_marker_world) = None
      /\ only_touches "s" three_marker_world (deleteSession "s" three_marker_world)).
Proof.
  apply (create_update_delete_session "s" three_marker_world).
  - apply session_world_consistent.
  - by vm_compute.
Defined.

(** ** Process keys and captured output *)

Lemma key_of_colon_free s n s' n' :
  no_colon s = true -> no_colon s' = true ->
  s +:+ String ":" n = s' +:+ String ":" n' -> s = s' /\ n = n'.
Proof.
  unfold no_colon. revert s'.
  induction s as [|c s IH]; intros [|c' s'] Hs Hs'; cbn [String.append JS.all_chars] in *.
  - by intros [= ->].
  - intros [= <- _]. by rewrite Ascii.eqb_refl in Hs'.
  - intros [= -> _]. by rewrite Ascii.eqb_refl in Hs.
  - apply andb_true_iff in Hs as [_ Hs]. apply andb_true_iff in Hs' as [_ Hs'].
    intros [= -> H]. destruct (IH s' Hs Hs' H) as [-> ->]. done.
Qed.

(** X23.  Process keys tell sessions and names apart when session ids hold no
    colon: two keys are equal only for the same session and name, and a key
    starts with the prefix of a session exactly when it belongs to that
    session, which is the test [listProcessesTool] uses.  With a colon in a
    session id two different pairs share a key. *)
Theorem process_keys_are_unambiguous_without_colon s n s' n' :
  no_colon s = true -> no_colon s' = true ->
  (getProcessKey s n = getProcessKey s' n' -> s = s' /\ n = n')
  /\ startsWith (s' +:+ ":") (getProcessKey s n) = bool_decide (s = s')
  /\ getProcessKey "a" "b:c" = getProcessKey "a:b" "c".
Proof.
  intros Hs Hs'. unfold getProcessKey. split; [|split; [|done]].
  - by apply key_of_colon_free.
  - unfold startsWith.
    destruct (decide (s = s')) as [Heq|Heq];
      [rewrite (bool_decide_eq_true_2 (s = s')) by done
      |rewrite (bool_decide_eq_false_2 (s = s')) by done].
    + subst s'. apply bool_decide_eq_true_2.
      change (s +:+ ":" +:+ n) with (s +:+ (":" +:+ n)).
      rewrite <- str_app_assoc, strip_prefix_app. by eexists.
    + apply bool_decide_eq_false_2. intros [rest Hrest].
      apply strip_prefix_spec in Hrest.
      change (s +:+ ":" +:+ n) with (s +:+ String ":" n) in Hrest.
      change ((s' +:+ ":") +:+ rest) with ((s' +:+ String ":" EmptyString) +:+ rest)
        in Hrest.
      rewrite str_app_assoc in Hrest. cbn [String.append] in Hrest.
      by destruct (key_of_colon_free s n s' rest Hs Hs' Hrest).
Qed.

Lemma process_keys_sample :
  (getProcessKey "s1" "app" = getProcessKey "s1" "app" -> "s1" = "s1" /\ "app" = "app")
  /\ startsWith ("s1" +:+ ":") (getProcessKey "s1" "app") = bool_decide ("s1" = "s1")
  /\ getProcessKey "a" "b:c" = getProcessKey "a:b" "c".
Proof.
  apply (process_keys_are_unambiguous_without_colon "s1" "app" "s1" "app");
    reflexivity.
Defined.

Lemma last_n_all {A} n (l : list A) : (length l <= n)%nat -> last_n n l = l.
Proof. intros H. unfold last_n. by replace (length l - n)%nat with 0%nat by lia. Qed.

Lemma length_last_n {A} n (l : list A) : length (last_n n l) = Nat.min n (length l).
Proof. unfold last_n. rewrite length_drop. lia. Qed.

Lemma last_n_snoc {A} n (l : list A) e :
  last_n n (last_n n l ++ [e]) = last_n n (l ++ [e]).
Proof.
  unfold last_n. rewrite !length_app, length_drop. cbn [length].
  rewrite <- drop_app_le by lia. rewrite drop_drop. f_equal. lia.
Qed.

Lemma push_capped_last buffer entry :
  (length buffer <= MAX_OUTPUT_LINES)%nat ->
  push_capped buffer entry = last_n MAX_OUTPUT_LINES (buffer ++ [entry]).
Proof.
  intros Hlen. unfold push_capped, last_n. rewrite length_app. cbn [length].
  destruct (MAX_OUTPUT_LINES <? length buffer + 1)%nat eqn:E.
  - apply Nat.ltb_lt in E.
    replace (length buffer + 1 - MAX_OUTPUT_LINES)%nat with 1%nat by lia.
    by destruct (buffer ++ [entry]).
  - apply Nat.ltb_ge in E.
    by replace (length buffer + 1 - MAX_OUTPUT_LINES)%nat with 0%nat by lia.
Qed.

Lemma push_loop_last entries all :
  foldl push_capped (last_n MAX_OUTPUT_LINES all) entries
  = last_n MAX_OUTPUT_LINES (all ++ entries).
Proof.
  revert all. induction entries as [|e entries IH]; intros all; cbn [foldl].
  - by rewrite app_nil_r.
  - rewrite push_capped_last by (rewrite length_last_n; lia).
    rewrite last_n_snoc, IH. by rewrite <- app_assoc.
Qed.

Lemma foldl_map {A B C} (f : A -> C -> A) (g : B -> C) a (l : list B) :
  foldl (fun a x => f a (g x)) a l = foldl f a (map g l).
Proof. revert a. induction l as [|x l IH]; intros a; cbn [foldl map]; auto. Qed.

Lemma appendOutput_last data stream buffer :
  (length buffer <= MAX_OUTPUT_LINES)%nat ->
  appendOutput data stream buffer
  = last_n MAX_OUTPUT_LINES
      (buffer ++ map (fun line => "[" +:+ stream_name stream +:+ "] " +:+ line)
                     (filter (fun l => (0 < JS.strlen l)%nat) (JS.split data))).
Proof.
  intros Hlen. unfold appendOutput.
  rewrite (foldl_map push_capped
             (fun line => "[" +:+ stream_name stream +:+ "] " +:+ line)).
  rewrite <- (last_n_all MAX_OUTPUT_LINES buffer) at 1 by done.
  apply push_loop_last.
Qed.

(** X24.  The output buffer holds the most recent lines: a chunk adds one
    entry, tagged with its stream, for each non-empty line of its text, and a
    buffer of at most 500 entries is afterwards the last 500 entries of the
    old buffer followed by the new ones, so it never exceeds 500. *)
Theorem output_buffer_keeps_the_last_500_lines data stream buffer :
  (length buffer <= MAX_OUTPUT_LINES)%nat ->
  let entries :=
    map (fun line => "[" +:+ stream_name stream +:+ "] " +:+ line)
        (filter (fun l => (0 < JS.strlen l)%nat) (JS.split data)) in
  appendOutput data stream buffer = last_n MAX_OUTPUT_LINES (buffer ++ entries)
  /\ (length (appendOutput data stream buffer) <= MAX_OUTPUT_LINES)%nat.
Proof.
  intros Hlen entries.
  rewrite appendOutput_last by done. fold entries.
  split; [done|]. rewrite length_last_n. lia.
Qed.

Lemma output_buffer_sample :
  let entries :=
    map (fun line => "[" +:+ stream_name stderr +:+ "] " +:+ line)
        (filter (fun l => (0 < JS.strlen l)%nat)
                (JS.split (JS.join ["one"; ""; "two"]))) in
  appendOutput (JS.join ["one"; ""; "two"]) stderr (replicate 499 "[stdout] x")
    = last_n MAX_OUTPUT_LINES (replicate 499 "[stdout] x" ++ entries)
  /\ (length (appendOutput (JS.join ["one"; ""; "two"]) stderr
                (replicate 499 "[stdout] x")) <= MAX_OUTPUT_LINES)%nat.
Proof.
  apply (output_buffer_keeps_the_last_500_lines (JS.join ["one"; ""; "two"]) stderr
           (replicate 499 "[stdout] x")).
  vm_compute. lia.
Defined.

Lemma slice_from_zero {A} start (l : list A) : start = 0 -> slice_from start l = l.
Proof. intros ->. unfold slice_from. cbn [Z.ltb Z.compare]. by rewrite Z.min_l by lia. Qed.

Lemma slice_from_last {A} r (l : list A) :
  1 <= r -> slice_from (- r) l = last_n (Z.to_nat r) l.
Proof.
  intros Hr. unfold slice_from, last_n.
  destruct (- r <? 0) eqn:E; [|apply Z.ltb_ge in E; lia]. f_equal. lia.
Qed.

Lemma slice_from_positive {A} r (l : list A) :
  r < 0 -> slice_from (- r) l = drop (Z.to_nat (- r)) l.
Proof.
  intros Hr. unfold slice_from.
  destruct (- r <? 0) eqn:E; [apply Z.ltb_lt in E; lia|].
  destruct (decide (Z.to_nat (- r) <= length l)%nat).
  - f_equal. lia.
  - rewrite !drop_ge; [done | lia | lia].
Qed.

(** X25.  The lines a capture shows are taken from the end of the buffer,
    after the filter: for a request of n >= 1 lines the last min(n, 500) of
    them, and the last 50 when no number is given; but a request of 0 lines
    shows all of them and a negative request -k all but the first k. *)
Theorem capture_shows_the_last_requested_lines buffer filter_text :
  let output := recentLines buffer (Some 0) filter_text in
  (forall n, 1 <= n ->
     recentLines buffer (Some n) filter_text
     = last_n (Z.to_nat (Z.min n 500)) output)
  /\ recentLines buffer None filter_text = last_n 50 output
  /\ (forall k, 0 < k ->
        recentLines buffer (Some (- k)) filter_text = drop (Z.to_nat k) output)
  /\ output
     = match filter_text with
       | Some f =>
           if JS.truthy f then
             filter (fun line => includes (toLowerCase f) (toLowerCase line) = true)
                    buffer
           else buffer
       | None => buffer
       end.
Proof.
  cbn zeta.
  assert (recentLines buffer (Some 0) filter_text
          = match filter_text with
            | Some f =>
                if JS.truthy f then
                  filter (fun line => includes (toLowerCase f) (toLowerCase line) = true)
                         buffer
                else buffer
            | None => buffer
            end) as Hout.
  { unfold recentLines. cbn [default from_option]. unfold id.
    by rewrite slice_from_zero by (vm_compute; done). }
  rewrite Hout. unfold recentLines.
  set (output := match filter_text with
                 | Some f => if JS.truthy f then _ else buffer
                 | None => buffer
                 end).
  cbn [default from_option]. unfold id, MAX_OUTPUT_LINES.
  split; [|split; [|split; [|done]]].
  - intros n Hn. by rewrite slice_from_last by lia.
  - by rewrite slice_from_last by lia.
  - intros k Hk. rewrite slice_from_positive by lia. f_equal. lia.
Qed.

(** ** Starting, stopping and the exit of a process *)

Lemma map_get_delete {A} key' key (m : list (string * A)) :
  map_get key' (map_delete key m)
  = if bool_decide (key' = key) then None else map_get key' m.
Proof.
  unfold map_get, map_delete. induction m as [|[k v] rest IH].
  - rewrite filter_nil. cbn [find fmap option_fmap option_map].
    by destruct (bool_decide (key' = key)).
  - destruct (decide (k = key)) as [->|Hk].
    + rewrite filter_cons_False by (cbn [fst]; by intros ?).
      rewrite IH. cbn [find fst].
      destruct (decide (key' = key)) as [->|Hne].
      * by rewrite !bool_decide_eq_true_2 by done.
      * rewrite (bool_decide_eq_false_2 (key' = key)) by done.
        by rewrite (bool_decide_eq_false_2 (key = key')) by done.
    + rewrite filter_cons_True by done. cbn [find fst].
      destruct (decide (k = key')) as [->|Hne].
      * rewrite (bool_decide_eq_true_2 (key' = key')) by done.
        by rewrite (bool_decide_eq_false_2 (key' = key)) by done.
      * rewrite (bool_decide_eq_false_2 (k = key')) by done. apply IH.
Qed.

Lemma recentLines_nil lines filter_text : recentLines [] lines filter_text = [].
Proof.
  unfold recentLines, slice_from.
  destruct filter_text as [f|]; [destruct (JS.truthy f)|];
    rewrite ?filter_nil; apply drop_nil.
Qed.

(** The session a start works on, and the store once it is there. *)
Lemma session_for_start env sid cwd w :
  let '(session, w0) :=
    match loadSession sid w with
    | Some session => (session, w)
    | None => createSession sid (or_else cwd (process_cwd env)) (now env) w
    end in
  loadSession sid w0 = Some session
  /\ default [] (processes session) = process_list sid w
  /\ markers session = getMarkers sid w
  /\ files w0 = files w.
Proof.
  unfold process_list, getMarkers.
  destruct (loadSession sid w) as [session|] eqn:Hload; [done|].
  unfold createSession, loadSession, saveSession. cbn [sessions session_id files].
  by rewrite lookup_insert_eq.
Qed.

Lemma update_processes sid session ps w :
  loadSession sid w = Some session ->
  exists w', updateSession sid (with_processes session ps) w = Some w'
    /\ process_list sid w' = ps
    /\ getMarkers sid w' = markers session
    /\ files w' = files w.
Proof.
  intros Hload. unfold updateSession. rewrite Hload. eexists. split; [reflexivity|].
  unfold process_list, getMarkers, loadSession, saveSession, apply_updates.
  cbn [sessions session_id files]. rewrite lookup_insert_eq. done.
Qed.

(** A start on a free key with a child spawned. *)
Lemma start_succeeds env pid sid name command args cwd w r :
  map_get (getProcessKey sid name) (running r) = None -> pid <> 0 ->
  exists workDir w1,
    startProcessTool env (Some pid) sid name command args cwd (w, r)
    = (Started name pid command (default [] args) workDir,
       (w1,
        {| infos :=
             infos r
               ++ [ {| ProcessInfo.name := name; ProcessInfo.command := command;
                       ProcessInfo.args := default [] args;
                       ProcessInfo.cwd := workDir; ProcessInfo.pid := pid;
                       ProcessInfo.startedAt := now env;
                       ProcessInfo.outputBuffer := [] |} ];
           running := map_set (getProcessKey sid name) (length (infos r)) (running r) |}))
    /\ process_list sid w1
       = process_list sid w
           ++ [ {| ProcessEntry.name := name; ProcessEntry.pid := pid;
                   ProcessEntry.startedAt := now env |} ]
    /\ getMarkers sid w1 = getMarkers sid w
    /\ files w1 = files w.
Proof.
  intros Hfree Hpid. unfold startProcessTool. rewrite Hfree.
  pose proof (session_for_start env sid cwd w) as Hsession.
  destruct (match loadSession sid w with
            | Some session => (session, w)
            | None => createSession sid (or_else cwd (process_cwd env)) (now env) w
            end) as [session w0].
  destruct Hsession as (Hload & Hps & Hms & Hfiles).
  rewrite (proj2 (Z.eqb_neq pid 0)) by done.
  destruct (update_processes sid session
              (default [] (processes session)
                 ++ [ {| ProcessEntry.name := name; ProcessEntry.pid := pid;
                         ProcessEntry.startedAt := now env |} ]) w0 Hload)
    as (w1 & -> & Hps1 & Hms1 & Hfiles1).
  eexists _, w1. split; [reflexivity|].
  rewrite Hps1, Hms1, Hps, Hms, Hfiles1, Hfiles. done.
Qed.

(** X26.  The exit (or an error) of a child unregisters whatever is
    registered under the key of that child: afterwards a capture or a stop
    for that session and name finds no running process, and the buffer with
    the exit line can no longer be read.  The key is all it looks at: when a
    process is stopped and another is started under the same name before the
    exit of the first is handled, that exit unregisters the second, which was
    never stopped. *)
Theorem exit_unregisters_whatever_runs_under_the_key
    env sid name command args cwd w r pidA pidB code signal lines filter_text :
  map_get (getProcessKey sid name) (running r) = None ->
  pidA <> 0 -> pidB <> 0 ->
  let key := getProcessKey sid name in
  let handleA := length (infos r) in
  let startA := startProcessTool env (Some pidA) sid name command args cwd (w, r) in
  let stopA := stopProcessTool true sid name None (snd startA) in
  let startB :=
    startProcessTool env (Some pidB) sid name command args cwd (snd stopA) in
  let afterExit := on_exit handleA key code signal (snd (snd startB)) in
  (forall r0 handle,
     captureOutputTool sid name lines filter_text (on_exit handle key code signal r0)
       = CaptureNoProcess name sid
     /\ captureOutputTool sid name lines filter_text (on_error handle key "failed" r0)
       = CaptureNoProcess name sid)
  /\ (exists workDir, fst startA = Started name pidA command (default [] args) workDir)
  /\ fst stopA = Stopped name pidA "SIGTERM"
  /\ (exists workDir, fst startB = Started name pidB command (default [] args) workDir)
  /\ captureOutputTool sid name lines filter_text (snd (snd startB))
     = CaptureNothing filter_text name
  /\ captureOutputTool sid name lines filter_text afterExit
     = CaptureNoProcess name sid
  /\ fst (stopProcessTool true sid name None (fst (snd startB), afterExit))
     = StopNoProcess name sid.
Proof.
  intros Hfree HpidA HpidB key handleA startA stopA startB afterExit.
  assert (forall r0 handle,
            map_get key (running (on_exit handle key code signal r0)) = None) as Hexit.
  { intros r0 handle. unfold on_exit. cbn [running].
    by rewrite map_get_delete, bool_decide_eq_true_2. }
  split.
  { intros r0 handle. unfold captureOutputTool. fold key. rewrite Hexit.
    unfold on_error. cbn [running].
    by rewrite map_get_delete, bool_decide_eq_true_2. }
  destruct (start_succeeds env pidA sid name command args cwd w r Hfree HpidA)
    as (workDirA & w1 & HstartA & HpsA & _).
  fold startA in HstartA. fold key in HstartA.
  split; [exists workDirA; by rewrite HstartA|].
  (* the stop *)
  assert (exists w2,
            stopA = (Stopped name pidA "SIGTERM",
                     (w2, {| infos := infos (snd (snd startA));
                             running := map_delete key (running (snd (snd startA))) |})))
    as (w2 & HstopA).
  { subst stopA. rewrite HstartA. cbn [snd]. unfold stopProcessTool. fold key.
    cbn [running infos]. rewrite map_get_set, bool_decide_eq_true_2 by done.
    cbn [negb]. change (default "SIGTERM" None) with "SIGTERM".
    replace (ProcessInfo.pid (info_of _ (length (infos r)))) with pidA.
    2:{ unfold info_of. cbn [infos]. rewrite lookup_app_r by lia.
        by rewrite Nat.sub_diag. }
    destruct (loadSession sid w1) as [session|] eqn:Hload; [|by eexists].
    destruct (update_processes sid session
                (filter (fun p => ProcessEntry.name p ≠ name)
                        (default [] (processes session))) w1 Hload)
      as (w2 & -> & _). by eexists. }
  split; [by rewrite HstopA|].
  (* the second start *)
  assert (map_get key (running (snd (snd stopA))) = None) as Hfree2.
  { rewrite HstopA. cbn [snd running].
    by rewrite map_get_delete, bool_decide_eq_true_2. }
  destruct (snd stopA) as [w2' r2] eqn:Hs2. cbn [snd] in Hfree2.
  destruct (start_succeeds env pidB sid name command args cwd w2' r2 Hfree2 HpidB)
    as (workDirB & w3 & HstartB & _).
  fold startB in HstartB. fold key in HstartB.
  split; [exists workDirB; by rewrite HstartB|].
  split.
  { rewrite HstartB. cbn [snd]. unfold captureOutputTool. fold key. cbn [running].
    rewrite map_get_set, bool_decide_eq_true_2 by done.
    unfold info_of. cbn [infos]. rewrite lookup_app_r by lia.
    rewrite Nat.sub_diag. cbn [lookup list_lookup default from_option]. unfold id.
    cbn [ProcessInfo.outputBuffer]. rewrite recentLines_nil.
    by rewrite bool_decide_eq_true_2. }
  split.
  { unfold captureOutputTool. fold key. subst afterExit. by rewrite Hexit. }
  unfold stopProcessTool. fold key. subst afterExit. by rewrite Hexit.
Qed.

Lemma exit_race_sample :
  let env := sample_env random_A in
  let sid := "s" in
  let name := "app" in
  let command := "node" in
  let args := Some ["index.js"] in
  let cwd := @None string in
  let w := sample_world "x" in
  let r := idle in
  let pidA := 100 in
  let pidB := 200 in
  let code := Some 0 in
  let signal := @None string in
  let lines := @None Z in
  let filter_text := @None string in
  let key := getProcessKey sid name in
  let handleA := length (infos r) in
  let startA := startProcessTool env (Some pidA) sid name command args cwd (w, r) in
  let stopA := stopProcessTool true sid name None (snd startA) in
  let startB :=
    startProcessTool env (Some pidB) sid name command args cwd (snd stopA) in
  let afterExit := on_exit handleA key code signal (snd (snd startB)) in
  (forall r0 handle,
     captureOutputTool sid name lines filter_text (on_exit handle key code signal r0)
       = CaptureNoProcess name sid
     /\ captureOutputTool sid name lines filter_text (on_error handle key "failed" r0)
       = CaptureNoProcess name sid)
  /\ (exists workDir, fst startA = Started name pidA command (default [] args) workDir)
  /\ fst stopA = Stopped name pidA "SIGTERM"
  /\ (exists workDir, fst startB = Started name pidB command (default [] args) workDir)
  /\ captureOutputTool sid name lines filter_text (snd (snd startB))
     = CaptureNothing filter_text name
  /\ captureOutputTool sid name lines filter_text afterExit
     = CaptureNoProcess name sid
  /\ fst (stopProcessTool true sid name None (fst (snd startB), afterExit))
     = StopNoProcess name sid.
Proof.
  intros env sid name command args cwd w r pidA pidB code signal lines filter_text.
  apply (exit_unregisters_whatever_runs_under_the_key env sid name command args cwd
           w r pidA pidB code signal lines filter_text).
  - reflexivity.
  - by vm_compute.
  - by vm_compute.
Defined.

Lemma stop_succeeds sid name signal w r handle :
  map_get (getProcessKey sid name) (running r) = Some handle ->
  exists w',
    stopProcessTool true sid name signal (w, r)
    = (Stopped name (ProcessInfo.pid (info_of r handle)) (default "SIGTERM" signal),
       (w', {| infos := infos r;
               running := map_delete (getProcessKey sid name) (running r) |}))
    /\ process_list sid w'
       = filter (fun p => ProcessEntry.name p ≠ name) (process_list sid w)
    /\ getMarkers sid w' = getMarkers sid w
    /\ files w' = files w.
Proof.
  intros Hreg. unfold stopProcessTool. rewrite Hreg. cbn [negb].
  unfold process_list at 2. unfold getMarkers at 2.
  destruct (loadSession sid w) as [session|] eqn:Hload.
  - destruct (update_processes sid session
                (filter (fun p => ProcessEntry.name p ≠ name)
                        (default [] (processes session))) w Hload)
      as (w' & -> & Hps & Hms & Hfiles).
    exists w'. by rewrite Hps, Hms, Hfiles.
  - exists w. unfold process_list, getMarkers. rewrite Hload.
    by rewrite filter_nil.
Qed.

Lemma map_delete_fresh {A} key (value : A) m :
  map_get key m = None -> map_delete key (map_set key value m) = m.
Proof.
  unfold map_get, map_delete. induction m as [|[k v] rest IH]; cbn [find map_set fst].
  - intros _. by rewrite filter_cons_False, filter_nil by (cbn; by intros ?).
  - destruct (decide (k = key)) as [Hk|Hk];
      [rewrite !(bool_decide_eq_true_2 (k = key)) by done
      |rewrite !(bool_decide_eq_false_2 (k = key)) by done]; [done|].
    intros Hrest. rewrite filter_cons_True by done. by rewrite IH.
Qed.

(** X27.  Starting a process under a free name registers it with an empty
    buffer and appends its entry to the process list of the session, which
    is created when missing; markers and files are left alone.  While it is
    registered another start under the name is refused and changes nothing.
    A stop that kills it unregisters it and drops every entry of that name
    from the list, so that a start followed by a stop leaves the list without
    any entry of the name; a stop whose kill fails changes nothing, and so
    does a start whose spawn gives no child, except that the session may
    have been created. *)
Theorem start_and_stop_keep_the_process_list
    env sid name command args cwd w r pid signal :
  map_get (getProcessKey sid name) (running r) = None -> pid <> 0 ->
  let key := getProcessKey sid name in
  let entry := {| ProcessEntry.name := name; ProcessEntry.pid := pid;
                  ProcessEntry.startedAt := now env |} in
  let started := startProcessTool env (Some pid) sid name command args cwd (w, r) in
  let w1 := fst (snd started) in
  let r1 := snd (snd started) in
  let stopped := stopProcessTool true sid name signal (w1, r1) in
  (exists workDir, fst started = Started name pid command (default [] args) workDir)
  /\ process_list sid w1 = process_list sid w ++ [entry]
  /\ getMarkers sid w1 = getMarkers sid w /\ files w1 = files w
  /\ (exists handle, map_get key (running r1) = Some handle
        /\ ProcessInfo.pid (info_of r1 handle) = pid
        /\ ProcessInfo.outputBuffer (info_of r1 handle) = [])
  /\ (forall pid' command' args' cwd',
        startProcessTool env (Some pid') sid name command' args' cwd' (w1, r1)
        = (StartAlreadyRunning name pid, (w1, r1)))
  /\ stopProcessTool false sid name signal (w1, r1)
     = (StopMayHaveExited name pid, (w1, r1))
  /\ fst stopped = Stopped name pid (default "SIGTERM" signal)
  /\ process_list sid (fst (snd stopped))
     = filter (fun p => ProcessEntry.name p ≠ name) (process_list sid w)
  /\ running (snd (snd stopped)) = running r
  /\ (forall spawned, spawned = None \/ spawned = Some 0 ->
        let failed := startProcessTool env spawned sid name command args cwd (w, r) in
        fst failed = StartFailed name command (default [] args)
        /\ snd (snd failed) = r
        /\ files (fst (snd failed)) = files w
        /\ is_Some (loadSession sid (fst (snd failed)))).
Proof.
  intros Hfree Hpid key entry started w1 r1 stopped.
  destruct (start_succeeds env pid sid name command args cwd w r Hfree Hpid)
    as (workDir & w1' & Hstart & Hps & Hms & Hfiles).
  fold started key in Hstart.
  assert (w1 = w1') as -> by (subst w1; by rewrite Hstart).
  assert (Hr1 : r1 = {| infos := infos r ++
                           [ {| ProcessInfo.name := name; ProcessInfo.command := command;
                                ProcessInfo.args := default [] args;
                                ProcessInfo.cwd := workDir; ProcessInfo.pid := pid;
                                ProcessInfo.startedAt := now env;
                                ProcessInfo.outputBuffer := [] |} ];
                        running := map_set key (length (infos r)) (running r) |})
    by (subst r1; by rewrite Hstart).
  assert (map_get key (running r1) = Some (length (infos r))) as Hreg.
  { rewrite Hr1. cbn [running]. by rewrite map_get_set, bool_decide_eq_true_2. }
  assert (info_of r1 (length (infos r))
          = {| ProcessInfo.name := name; ProcessInfo.command := command;
               ProcessInfo.args := default [] args;
               ProcessInfo.cwd := workDir; ProcessInfo.pid := pid;
               ProcessInfo.startedAt := now env;
               ProcessInfo.outputBuffer := [] |}) as Hinfo.
  { rewrite Hr1. unfold info_of. cbn [infos]. rewrite lookup_app_r by lia.
    by rewrite Nat.sub_diag. }
  split; [exists workDir; by rewrite Hstart|].
  split; [done|]. split; [done|]. split; [done|].
  split; [exists (length (infos r)); by rewrite Hinfo|].
  split.
  { intros pid' command' args' cwd'. unfold startProcessTool. fold key.
    by rewrite Hreg, Hinfo. }
  split.
  { unfold stopProcessTool. fold key. by rewrite Hreg, Hinfo. }
  destruct (stop_succeeds sid name signal w1' r1 (length (infos r)) Hreg)
    as (w2 & Hstop & Hps2 & _).
  fold stopped key in Hstop. rewrite Hstop, Hinfo. cbn [fst snd running].
  split; [done|]. split.
  { rewrite Hps2, Hps, filter_app, filter_cons_False, filter_nil, app_nil_r;
      [done | cbn; by intros ?]. }
  split.
  { rewrite Hr1. cbn [running]. by apply map_delete_fresh. }
  intros spawned Hspawned. unfold startProcessTool. rewrite Hfree.
  pose proof (session_for_start env sid cwd w) as Hsession.
  destruct (match loadSession sid w with
            | Some session => (session, w)
            | None => createSession sid (or_else cwd (process_cwd env)) (now env) w
            end) as [session w0].
  destruct Hsession as (Hload & _ & _ & Hfiles0).
  destruct Hspawned as [-> | ->]; cbn [Z.eqb fst snd];
    (split; [done|]); (split; [done|]); (split; [done|]); by eexists.
Qed.

Lemma start_and_stop_sample :
  let env := sample_env random_A in
  let sid := "s" in
  let name := "app" in
  let command := "node" in
  let args := Some ["index.js"] in
  let cwd := @None string in
  let w := three_marker_world in
  let r := idle in
  let pid := 100 in
  let signal := Some "SIGKILL" in
  let key := getProcessKey sid name in
  let entry := {| ProcessEntry.name := name; ProcessEntry.pid := pid;
                  ProcessEntry.startedAt := now env |} in
  let started := startProcessTool env (Some pid) sid name command args cwd (w, r) in
  let w1 := fst (snd started) in
  let r1 := snd (snd started) in
  let stopped := stopProcessTool true sid name signal (w1, r1) in
  (exists workDir, fst started = Started name pid command (default [] args) workDir)
  /\ process_list sid w1 = process_list sid w ++ [entry]
  /\ getMarkers sid w1 = getMarkers sid w /\ files w1 = files w
  /\ (exists handle, map_get key (running r1) = Some handle
        /\ ProcessInfo.pid (info_of r1 handle) = pid
        /\ ProcessInfo.outputBuffer (info_of r1 handle) = [])
  /\ (forall pid' command' args' cwd',
        startProcessTool env (Some pid') sid name command' args' cwd' (w1, r1)
        = (StartAlreadyRunning name pid, (w1, r1)))
  /\ stopProcessTool false sid name signal (w1, r1)
     = (StopMayHaveExited name pid, (w1, r1))
  /\ fst stopped = Stopped name pid (default "SIGTERM" signal)
  /\ process_list sid (fst (snd stopped))
     = filter (fun p => ProcessEntry.name p ≠ name) (process_list sid w)
  /\ running (snd (snd stopped)) = running r
  /\ (forall spawned, spawned = None \/ spawned = Some 0 ->
        let failed := startProcessTool env spawned sid name command args cwd (w, r) in
        fst failed = StartFailed name command (default [] args)
        /\ snd (snd failed) = r
        /\ files (fst (snd failed)) = files w
        /\ is_Some (loadSession sid (fst (snd failed)))).
Proof.
  intros env sid name command args cwd w r pid signal.
  apply (start_and_stop_keep_the_process_list env sid name command args cwd w r pid
           signal).
  - reflexivity.
  - by vm_compute.
Defined.

(** ** What the inserted statements print *)

Lemma printed_line_has_no_tag id label value :
  well_formed_id id = true -> no_bracket label = true -> no_bracket value = true ->
  extractMarkerId (printed_line id label value) = None.
Proof.
  intros Hid Hlabel Hvalue. unfold printed_line.
  apply (not_a_tag EmptyString id ("] " +:+ label +:+ ": " +:+ value)); [done|done|].
  unfold no_bracket in *. rewrite !all_chars_app, Hlabel, Hvalue. done.
Qed.

Lemma extractDebugValue_needs_tag l :
  extractMarkerId l = None -> extractDebugValue l = None.
Proof.
  induction l as [|c l IH]; cbn [extractMarkerId extractDebugValue].
  - by destruct (match_tag EmptyString) as [[? ?]|].
  - destruct (match_tag (String c l)) as [[? ?]|]; [done|]. apply IH.
Qed.

Section PrintedLines.

Variable ERROR_PATTERNS : list (string -> bool).
Variable WARNING_PATTERNS : list (string -> bool).

(** X28.  The lines the inserted statements print have the form
    [[id] label: value], without the word DEBUG-HELPER that the tag grammar
    asks for.  In a log made of such lines (well-formed ids, no opening
    bracket in labels and values) no line yields a marker id: parsing reports
    no debug-helper match, no value is extracted, the summary lists no id,
    and the correlation reports every marker of the session as not hit. *)
Theorem printed_lines_are_not_recognised markers log :
  Forall (fun l => exists id label value,
            well_formed_id id = true /\ no_bracket label = true
            /\ no_bracket value = true /\ l = printed_line id label value)
         (JS.split log) ->
  let matches := parseLogContent ERROR_PATTERNS WARNING_PATTERNS log in
  let report := correlate ERROR_PATTERNS WARNING_PATTERNS markers log in
  omap extractMarkerId (JS.split log) = []
  /\ filterDebugHelperOutput matches = []
  /\ Forall (fun l => extractDebugValue l = None) (JS.split log)
  /\ Summary.marker_ids (summarizeLogAnalysis matches) = []
  /\ groupByMarker matches = []
  /\ status report = map (fun m => (m, false)) markers
  /\ markerOrder report = []
  /\ missedMarkers report = markers.
Proof.
  intros Hlines matches report.
  assert (Forall (fun l => extractMarkerId l = None) (JS.split log)) as Hnone.
  { eapply Forall_impl; [exact Hlines|].
    intros l (id & label & value & Hid & Hlabel & Hvalue & ->).
    by apply printed_line_has_no_tag. }
  assert (omap extractMarkerId (JS.split log) = []) as Htags.
  { clear Hlines. induction Hnone as [|l ls Hl _ IH]; [done|].
    cbn [omap list_omap]. by rewrite Hl. }
  destruct (debug_matches_of_parse ERROR_PATTERNS WARNING_PATTERNS
              (JS.split log) 0 (JS.split log)) as [Htruthy Hdebug].
  fold (parseLogContent ERROR_PATTERNS WARNING_PATTERNS log) in Htruthy, Hdebug.
  fold matches in Htruthy, Hdebug. rewrite Htags in Hdebug.
  assert (filterDebugHelperOutput matches = []) as Hempty.
  { destruct (filterDebugHelperOutput matches) as [|m ms]; [done|].
    apply Forall_cons in Htruthy as [(id & Hid & _) _].
    cbn [omap list_omap] in Hdebug. by rewrite Hid in Hdebug. }
  assert (Forall (fun m => LogMatch.marker_id m = None) matches) as Hids.
  { pose proof (parseLogContent_reports_the_notable_lines_aux ERROR_PATTERNS WARNING_PATTERNS log) as Haux.
    eapply Forall_impl; [exact Haux|]. intros m (Hlook & Hid).
    rewrite Hid. rewrite Forall_forall in Hnone. apply Hnone.
    by eapply list_elem_of_lookup_2. }
  split; [done|]. split; [done|]. split.
  { eapply Forall_impl; [exact Hnone|]. intros l. apply extractDebugValue_needs_tag. }
  destruct (summary_general matches) as (_ & _ & _ & _ & Hsummary).
  split; [by rewrite Hsummary, Hempty|].
  split.
  { unfold groupByMarker. clear -Hids.
    induction Hids as [|m ms Hm _ IH]; [done|]. cbn [foldl]. by rewrite Hm. }
  destruct (correlate_spec ERROR_PATTERNS WARNING_PATTERNS markers log)
    as (Hstatus & Horder & Hmissed).
  fold report in Hstatus, Horder, Hmissed. rewrite Htags in Hstatus, Horder, Hmissed.
  split; [|split].
  - rewrite Hstatus. apply map_ext. intros m.
    by rewrite bool_decide_eq_false_2 by (by intros ?%elem_of_nil).
  - cbn [first_seen] in Horder. by destruct (markerOrder report).
  - rewrite Hmissed. clear. induction markers as [|m ms IH]; [done|].
    rewrite filter_cons_True by (by intros ?%elem_of_nil). by rewrite IH.
Qed.

End PrintedLines.

Lemma printed_lines_sample :
  let log := JS.join [ printed_line "p7777777" "user id" "42";
                       printed_line "3lllllll" "total" "{a: 1}" ] in
  let markers := [sample_marker "p7777777"; sample_marker "3lllllll"] in
  let matches := parseLogContent [includes "TypeError"] [includes "warn"] log in
  let report := correlate [includes "TypeError"] [includes "warn"] markers log in
  omap extractMarkerId (JS.split log) = []
  /\ filterDebugHelperOutput matches = []
  /\ Forall (fun l => extractDebugValue l = None) (JS.split log)
  /\ Summary.marker_ids (summarizeLogAnalysis matches) = []
  /\ groupByMarker matches = []
  /\ status report = map (fun m => (m, false)) markers
  /\ markerOrder report = []
  /\ missedMarkers report = markers.
Proof.
  apply (printed_lines_are_not_recognised [includes "TypeError"] [includes "warn"]
           [sample_marker "p7777777"; sample_marker "3lllllll"]
           (JS.join [ printed_line "p7777777" "user id" "42";
                      printed_line "3lllllll" "total" "{a: 1}" ])).
  assert (JS.split (JS.join [ printed_line "p7777777" "user id" "42";
                              printed_line "3lllllll" "total" "{a: 1}" ])
          = [ printed_line "p7777777" "user id" "42";
              printed_line "3lllllll" "total" "{a: 1}" ]) as -> by reflexivity.
  repeat constructor.
  - exists "p7777777", "user id", "42". by repeat split.
  - exists "3lllllll", "total", "{a: 1}". by repeat split.
Defined.

(** ** Reading a value from a tagged line *)

Lemma extractDebugValue_skip p t :
  no_bracket p = true -> extractDebugValue (p +:+ t) = extractDebugValue t.
Proof.
  unfold no_bracket. induction p as [|c p IH]; [done|]. cbn [JS.all_chars].
  rewrite andb_true_iff, negb_true_iff. intros [Hc Hp].
  change (String c p +:+ t) with (String c (p +:+ t)).
  cbn [extractDebugValue]. rewrite match_tag_no_bracket by done. by apply IH.
Qed.

Lemma split_colon_app a b :
  no_colon a = true -> split_colon (a +:+ String ":" b) = Some (a, b).
Proof.
  unfold no_colon. induction a as [|c a IH]; cbn [JS.all_chars String.append split_colon].
  - done.
  - rewrite andb_true_iff, negb_true_iff. intros [Hc Ha]. by rewrite Hc, IH.
Qed.

Lemma split_colon_none s : no_colon s = true -> split_colon s = None.
Proof.
  unfold no_colon. induction s as [|c s IH]; cbn [JS.all_chars split_colon]; [done|].
  rewrite andb_true_iff, negb_true_iff. intros [Hc Hs]. by rewrite Hc, IH.
Qed.

Lemma trim_end_trimmed s d :
  last_where (fun _ => true) s = Some d -> JS.is_space d = false ->
  trim_end s = s.
Proof.
  intros Hlast Hd. revert Hlast. induction s as [|c s IH]; [done|].
  cbn [last_where trim_end]. destruct (last_where (fun _ => true) s) as [e|] eqn:E.
  - intros [= ->]. rewrite IH by done. by destruct s.
  - intros [= ->]. destruct s as [|c' s']; [by rewrite Hd|].
    cbn [last_where] in E. by destruct (last_where (fun _ => true) s').
Qed.

Lemma trimmed_spec s :
  trimmed s = true ->
  exists c rest, s = String c rest /\ JS.is_space c = false /\ trim s = s.
Proof.
  unfold trimmed. destruct s as [|c rest]; [done|].
  rewrite andb_true_iff, negb_true_iff. intros [Hc Hlast].
  exists c, rest. split; [done|]. split; [done|].
  unfold trim. cbn [JS.span]. rewrite Hc. cbn [snd].
  destruct (last_where (fun _ => true) (String c rest)) as [d|] eqn:E; [|done].
  apply negb_true_iff in Hlast. by eapply trim_end_trimmed.
Qed.

(** X29.  [extractDebugValue] reads back a line written in its format: a
    tag with a well-formed id after a prefix without opening bracket, a
    space, a label without colon, a colon, a space and a value that stays on
    the line, label and value starting and ending with a character that is no
    white space.  It returns null for a line without a tag, and for a tagged
    line without a colon after the tag, such as a marker comment. *)
Theorem extractDebugValue_reads_label_and_value prefix id label value :
  no_bracket prefix = true -> well_formed_id id = true ->
  trimmed label = true -> no_colon label = true ->
  trimmed value = true ->
  JS.all_chars (fun c => negb (is_line_terminator c)) value = true ->
  extractDebugValue
    (prefix +:+ "[DEBUG-HELPER:" +:+ id +:+ "] " +:+ label +:+ ": " +:+ value)
  = Some {| DebugValue.markerId := id; DebugValue.label := label;
            DebugValue.value := value |}
  /\ (forall l, extractMarkerId l = None -> extractDebugValue l = None)
  /\ (forall rest, no_colon rest = true -> no_bracket rest = true ->
        extractDebugValue (prefix +:+ "[DEBUG-HELPER:" +:+ id +:+ String "]" rest)
        = None).
Proof.
  intros Hprefix Hid Hlabel Hcolon Hvalue Hline.
  split; [|split; [apply extractDebugValue_needs_tag|]].
  - rewrite extractDebugValue_skip by done.
    destruct (trimmed_spec label Hlabel) as (c & l' & -> & Hc & Htrim).
    destruct (trimmed_spec value Hvalue) as (d & v' & -> & Hd & Htrimv).
    set (label := String c l') in *. set (value := String d v') in *.
    set (after := " " +:+ label +:+ ": " +:+ value).
    assert (match_tag ("[DEBUG-HELPER:" +:+ id +:+ "] " +:+ label +:+ ": " +:+ value)
            = Some (id, after)) as Htag.
    { change ("[DEBUG-HELPER:" +:+ id +:+ "] " +:+ label +:+ ": " +:+ value)
        with ("[DEBUG-HELPER:" +:+ id +:+ String "]" after).
      by apply match_tag_here. }
    assert (debug_value_after id after
            = Some {| DebugValue.markerId := id; DebugValue.label := label;
                      DebugValue.value := value |}) as Hafter.
    { unfold debug_value_after, after.
      replace (" " +:+ label +:+ ": " +:+ value)
        with ((" " +:+ label) +:+ String ":" (" " +:+ value))
        by (rewrite str_app_assoc; reflexivity).
      rewrite split_colon_app by (unfold no_colon in *; by rewrite all_chars_app).
      assert (forall t e, JS.is_space e = false ->
                JS.span JS.is_space (" " +:+ String e t) = (" ", String e t))
        as Hspace.
      { intros t e He. by apply (span_app_stop JS.is_space " " (String e t)). }
      assert (label_group (" " +:+ label) = Some label) as ->.
      { unfold label_group, label. by rewrite Hspace. }
      assert (value_group (" " +:+ value) = Some value) as ->.
      { unfold value_group, value. rewrite Hspace by done. fold value.
        pose proof (span_app_stop (fun d => negb (is_line_terminator d))
                      value EmptyString Hline I) as Hspan.
        rewrite str_app_nil_r in Hspan. by rewrite Hspan. }
      by rewrite Htrim, Htrimv. }
    destruct ("[DEBUG-HELPER:" +:+ id +:+ "] " +:+ label +:+ ": " +:+ value)
      as [|x line] eqn:E; cbn [extractDebugValue]; by rewrite Htag, Hafter.
  - intros rest Hrest Hbracket. rewrite extractDebugValue_skip by done.
    assert (match_tag ("[DEBUG-HELPER:" +:+ id +:+ String "]" rest) = Some (id, rest))
      as Htag by by apply match_tag_here.
    change ("[DEBUG-HELPER:" +:+ id +:+ String "]" rest)
      with (String "[" ("DEBUG-HELPER:" +:+ id +:+ String "]" rest)) in *.
    cbn [extractDebugValue]. rewrite Htag.
    unfold debug_value_after. rewrite split_colon_none by done.
    apply extractDebugValue_needs_tag, extract_no_bracket.
    unfold well_formed_id in Hid. apply andb_true_iff in Hid as [_ Hid].
    pose proof (id_chars_no_bracket id Hid) as Hidb.
    unfold no_bracket in *.
    change ("DEBUG-HELPER:" +:+ id +:+ String "]" rest)
      with ("DEBUG-HELPER:" +:+ (id +:+ String "]" rest)).
    rewrite !all_chars_app. cbn [JS.all_chars]. by rewrite Hbracket, Hidb.
Qed.

Lemma extractDebugValue_sample :
  extractDebugValue
    ("out: " +:+ "[DEBUG-HELPER:" +:+ "abc123" +:+ "] " +:+ "user data" +:+ ": "
       +:+ "{id: 1, name: 'test'}")
  = Some {| DebugValue.markerId := "abc123"; DebugValue.label := "user data";
            DebugValue.value := "{id: 1, name: 'test'}" |}
  /\ (forall l, extractMarkerId l = None -> extractDebugValue l = None)
  /\ (forall rest, no_colon rest = true -> no_bracket rest = true ->
        extractDebugValue ("out: " +:+ "[DEBUG-HELPER:" +:+ "abc123" +:+ String "]" rest)
        = None).
Proof.
  apply (extractDebugValue_reads_label_and_value "out: " "abc123" "user data"
           "{id: 1, name: 'test'}"); reflexivity.
Defined.

(** X30.  A capture shows what the registered child wrote: after a chunk of
    output of that child the tool selects its lines from the last 500
    entries of the old buffer followed by the new ones, while a chunk of any
    other child, registered or not, leaves what the capture shows as it
    was. *)
Theorem capture_shows_what_the_child_wrote
    sid name lines filter_text r handle other data stream :
  map_get (getProcessKey sid name) (running r) = Some handle ->
  (handle < length (infos r))%nat ->
  (length (ProcessInfo.outputBuffer (info_of r handle)) <= MAX_OUTPUT_LINES)%nat ->
  other <> handle ->
  let info := info_of r handle in
  let entries :=
    map (fun line => "[" +:+ stream_name stream +:+ "] " +:+ line)
        (filter (fun l => (0 < JS.strlen l)%nat) (JS.split data)) in
  let shown :=
    recentLines (last_n MAX_OUTPUT_LINES (ProcessInfo.outputBuffer info ++ entries))
      lines filter_text in
  captureOutputTool sid name lines filter_text (on_output handle data stream r)
    = (if bool_decide (length shown = 0%nat) then CaptureNothing filter_text name
       else Captured name (ProcessInfo.pid info) shown filter_text)
  /\ captureOutputTool sid name lines filter_text (on_output other data stream r)
     = captureOutputTool sid name lines filter_text r.
Proof.
  intros Hreg Hvalid Hlen Hother info entries shown.
  unfold captureOutputTool, on_output. cbn [running]. rewrite Hreg.
  unfold info_of in *. cbn [infos].
  destruct (infos r !! handle) as [i|] eqn:Hi;
    [|apply lookup_ge_None in Hi; lia].
  cbn [default from_option] in *. unfold id in *. split.
  - rewrite list_lookup_alter_eq, Hi. cbn [fmap option_fmap option_map].
    cbn [set_buffer ProcessInfo.outputBuffer ProcessInfo.pid].
    by rewrite appendOutput_last by done.
  - by rewrite list_lookup_alter_ne, Hi by done.
Qed.

Lemma capture_sample :
  let r := snd (snd (startProcessTool (sample_env random_A) (Some 100) "s" "app"
                       "node" None None (three_marker_world, idle))) in
  let info := info_of r 0 in
  let entries :=
    map (fun line => "[" +:+ stream_name stdout +:+ "] " +:+ line)
        (filter (fun l => (0 < JS.strlen l)%nat)
                (JS.split (JS.join ["listening"; ""]))) in
  let shown :=
    recentLines (last_n MAX_OUTPUT_LINES (ProcessInfo.outputBuffer info ++ entries))
      (Some 10) None in
  captureOutputTool "s" "app" (Some 10) None
      (on_output 0 (JS.join ["listening"; ""]) stdout r)
    = (if bool_decide (length shown = 0%nat) then CaptureNothing None "app"
       else Captured "app" (ProcessInfo.pid info) shown None)
  /\ captureOutputTool "s" "app" (Some 10) None
       (on_output 7 (JS.join ["listening"; ""]) stdout r)
     = captureOutputTool "s" "app" (Some 10) None r.
Proof.
  apply (capture_shows_what_the_child_wrote "s" "app" (Some 10) None
           (snd (snd (startProcessTool (sample_env random_A) (Some 100) "s" "app"
                        "node" None None (three_marker_world, idle))))
           0 7 (JS.join ["listening"; ""]) stdout).
  - reflexivity.
  - vm_compute. lia.
  - vm_compute. lia.
  - lia.
Defined.
